(** * pynspect.filters: the record evaluator and the IDEA filter compiler

    A shallow embedding of [pynspect/filters.py]: the coercion helpers
    ([compile_ip_v4], [compile_ip_v6], [compile_datetime], [clean_variable]),
    the coercion table [COMPILATIONS_IDEA_OBJECT], the two rule tree
    traversers [DataObjectFilter] and [IDEAFilterCompiler], and the Python
    built-ins they call ([int], [float], [str], [re], [datetime]).

    Python objects are values, except the [value] attribute of an integer
    literal, which the compiler assigns to: those live in a store, and the
    functions of the module are computations over that store which may
    raise.  Strings are sequences of 8-bit characters and the two regular
    expressions are matched on them as on ASCII text.  What the module
    imports from elsewhere ([ipranges], the operator evaluation of
    [pynspect.traversers], [pynspect.jpath], the platform behind
    [datetime.fromtimestamp] and [float]) is a parameter, [Externals]. *)

From Stdlib Require Import ZArith Lia Ascii String SpecFloat.
From stdpp Require Import base option list.

Set Warnings "-register-all".

Local Open Scope string_scope.
Local Open Scope Z_scope.
Local Open Scope list_scope.

(** ** Python values *)

(** An [ipranges.Range] object (an address, a network or a range of either
    protocol version).  The filter code never looks inside one. *)
Inductive Range : Type :=
  | IPRange (version : Z) (low high : Z).

(** A naive [datetime.datetime]. *)
Record datetime : Type := mkdatetime {
  year : Z; month : Z; day : Z;
  hour : Z; minute : Z; second : Z; microsecond : Z
}.

(** The values a rule node's [value] attribute can hold, and the results the
    evaluator returns.  [VRuleList] is the [value] of a list node (a Python
    list of rule objects) as seen by code that only tests its type. *)
Inductive Value : Type :=
  | VNone
  | VBool (b : bool)
  | VStr (s : string)
  | VInt (z : Z)
  | VFloat (f : spec_float)
  | VRange (r : Range)
  | VDatetime (d : datetime)
  | VList (l : list Value)
  | VListIP (l : list Value)
  | VDict (d : list (string * Value))
  | VRuleList.

Inductive exn : Type :=
  | ValueError (msg : string)
  | TypeError
  | AttributeError
  | IndexError
  | OverflowError
  | OtherError (msg : string).

Inductive result (A : Type) : Type :=
  | Ok (a : A)
  | Raise (e : exn).
Arguments Ok {A} a.
Arguments Raise {A} e.

Definition rbind {A B} (m : result A) (k : A -> result B) : result B :=
  match m with Ok a => k a | Raise e => Raise e end.

Definition rmap {A B} (f : A -> B) (m : result A) : result B :=
  rbind m (fun a => Ok (f a)).

Fixpoint rmapM {A B} (f : A -> result B) (l : list A) : result (list B) :=
  match l with
  | [] => Ok []
  | x :: t => rbind (f x) (fun y => rbind (rmapM f t) (fun ys => Ok (y :: ys)))
  end.

(** ** Characters and Python's numeric literals *)

Definition chars : Type := list ascii.

Definition code (c : ascii) : Z := Z.of_N (N_of_ascii c).

Definition is_digit (c : ascii) : bool := (48 <=? code c) && (code c <=? 57).

Definition digit_value (c : ascii) : Z := code c - 48.

(** ASCII white space as [str.strip] and the numeric constructors see it. *)
Definition is_space (c : ascii) : bool :=
  ((9 <=? code c) && (code c <=? 13)) || ((28 <=? code c) && (code c <=? 32)).

Fixpoint lstrip (l : chars) : chars :=
  match l with
  | c :: t => if is_space c then lstrip t else l
  | [] => []
  end.

Fixpoint rstrip (l : chars) : chars :=
  match l with
  | [] => []
  | c :: t =>
      match rstrip t with
      | [] => if is_space c then [] else [c]
      | r => c :: r
      end
  end.

Definition strip (l : chars) : chars := rstrip (lstrip l).

(** [digit (["_"] digit)*] read to the end of the text: the digits of an
    integer literal, single underscores allowed between digits. *)
Fixpoint digits_to_end (acc : Z) (after_digit : bool) (l : chars) : option Z :=
  match l with
  | [] => if after_digit then Some acc else None
  | c :: t =>
      if is_digit c then digits_to_end (acc * 10 + digit_value c) true t
      else if Ascii.eqb c "_" then
        if after_digit then digits_to_end acc false t else None
      else None
  end.

(** [int(s)] for a string, base 10. *)
Definition int_of_chars (l : chars) : option Z :=
  match strip l with
  | c :: t =>
      if Ascii.eqb c "+" then digits_to_end 0 false t
      else if Ascii.eqb c "-" then Z.opp <$> digits_to_end 0 false t
      else digits_to_end 0 false (c :: t)
  | [] => None
  end.

(** The longest [digit (["_"] digit)*] prefix; [None] when the text does not
    start with a digit.  Returns what follows it. *)
Fixpoint skip_digitpart (after_digit : bool) (l : chars) : option chars :=
  match l with
  | c :: t =>
      if is_digit c then skip_digitpart true t
      else if after_digit then
        match t with
        | d :: _ =>
            if Ascii.eqb c "_" && is_digit d then skip_digitpart false t
            else Some l
        | [] => Some l
        end
      else None
  | [] => if after_digit then Some [] else None
  end.

Definition lower (c : ascii) : ascii :=
  if (65 <=? code c) && (code c <=? 90)
  then ascii_of_N (N_of_ascii c + 32) else c.

Definition drop_sign (l : chars) : chars :=
  match l with
  | c :: t => if Ascii.eqb c "+" || Ascii.eqb c "-" then t else l
  | [] => []
  end.

Definition chars_eqb (a b : chars) : bool :=
  String.eqb (string_of_list_ascii a) (string_of_list_ascii b).

(** An optional exponent, then the end of the text. *)
Definition exponent_then_end (l : chars) : bool :=
  match l with
  | [] => true
  | c :: t =>
      if Ascii.eqb (lower c) "e" then
        match skip_digitpart false (drop_sign t) with
        | Some [] => true
        | _ => false
        end
      else false
  end.

(** Whether [float(s)] accepts the string [s]. *)
Definition float_literal (l : chars) : bool :=
  let body := drop_sign (strip l) in
  let low := map lower body in
  if chars_eqb low (list_ascii_of_string "inf")
     || chars_eqb low (list_ascii_of_string "infinity")
     || chars_eqb low (list_ascii_of_string "nan") then true
  else
    match skip_digitpart false body with
    | Some r =>
        match r with
        | c :: r' =>
            if Ascii.eqb c "." then
              match skip_digitpart false r' with
              | Some r'' => exponent_then_end r''
              | None => exponent_then_end r'
              end
            else exponent_then_end r
        | [] => true
        end
    | None =>
        match body with
        | c :: r =>
            if Ascii.eqb c "." then
              match skip_digitpart false r with
              | Some r' => exponent_then_end r'
              | None => false
              end
            else false
        | [] => false
        end
    end.

(** ** [int], [float] on values *)

(** [int(x)]: an [int] stays, a float is truncated toward zero, a string is
    read as a base 10 literal, anything else is a [TypeError]. *)
Definition py_int (v : Value) : result Z :=
  match v with
  | VInt z => Ok z
  | VBool b => Ok (if b then 1 else 0)
  | VFloat f =>
      match f with
      | S754_zero _ => Ok 0
      | S754_finite s m e =>
          let n := Z.shiftl (Z.pos m) e in Ok (if s then - n else n)
      | S754_infinity _ => Raise OverflowError
      | S754_nan => Raise (ValueError "cannot convert float NaN to integer")
      end
  | VStr s =>
      match int_of_chars (list_ascii_of_string s) with
      | Some z => Ok z
      | None => Raise (ValueError "invalid literal for int() with base 10")
      end
  | _ => Raise TypeError
  end.

(** The binary64 float nearest to an integer. *)
Definition float_of_Z (z : Z) : result spec_float :=
  match binary_normalize 53 1024 z 0 false with
  | S754_infinity _ => Raise OverflowError
  | f => Ok f
  end.

(** ** [datetime] *)

Definition _is_leap (y : Z) : bool :=
  (y mod 4 =? 0) && (negb (y mod 100 =? 0) || (y mod 400 =? 0)).

Definition _DAYS_IN_MONTH : list Z :=
  [-1; 31; 28; 31; 30; 31; 30; 31; 31; 30; 31; 30; 31].

Definition _DAYS_BEFORE_MONTH : list Z :=
  [-1; 0; 31; 59; 90; 120; 151; 181; 212; 243; 273; 304; 334].

Definition table_at (t : list Z) (i : Z) : Z := nth (Z.to_nat i) t 0.

Definition _days_before_year (y : Z) : Z :=
  let y := y - 1 in y * 365 + y / 4 - y / 100 + y / 400.

Definition _days_in_month (y m : Z) : Z :=
  if (m =? 2) && _is_leap y then 29 else table_at _DAYS_IN_MONTH m.

Definition _days_before_month (y m : Z) : Z :=
  table_at _DAYS_BEFORE_MONTH m + (if (2 <? m) && _is_leap y then 1 else 0).

Definition _ymd2ord (y m d : Z) : Z :=
  _days_before_year y + _days_before_month y m + d.

Definition _DI400Y : Z := 146097.
Definition _DI100Y : Z := 36524.
Definition _DI4Y : Z := 1461.
Definition _MAXORDINAL : Z := 3652059.

Definition _ord2ymd (n : Z) : Z * Z * Z :=
  let n := n - 1 in
  let n400 := n / _DI400Y in let n := n mod _DI400Y in
  let y := n400 * 400 + 1 in
  let n100 := n / _DI100Y in let n := n mod _DI100Y in
  let n4 := n / _DI4Y in let n := n mod _DI4Y in
  let n1 := n / 365 in let n := n mod 365 in
  let y := y + n100 * 100 + n4 * 4 + n1 in
  if (n1 =? 4) || (n100 =? 4) then (y - 1, 12, 31)
  else
    let leapyear := (n1 =? 3) && (negb (n4 =? 24) || (n100 =? 3)) in
    let m := Z.shiftr (n + 50) 5 in
    let preceding :=
      table_at _DAYS_BEFORE_MONTH m + (if (2 <? m) && leapyear then 1 else 0) in
    if n <? preceding then
      let m := m - 1 in
      let preceding :=
        preceding
        - (table_at _DAYS_IN_MONTH m + (if (m =? 2) && leapyear then 1 else 0)) in
      (y, m, n - preceding + 1)
    else (y, m, n - preceding + 1).

Definition between (lo x hi : Z) : bool := (lo <=? x) && (x <=? hi).

(** [datetime.datetime(year, month, day, hour, minute, second, microsecond)]:
    fields out of range are a [ValueError]. *)
Definition datetime_new (y mo d h mi s us : Z) : result datetime :=
  if between 1 y 9999 && between 1 mo 12 && between 1 d (_days_in_month y mo)
     && between 0 h 23 && between 0 mi 59 && between 0 s 59
     && between 0 us 999999
  then Ok (mkdatetime y mo d h mi s us)
  else Raise (ValueError "datetime field out of range").

(** A [datetime.timedelta], by its length in microseconds. *)
Definition timedelta : Type := Z.

Definition timedelta_minutes (minutes : Z) : timedelta := minutes * 60 * 1000000.

Definition _US_PER_DAY : Z := 86400 * 1000000.

(** [dt - delta]: through the ordinal of the day, as [datetime.__add__]
    does; a day outside [1 .. _MAXORDINAL] is an [OverflowError]. *)
Definition datetime_sub (dt : datetime) (delta : timedelta) : result datetime :=
  let secs := hour dt * 3600 + minute dt * 60 + second dt in
  let total :=
    (_ymd2ord (year dt) (month dt) (day dt) * 86400 + secs) * 1000000
    + microsecond dt - delta in
  let days := total / _US_PER_DAY in
  let rest := total mod _US_PER_DAY in
  let s := rest / 1000000 in
  if (0 <? days) && (days <=? _MAXORDINAL) then
    let '(y, m, d) := _ord2ymd days in
    Ok (mkdatetime y m d (s / 3600) ((s mod 3600) / 60) ((s mod 3600) mod 60)
          (rest mod 1000000))
  else Raise OverflowError.

(** ** The regular expressions *)

(** The groups of a match of [TIMESTAMP_RE]; group 7 (the fraction) is
    optional. *)
Record ts_match : Type := mk_ts_match {
  group1 : chars; group2 : chars; group3 : chars;
  group4 : chars; group5 : chars; group6 : chars;
  group7 : option chars;
  group8 : chars
}.

(** Exactly [n] digits. *)
Fixpoint take_digits (n : nat) (l : chars) : option (chars * chars) :=
  match n with
  | O => Some ([], l)
  | S k =>
      match l with
      | c :: t =>
          if is_digit c
          then '(ds, r) ← take_digits k t; Some (c :: ds, r)
          else None
      | [] => None
      end
  end.

Definition expect (p : ascii -> bool) (l : chars) : option (ascii * chars) :=
  match l with
  | c :: t => if p c then Some (c, t) else None
  | [] => None
  end.

Definition is_char (a : ascii) (c : ascii) : bool := Ascii.eqb c a.

Definition one_of (a b : ascii) (c : ascii) : bool :=
  Ascii.eqb c a || Ascii.eqb c b.

(** The maximal run of digits at the head, and what follows. *)
Fixpoint span_digits (l : chars) : chars * chars :=
  match l with
  | c :: t =>
      if is_digit c then let '(ds, r) := span_digits t in (c :: ds, r)
      else ([], l)
  | [] => ([], [])
  end.

(** [(?:\.([0-9]+))?]: a dot must be followed by at least one digit. *)
Definition ts_fraction (l : chars) : option (option chars * chars) :=
  match l with
  | c :: t =>
      if Ascii.eqb c "." then
        match span_digits t with
        | ([], _) => None
        | (ds, r) => Some (Some ds, r)
        end
      else Some (None, l)
  | [] => Some (None, l)
  end.

(** [([Zz]|(?:[+-][0-9]{2}:[0-9]{2}))]. *)
Definition ts_zone (l : chars) : option (chars * chars) :=
  match l with
  | c :: t =>
      if one_of "Z" "z" c then Some ([c], t)
      else if one_of "+" "-" c then
        '(hh, r) ← take_digits 2 t;
        '(_, r) ← expect (is_char ":") r;
        '(mm, r) ← take_digits 2 r;
        Some (c :: hh ++ ":"%char :: mm, r)
      else None
  | [] => None
  end.

(** [$] without [re.MULTILINE]: the end of the text, or just before a final
    line feed. *)
Definition at_end (l : chars) : bool :=
  match l with
  | [] => true
  | [c] => Ascii.eqb c "010"
  | _ => false
  end.

(** [TIMESTAMP_RE.match(s)]. *)
Definition TIMESTAMP_RE_match (l : chars) : option ts_match :=
  '(g1, r) ← take_digits 4 l;
  '(_, r) ← expect (is_char "-") r;
  '(g2, r) ← take_digits 2 r;
  '(_, r) ← expect (is_char "-") r;
  '(g3, r) ← take_digits 2 r;
  '(_, r) ← expect (one_of "T" "t") r;
  '(g4, r) ← take_digits 2 r;
  '(_, r) ← expect (is_char ":") r;
  '(g5, r) ← take_digits 2 r;
  '(_, r) ← expect (is_char ":") r;
  '(g6, r) ← take_digits 2 r;
  '(g7, r) ← ts_fraction r;
  '(g8, r) ← ts_zone r;
  if at_end r then Some (mk_ts_match g1 g2 g3 g4 g5 g6 g7 g8) else None.

(** The length of a match of [CVRE] (an opening bracket, one or more digits,
    a closing bracket) at the head of the text. *)
Definition CVRE_match (l : chars) : option nat :=
  match l with
  | c :: t =>
      if Ascii.eqb c "[" then
        match span_digits t with
        | ([], _) => None
        | (ds, r) =>
            match r with
            | d :: _ => if Ascii.eqb d "]" then Some (length ds + 2)%nat else None
            | [] => None
            end
        end
      else None
  | [] => None
  end.

(** [CVRE.sub('', s)]: scanning from the left, every match is dropped and
    the scan resumes after it; [skip] counts the characters of the current
    match that are still to be dropped. *)
Fixpoint CVRE_sub (skip : nat) (l : chars) : chars :=
  match l with
  | [] => []
  | c :: t =>
      match skip with
      | S k => CVRE_sub k t
      | O =>
          match CVRE_match l with
          | Some n => CVRE_sub (pred n) t
          | None => c :: CVRE_sub 0 t
          end
      end
  end.

(** [s.split(":")]. *)
Fixpoint split_colon (cur : chars) (l : chars) : list chars :=
  match l with
  | [] => [rev cur]
  | c :: t =>
      if Ascii.eqb c ":" then rev cur :: split_colon [] t
      else split_colon (c :: cur) t
  end.

(** [s[:6].ljust(6, "0")]. *)
Definition ljust6 (l : chars) : chars :=
  let l := take 6 l in l ++ repeat "0"%char (6 - length l)%nat.


(** ** Rule nodes and the store of their mutable fields *)

(** The [value] attribute of an [IntegerRule] is assigned to by the compiler,
    so it lives in a store of cells and the node holds the cell's address;
    two occurrences of one address are one shared object.  No other
    attribute of a node is ever assigned to in [filters.py], and those are
    held in the node itself. *)
Abbreviation cell := nat.

(** Modelled from the spec: the node classes of [pynspect.rules], which
    [filters.py] imports.  [IPListRule] is declared in [filters.py] as a
    subclass of [ListRule]; [IntegerRule] and [FloatRule] are the
    [NumberRule]s. *)
Inductive Rule : Type :=
  | VariableRule (value : Value)
  | ConstantRule (value : Value)
  | IPV4Rule (value : Value)
  | IPV6Rule (value : Value)
  | DatetimeRule (value : Value)
  | IntegerRule (value : cell)
  | FloatRule (value : Value)
  | ListRule (value : list Rule)
  | IPListRule (value : list Rule)
  | LogicalBinOpRule (operation : string) (left right : Rule)
  | ComparisonBinOpRule (operation : string) (left right : Rule)
  | MathBinOpRule (operation : string) (left right : Rule)
  | UnaryOperationRule (operation : string) (right : Rule).
Arguments IntegerRule value%_nat.

Abbreviation store := (list Value).

Definition read (st : store) (c : cell) : Value := default VNone (st !! c).

(** Computations that read and write the store and may raise; what was
    written before an exception stays written. *)
Definition M (A : Type) : Type := store -> result A * store.

Definition ret {A} (a : A) : M A := fun st => (Ok a, st).

Definition raise {A} (e : exn) : M A := fun st => (Raise e, st).

Definition lift {A} (r : result A) : M A := fun st => (r, st).

Definition bind {A B} (m : M A) (k : A -> M B) : M B :=
  fun st =>
    match m st with
    | (Ok a, st') => k a st'
    | (Raise e, st') => (Raise e, st')
    end.

Notation "'let*' x ':=' m 'in' k" := (bind m (fun x => k))
  (at level 10, x pattern, m at level 100, k at level 200).

Fixpoint mapM {A B} (f : A -> M B) (l : list A) : M (list B) :=
  match l with
  | [] => ret []
  | x :: t => let* y := f x in let* ys := mapM f t in ret (y :: ys)
  end.

(** [rule.value]; the operation nodes have no such attribute. *)
Definition get_value (rule : Rule) : M Value :=
  match rule with
  | VariableRule v | ConstantRule v | IPV4Rule v | IPV6Rule v
  | DatetimeRule v | FloatRule v => ret v
  | IntegerRule c => fun st => (Ok (read st c), st)
  | ListRule _ | IPListRule _ => ret VRuleList
  | _ => raise AttributeError
  end.

(** [rule.value = v] on an [IntegerRule]. *)
Definition set_value (c : cell) (v : Value) : M unit :=
  fun st => (Ok tt, <[c := v]> st).

(** [IntegerRule(v)]: a new object. *)
Definition new_IntegerRule (v : Value) : M Rule :=
  fun st => (Ok (IntegerRule (length st)), st ++ [v]).

Definition is_VariableRule (r : Rule) : bool :=
  match r with VariableRule _ => true | _ => false end.

Definition is_ListRule (r : Rule) : bool :=
  match r with ListRule _ | IPListRule _ => true | _ => false end.

Definition is_IntegerRule (r : Rule) : bool :=
  match r with IntegerRule _ => true | _ => false end.

Definition is_NumberRule (r : Rule) : bool :=
  match r with IntegerRule _ | FloatRule _ => true | _ => false end.

(** ** What [filters.py] takes from outside *)

(** The functions of other modules and of the platform that the filter code
    calls: [ipranges], the local time zone and C library behind
    [datetime.fromtimestamp] and [float], [str] of objects that are not
    strings, the operator evaluation of [pynspect.traversers] and
    [pynspect.jpath].  The evaluation functions take the keyword argument
    [obj] when the caller passes it on. *)
Record Externals : Type := {
  from_str_v4 : Value -> result Range;
  from_str_v6 : Value -> result Range;
  fromtimestamp : spec_float -> result datetime;
  strtod : chars -> spec_float;
  str_of_object : Value -> string;
  evaluate_binop_logical : string -> Value -> Value -> option Value -> result Value;
  evaluate_binop_comparison : string -> Value -> Value -> option Value -> result Value;
  evaluate_binop_math : string -> Value -> Value -> option Value -> result Value;
  evaluate_unop : string -> Value -> option Value -> result Value;
  jpath_values : Value -> Value -> result Value
}.

(** Modelled from the spec: the callback interface of
    [pynspect.traversers], one callback per kind of node, with the
    signatures the two traversers of [filters.py] give them: a leaf callback
    and [list] take the node, the callback of an operation node takes the
    node and the results of its children. *)
Record Traverser (R : Type) : Type := {
  on_ipv4 : Rule -> M R;
  on_ipv6 : Rule -> M R;
  on_datetime : Rule -> M R;
  on_integer : Rule -> M R;
  on_constant : Rule -> M R;
  on_variable : Rule -> M R;
  on_list : Rule -> M R;
  on_binary_operation_logical : Rule -> R -> R -> M R;
  on_binary_operation_comparison : Rule -> R -> R -> M R;
  on_binary_operation_math : Rule -> R -> R -> M R;
  on_unary_operation : Rule -> R -> M R
}.
Arguments on_ipv4 {R} _ _ _.
Arguments on_ipv6 {R} _ _ _.
Arguments on_datetime {R} _ _ _.
Arguments on_integer {R} _ _ _.
Arguments on_constant {R} _ _ _.
Arguments on_variable {R} _ _ _.
Arguments on_list {R} _ _ _.
Arguments on_binary_operation_logical {R} _ _ _ _ _.
Arguments on_binary_operation_comparison {R} _ _ _ _ _.
Arguments on_binary_operation_math {R} _ _ _ _ _.
Arguments on_unary_operation {R} _ _ _ _.

Section Traversal.
Context {R : Type} (T : Traverser R) (walk_items : bool).

(** Modelled from the spec: the [traverse] methods of the node classes of
    [pynspect.rules].  A leaf calls the callback of its kind with the node;
    an operation node traverses its children left to right and calls its
    callback with the node and their results.  A list node calls [list] with
    the node alone, as the signature of [list] demands; [walk_items] says
    whether its items are traversed in order before that: the spec has list
    children traversed, and the callbacks cannot receive the results.
    [filters.py] has no callback for a float literal: the spec has such a
    leaf kept by the compiler and evaluated to its value, which is what
    [constant] does, so a [FloatRule] goes there. *)
Fixpoint traverse (rule : Rule) : M R :=
  let walk :=
    fix walk (items : list Rule) : M unit :=
      match items with
      | [] => ret tt
      | item :: rest => let* _ := traverse item in walk rest
      end in
  match rule with
  | VariableRule _ => on_variable T rule
  | ConstantRule _ => on_constant T rule
  | IPV4Rule _ => on_ipv4 T rule
  | IPV6Rule _ => on_ipv6 T rule
  | DatetimeRule _ => on_datetime T rule
  | IntegerRule _ => on_integer T rule
  | FloatRule _ => on_constant T rule
  | ListRule items | IPListRule items =>
      let* _ := (if walk_items then walk items else ret tt) in
      on_list T rule
  | LogicalBinOpRule _ l r =>
      let* lrt := traverse l in
      let* rrt := traverse r in
      on_binary_operation_logical T rule lrt rrt
  | ComparisonBinOpRule _ l r =>
      let* lrt := traverse l in
      let* rrt := traverse r in
      on_binary_operation_comparison T rule lrt rrt
  | MathBinOpRule _ l r =>
      let* lrt := traverse l in
      let* rrt := traverse r in
      on_binary_operation_math T rule lrt rrt
  | UnaryOperationRule _ r =>
      let* rrt := traverse r in
      on_unary_operation T rule rrt
  end.

(** The traversal of the items of a list node, in order, for their
    effects. *)
Fixpoint walk (items : list Rule) : M unit :=
  match items with
  | [] => ret tt
  | item :: rest => let* _ := traverse item in walk rest
  end.
End Traversal.

(** [rule.operation] of an operation node. *)
Definition get_operation (rule : Rule) : M string :=
  match rule with
  | LogicalBinOpRule op _ _ | ComparisonBinOpRule op _ _
  | MathBinOpRule op _ _ | UnaryOperationRule op _ => ret op
  | _ => raise AttributeError
  end.

Notation "'let?' x ':=' m 'in' k" := (rbind m (fun x => k))
  (at level 10, x pattern, m at level 100, k at level 200).

(** [int(s)] on the text of a string. *)
Definition int_of_text (l : chars) : result Z :=
  match int_of_chars l with
  | Some z => Ok z
  | None => Raise (ValueError "invalid literal for int() with base 10")
  end.

(** [int(n or 0)] on a group of a match. *)
Definition int_or_0 (g : chars) : result Z :=
  match g with
  | [] => Ok 0
  | _ => int_of_text g
  end.

(** ** The coercion helpers *)

Section Helpers.
Context (E : Externals).

(** [float(x)]. *)
Definition py_float (v : Value) : result spec_float :=
  match v with
  | VFloat f => Ok f
  | VInt z => float_of_Z z
  | VBool b => float_of_Z (if b then 1 else 0)
  | VStr s =>
      let l := list_ascii_of_string s in
      if float_literal l then Ok (strtod E l)
      else Raise (ValueError "could not convert string to float")
  | _ => Raise TypeError
  end.

(** [str(x)]. *)
Definition py_str (v : Value) : string :=
  match v with
  | VStr s => s
  | _ => str_of_object E v
  end.

Definition compile_ip_v4 (rule : Rule) : M Rule :=
  let* v := get_value rule in
  match v with
  | VRange _ => ret rule
  | _ => let* r := lift (from_str_v4 E v) in ret (IPV4Rule (VRange r))
  end.

Definition compile_ip_v6 (rule : Rule) : M Rule :=
  let* v := get_value rule in
  match v with
  | VRange _ => ret rule
  | _ => let* r := lift (from_str_v6 E v) in ret (IPV6Rule (VRange r))
  end.

(** The [zonespl] of a zone suffix: [(0, 0)] for [Z], else the integers
    of the parts around the colon. *)
Definition zone_split (zonestr : chars) : result (list Z) :=
  if chars_eqb zonestr ["z"%char] || chars_eqb zonestr ["Z"%char]
  then Ok [0; 0]
  else rmapM int_of_text (split_colon [] zonestr).

(** The body of the [if res is not None] branch of [compile_datetime]. *)
Definition datetime_of_match (res : ts_match) : result datetime :=
  let? y := int_or_0 (group1 res) in
  let? mo := int_or_0 (group2 res) in
  let? d := int_or_0 (group3 res) in
  let? h := int_or_0 (group4 res) in
  let? mi := int_or_0 (group5 res) in
  let? s := int_or_0 (group6 res) in
  let us_str :=
    ljust6 (match group7 res with
            | Some (c :: g) => c :: g
            | _ => ["0"%char]
            end) in
  let? us := int_of_text us_str in
  let? zonespl := zone_split (group8 res) in
  match zonespl with
  | z0 :: z1 :: _ =>
      let zonediff := timedelta_minutes (z0 * 60 + z1) in
      let? naive := datetime_new y mo d h mi s us in
      datetime_sub naive zonediff
  | _ => Raise IndexError
  end.

Definition compile_datetime (rule : Rule) : M Rule :=
  let* v := get_value rule in
  match v with
  | VDatetime _ => ret rule
  | _ =>
      let rfc3339 : M Rule :=
        match TIMESTAMP_RE_match (list_ascii_of_string (py_str v)) with
        | Some res =>
            let* d := lift (datetime_of_match res) in
            ret (DatetimeRule (VDatetime d))
        | None => raise (ValueError "Wrong Timestamp")
        end in
      match (let? f := py_float v in fromtimestamp E f) with
      | Ok d => ret (DatetimeRule (VDatetime d))
      | Raise TypeError | Raise (ValueError _) => rfc3339
      | Raise e => raise e
      end
  end.

Definition clean_variable (var : Value) : result string :=
  match var with
  | VStr s =>
      Ok (string_of_list_ascii (CVRE_sub 0 (list_ascii_of_string s)))
  | _ => Raise TypeError
  end.

(** An entry of the coercion table: the coercion of one literal and the
    constructor of the list of coerced literals. *)
Record compilation : Type := {
  comp_i : Rule -> M Rule;
  comp_l : list Rule -> Rule
}.

Definition COMPILATIONS_IDEA_OBJECT : list (string * compilation) :=
  [ ("CreateTime",   {| comp_i := compile_datetime; comp_l := ListRule |});
    ("DetectTime",   {| comp_i := compile_datetime; comp_l := ListRule |});
    ("EventTime",    {| comp_i := compile_datetime; comp_l := ListRule |});
    ("CeaseTime",    {| comp_i := compile_datetime; comp_l := ListRule |});
    ("WinStartTime", {| comp_i := compile_datetime; comp_l := ListRule |});
    ("WinEndTime",   {| comp_i := compile_datetime; comp_l := ListRule |});
    ("Source.IP4",   {| comp_i := compile_ip_v4;    comp_l := IPListRule |});
    ("Target.IP4",   {| comp_i := compile_ip_v4;    comp_l := IPListRule |});
    ("Source.IP6",   {| comp_i := compile_ip_v6;    comp_l := IPListRule |});
    ("Target.IP6",   {| comp_i := compile_ip_v6;    comp_l := IPListRule |}) ].
End Helpers.

(** [d[key]] guarded by [key in d.keys()]. *)
Fixpoint dict_get {A} (d : list (string * A)) (key : string) : option A :=
  match d with
  | [] => None
  | (k, a) :: rest => if String.eqb key k then Some a else dict_get rest key
  end.

(** The items of a list node. *)
Definition get_items (rule : Rule) : list Rule :=
  match rule with
  | ListRule items | IPListRule items => items
  | _ => []
  end.

(** [rule.values()].  [IPListRule.values] is in [filters.py]; for a plain
    [ListRule] this is modelled from the spec: the ordered sequence of the
    items' values. *)
Definition values (rule : Rule) : M Value :=
  match rule with
  | ListRule items => let* vs := mapM get_value items in ret (VList vs)
  | IPListRule items => let* vs := mapM get_value items in ret (VListIP vs)
  | _ => raise AttributeError
  end.

(** ** The record evaluator *)

Module DataObjectFilter.
Section WithExternals.
Context (E : Externals) (walk_items : bool) (obj : Value).

Definition ipv4 (rule : Rule) : M Value := get_value rule.
Definition ipv6 (rule : Rule) : M Value := get_value rule.
Definition datetime (rule : Rule) : M Value := get_value rule.
Definition integer (rule : Rule) : M Value := get_value rule.
Definition constant (rule : Rule) : M Value := get_value rule.

Definition variable (rule : Rule) : M Value :=
  let* path := get_value rule in lift (jpath_values E obj path).

Definition list (rule : Rule) : M Value := values rule.

Definition binary_operation_logical (rule : Rule) (left right : Value)
  : M Value :=
  let* op := get_operation rule in
  lift (evaluate_binop_logical E op left right (Some obj)).

Definition binary_operation_comparison (rule : Rule) (left right : Value)
  : M Value :=
  let* op := get_operation rule in
  lift (evaluate_binop_comparison E op left right (Some obj)).

Definition binary_operation_math (rule : Rule) (left right : Value)
  : M Value :=
  let* op := get_operation rule in
  lift (evaluate_binop_math E op left right (Some obj)).

Definition unary_operation (rule : Rule) (right : Value) : M Value :=
  let* op := get_operation rule in
  lift (evaluate_unop E op right (Some obj)).

Definition callbacks : Traverser Value := {|
  on_ipv4 := ipv4; on_ipv6 := ipv6; on_datetime := datetime;
  on_integer := integer; on_constant := constant; on_variable := variable;
  on_list := list;
  on_binary_operation_logical := binary_operation_logical;
  on_binary_operation_comparison := binary_operation_comparison;
  on_binary_operation_math := binary_operation_math;
  on_unary_operation := unary_operation
|}.
End WithExternals.

(** [flt.filter(rule, data)]. *)
Definition filter (E : Externals) (walk_items : bool) (rule : Rule)
    (data : Value) : M Value :=
  traverse (callbacks E data) walk_items rule.
End DataObjectFilter.

(** ** The compiler *)

Module IDEAFilterCompiler.
Section WithExternals.
Context (E : Externals).

Definition ipv4 (rule : Rule) : M Rule := compile_ip_v4 E rule.

Definition ipv6 (rule : Rule) : M Rule := compile_ip_v4 E rule.

Definition datetime (rule : Rule) : M Rule := compile_datetime E rule.

Definition integer (rule : Rule) : M Rule :=
  let* v := get_value rule in
  let* z := lift (py_int v) in
  match rule with
  | IntegerRule c => let* _ := set_value c (VInt z) in ret rule
  | _ => raise AttributeError
  end.

Definition constant (rule : Rule) : M Rule := ret rule.

Definition variable (rule : Rule) : M Rule := ret rule.

Definition list (rule : Rule) : M Rule := ret rule.

Definition binary_operation_logical (rule left right : Rule) : M Rule :=
  let* op := get_operation rule in
  ret (LogicalBinOpRule op left right).

(** The [(var, val)] pair chosen by the two type tests.  Node objects are
    true in a condition, so [if var and val] holds exactly when the pair was
    assigned. *)
Definition var_and_val (left right : Rule) : option (Rule * Rule) :=
  if is_VariableRule left && negb (is_VariableRule right)
  then Some (left, right)
  else if is_VariableRule right && negb (is_VariableRule left)
  then Some (right, left)
  else None.

Definition binary_operation_comparison (rule left right : Rule) : M Rule :=
  let* right :=
    match var_and_val left right with
    | Some (var, val) =>
        let* name := get_value var in
        let* path := lift (clean_variable name) in
        match dict_get (COMPILATIONS_IDEA_OBJECT E) path with
        | Some compilation =>
            if is_ListRule val then
              let* result := mapM (comp_i compilation) (get_items val) in
              ret (comp_l compilation result)
            else comp_i compilation val
        | None => ret right
        end
    | None => ret right
    end in
  let* op := get_operation rule in
  ret (ComparisonBinOpRule op left right).

Definition binary_operation_math (rule left right : Rule) : M Rule :=
  if is_IntegerRule left && is_IntegerRule right then
    let* op := get_operation rule in
    let* lv := get_value left in
    let* rv := get_value right in
    let* result := lift (evaluate_binop_math E op lv rv None) in
    match result with
    | VList rs => let* items := mapM new_IntegerRule rs in ret (ListRule items)
    | _ => new_IntegerRule result
    end
  else if is_NumberRule left && is_NumberRule right then
    let* op := get_operation rule in
    let* lv := get_value left in
    let* rv := get_value right in
    let* result := lift (evaluate_binop_math E op lv rv None) in
    match result with
    | VList rs => ret (ListRule (map (fun r => FloatRule r) rs))
    | _ => ret (FloatRule result)
    end
  else
    let* op := get_operation rule in
    ret (MathBinOpRule op left right).

Definition unary_operation (rule right : Rule) : M Rule :=
  let* op := get_operation rule in
  ret (UnaryOperationRule op right).

Definition callbacks : Traverser Rule := {|
  on_ipv4 := ipv4; on_ipv6 := ipv6; on_datetime := datetime;
  on_integer := integer; on_constant := constant; on_variable := variable;
  on_list := list;
  on_binary_operation_logical := binary_operation_logical;
  on_binary_operation_comparison := binary_operation_comparison;
  on_binary_operation_math := binary_operation_math;
  on_unary_operation := unary_operation
|}.
End WithExternals.

(** [cpl.compile(rule)]. *)
Definition compile (E : Externals) (walk_items : bool) (rule : Rule) : M Rule :=
  traverse (callbacks E) walk_items rule.
End IDEAFilterCompiler.

Abbreviation compile := IDEAFilterCompiler.compile.

(** ** A host to run the code on

    One instance of [Externals], for the examples: a UTC host, an [ipranges]
    that reads dotted quads with an optional prefix length and IPv6
    addresses written in full, Python's operators on numbers for the
    arithmetic, and a path resolver for top-level keys. *)
Module Sample.

Fixpoint split_at (sep : ascii) (cur : chars) (l : chars) : list chars :=
  match l with
  | [] => [rev cur]
  | c :: t =>
      if Ascii.eqb c sep then rev cur :: split_at sep [] t
      else split_at sep (c :: cur) t
  end.

Definition hex_value (c : ascii) : option Z :=
  if is_digit c then Some (digit_value c)
  else if between 97 (code (lower c)) 102 then Some (code (lower c) - 87)
  else None.

(** The number written by [l] in [base], at most [width] digits. *)
Definition number (base : Z) (width : nat) (l : chars) : option Z :=
  if bool_decide (l = []) || (width <? length l)%nat then None
  else
    foldl (fun acc c =>
             a ← acc; d ← hex_value c;
             if d <? base then Some (a * base + d) else None)
          (Some 0) l.

Definition address (base : Z) (width : nat) (limit : Z) (parts : nat)
    (sep : ascii) (l : chars) : option Z :=
  let fields := split_at sep [] l in
  if bool_decide (length fields = parts) then
    foldl (fun acc f =>
             a ← acc; n ← number base width f;
             if n <? limit then Some (a * limit + n) else None)
          (Some 0) fields
  else None.

Definition network (bits : Z) (addr len : Z) : Range :=
  let size := 2 ^ (bits - len) in
  let low := addr / size * size in
  IPRange (if bits =? 32 then 4 else 6) low (low + size - 1).

Definition from_str (bits : Z) (v : Value) : result Range :=
  let parse :=
    if bits =? 32 then address 10 3 256 4 "."
    else address 16 4 65536 8 ":" in
  match v with
  | VStr s =>
      let bad := Raise (ValueError "does not appear as an address") in
      match split_at "/" [] (list_ascii_of_string s) with
      | [a] =>
          match parse a with
          | Some n => Ok (network bits n bits)
          | None => bad
          end
      | [a; p] =>
          match parse a, number 10 3 p with
          | Some n, Some len =>
              if len <=? bits then Ok (network bits n len) else bad
          | _, _ => bad
          end
      | _ => bad
      end
  | _ => Raise TypeError
  end.

(** The binary64 float nearest to [p / q], for [0 <= p] and [0 < q]:
    enough quotient bits and a sticky bit, rounded once. *)
Definition float_of_ratio (negative : bool) (p q : Z) : spec_float :=
  if p =? 0 then S754_zero negative
  else
    let k := Z.max 0 (57 + Z.log2 q - Z.log2 p) in
    let n := p * 2 ^ k / q in
    let sticky := if (p * 2 ^ k) mod q =? 0 then 0 else 1 in
    let f := binary_normalize 53 1024 (2 * n + sticky) (- (k + 1)) false in
    if negative then SFopp f else f.

(** The digits of a literal and how many of them follow the point. *)
Fixpoint mantissa (acc : Z) (frac : Z) (seen_point : bool) (l : chars)
  : Z * Z * chars :=
  match l with
  | c :: t =>
      if is_digit c then
        mantissa (acc * 10 + digit_value c)
                 (if seen_point then frac + 1 else frac) seen_point t
      else if Ascii.eqb c "_" then mantissa acc frac seen_point t
      else if Ascii.eqb c "." && negb seen_point then mantissa acc frac true t
      else (acc, frac, l)
  | [] => (acc, frac, [])
  end.

(** The value of a literal that [float_literal] accepts. *)
Definition decimal_strtod (l : chars) : spec_float :=
  let l := strip l in
  let negative :=
    match l with c :: _ => Ascii.eqb c "-" | [] => false end in
  let body := map lower (drop_sign l) in
  if chars_eqb body (list_ascii_of_string "nan") then S754_nan
  else if chars_eqb (take 3 body) (list_ascii_of_string "inf")
  then S754_infinity negative
  else
    let '(m, frac, rest) := mantissa 0 0 false body in
    let e := default 0 (int_of_chars (drop 1 rest)) - frac in
    if 0 <=? e then float_of_ratio negative (m * 10 ^ e) 1
    else float_of_ratio negative m (10 ^ (- e)).

(** Microseconds of a float of seconds, halves to even. *)
Definition microseconds (f : spec_float) : result Z :=
  match f with
  | S754_zero _ => Ok 0
  | S754_finite s m e =>
      let p := Z.pos m * 1000000 in
      let n :=
        if 0 <=? e then p * 2 ^ e
        else
          let q := 2 ^ (- e) in
          let d := p / q in
          let r := 2 * (p mod q) in
          if (q <? r) || ((r =? q) && Z.odd d) then d + 1 else d in
      Ok (if s then - n else n)
  | S754_infinity _ => Raise OverflowError
  | S754_nan => Raise (ValueError "cannot convert float NaN to integer")
  end.

Definition utc_fromtimestamp (f : spec_float) : result datetime :=
  let? us := microseconds f in
  match datetime_sub (mkdatetime 1970 1 1 0 0 0 0) (- us) with
  | Ok d => Ok d
  | Raise _ => Raise (ValueError "year is out of range")
  end.

Definition number_of (v : Value) : result spec_float :=
  match v with
  | VFloat f => Ok f
  | VInt z => float_of_Z z
  | _ => Raise TypeError
  end.

Definition true_division (a b : Z) : result Value :=
  if b =? 0 then Raise (OtherError "ZeroDivisionError")
  else
    match float_of_ratio (negb (Z.sgn a * Z.sgn b =? 1)) (Z.abs a) (Z.abs b) with
    | S754_infinity _ => Raise OverflowError
    | f => Ok (VFloat f)
    end.

Definition arithmetic (op : string) (a b : Value) (obj : option Value)
  : result Value :=
  match a, b with
  | VInt x, VInt y =>
      if String.eqb op "OP_PLUS" then Ok (VInt (x + y))
      else if String.eqb op "OP_MINUS" then Ok (VInt (x - y))
      else if String.eqb op "OP_TIMES" then Ok (VInt (x * y))
      else if String.eqb op "OP_DIVIDE" then true_division x y
      else if String.eqb op "OP_MODULO" then
        if y =? 0 then Raise (OtherError "ZeroDivisionError")
        else Ok (VInt (x mod y))
      else Raise (OtherError "Invalid math binary operation")
  | _, _ =>
      let? x := number_of a in
      let? y := number_of b in
      if String.eqb op "OP_PLUS" then Ok (VFloat (SFadd 53 1024 x y))
      else if String.eqb op "OP_MINUS" then Ok (VFloat (SFsub 53 1024 x y))
      else if String.eqb op "OP_TIMES" then Ok (VFloat (SFmul 53 1024 x y))
      else Raise (OtherError "Invalid math binary operation")
  end.

Definition compare (op : string) (x y : Z) : result bool :=
  if String.eqb op "OP_EQ" then Ok (x =? y)
  else if String.eqb op "OP_NE" then Ok (negb (x =? y))
  else if String.eqb op "OP_LT" then Ok (x <? y)
  else if String.eqb op "OP_LE" then Ok (x <=? y)
  else if String.eqb op "OP_GT" then Ok (y <? x)
  else if String.eqb op "OP_GE" then Ok (y <=? x)
  else Raise (OtherError "Invalid comparison binary operation").

(** A sequence on the left matches when one of its integers does. *)
Definition comparison (op : string) (a b : Value) (obj : option Value)
  : result Value :=
  match a, b with
  | VInt x, VInt y => rmap VBool (compare op x y)
  | VList xs, VInt y =>
      rmap (fun bs => VBool (existsb id bs))
           (rmapM (fun v => match v with
                            | VInt x => compare op x y
                            | _ => Raise TypeError
                            end) xs)
  | _, _ => Raise TypeError
  end.

Definition logical (op : string) (a b : Value) (obj : option Value)
  : result Value :=
  match a, b with
  | VBool x, VBool y =>
      if String.eqb op "OP_AND" then Ok (VBool (x && y))
      else if String.eqb op "OP_OR" then Ok (VBool (x || y))
      else if String.eqb op "OP_XOR" then Ok (VBool (xorb x y))
      else Raise (OtherError "Invalid logical binary operation")
  | _, _ => Raise TypeError
  end.

Definition unary (op : string) (a : Value) (obj : option Value)
  : result Value :=
  match a with
  | VBool x =>
      if String.eqb op "OP_NOT" then Ok (VBool (negb x))
      else Raise (OtherError "Invalid unary operation")
  | _ => Raise TypeError
  end.

Definition resolve (obj path : Value) : result Value :=
  match obj, path with
  | VDict d, VStr key =>
      match dict_get d key with
      | Some v => Ok (VList [v])
      | None => Ok (VList [])
      end
  | _, _ => Ok (VList [])
  end.

Definition externals : Externals := {|
  from_str_v4 := from_str 32;
  from_str_v6 := from_str 128;
  fromtimestamp := utc_fromtimestamp;
  strtod := decimal_strtod;
  str_of_object := fun _ => "<object>";
  evaluate_binop_logical := logical;
  evaluate_binop_comparison := comparison;
  evaluate_binop_math := arithmetic;
  evaluate_unop := unary;
  jpath_values := resolve
|}.


End Sample.

(** ** Paths with index segments *)







(** The range held by a coerced IP literal. *)
Definition coerced_ip (rule : Rule) : option Range :=
  match rule with
  | IPV4Rule (VRange r) | IPV6Rule (VRange r) => Some r
  | _ => None
  end.


(** ** What a rule tree looks like in a store *)

(** A rule tree with the value of every integer literal read from the
    store: what an observer of the tree sees. *)
Inductive Tree : Type :=
  | TVariable (value : Value)
  | TConstant (value : Value)
  | TIPV4 (value : Value)
  | TIPV6 (value : Value)
  | TDatetime (value : Value)
  | TInteger (value : Value)
  | TFloat (value : Value)
  | TList (items : list Tree)
  | TIPList (items : list Tree)
  | TLogical (operation : string) (left right : Tree)
  | TComparison (operation : string) (left right : Tree)
  | TMath (operation : string) (left right : Tree)
  | TUnary (operation : string) (right : Tree).

Fixpoint contents (st : store) (rule : Rule) : Tree :=
  match rule with
  | VariableRule v => TVariable v
  | ConstantRule v => TConstant v
  | IPV4Rule v => TIPV4 v
  | IPV6Rule v => TIPV6 v
  | DatetimeRule v => TDatetime v
  | IntegerRule c => TInteger (read st c)
  | FloatRule v => TFloat v
  | ListRule items => TList (map (contents st) items)
  | IPListRule items => TIPList (map (contents st) items)
  | LogicalBinOpRule op l r => TLogical op (contents st l) (contents st r)
  | ComparisonBinOpRule op l r => TComparison op (contents st l) (contents st r)
  | MathBinOpRule op l r => TMath op (contents st l) (contents st r)
  | UnaryOperationRule op r => TUnary op (contents st r)
  end.

(** The cells of the integer literals of a tree. *)
Fixpoint cells_of (rule : Rule) : list cell :=
  match rule with
  | IntegerRule c => [c]
  | ListRule items | IPListRule items => concat (map cells_of items)
  | LogicalBinOpRule _ l r | ComparisonBinOpRule _ l r | MathBinOpRule _ l r =>
      cells_of l ++ cells_of r
  | UnaryOperationRule _ r => cells_of r
  | _ => []
  end.

(** [st'] is [st] with some cells among [P] overwritten by [int] of what
    they held; cells may have been added at the end. *)
Definition changes (P : cell -> Prop) (st st' : store) : Prop :=
  forall c v,
    st !! c = Some v ->
    st' !! c = Some v
    \/ (P c /\ exists z, py_int v = Ok z /\ st' !! c = Some (VInt z)).


(** ** Compiled trees *)

(** A later store: cells may have been overwritten by [int] of their
    value, and cells may have been added. *)
Definition grows (st st' : store) : Prop := changes (fun _ => True) st st'.

(** Every integer literal of the tree holds an [int]. *)
Definition settled (st : store) (rule : Rule) : Prop :=
  Forall (fun c => exists z, st !! c = Some (VInt z)) (cells_of rule).



(** The literals that the coercion helpers construct. *)
Inductive typed_leaf : Rule -> Value -> Prop :=
  | typed_ipv4 r : typed_leaf (IPV4Rule (VRange r)) (VRange r)
  | typed_ipv6 r : typed_leaf (IPV6Rule (VRange r)) (VRange r)
  | typed_datetime d : typed_leaf (DatetimeRule (VDatetime d)) (VDatetime d).

(** A coercion helper seen from the value of the node: [None] when the node
    is returned as it is, else the outcome of building a new literal. *)
Definition coerce_with (g : Value -> option (result Rule)) (rule : Rule)
  : M Rule :=
  let* v := get_value rule in
  match g v with
  | None => ret rule
  | Some res => lift res
  end.

Definition ip_v4_of (E : Externals) (v : Value) : option (result Rule) :=
  match v with
  | VRange _ => None
  | _ => Some (rmap (fun r => IPV4Rule (VRange r)) (from_str_v4 E v))
  end.

Definition ip_v6_of (E : Externals) (v : Value) : option (result Rule) :=
  match v with
  | VRange _ => None
  | _ => Some (rmap (fun r => IPV6Rule (VRange r)) (from_str_v6 E v))
  end.

Definition datetime_of (E : Externals) (v : Value) : option (result Rule) :=
  match v with
  | VDatetime _ => None
  | _ =>
      let rfc3339 :=
        match TIMESTAMP_RE_match (list_ascii_of_string (py_str E v)) with
        | Some res =>
            rmap (fun d => DatetimeRule (VDatetime d)) (datetime_of_match res)
        | None => Raise (ValueError "Wrong Timestamp")
        end in
      Some match (let? f := py_float E v in fromtimestamp E f) with
           | Ok d => Ok (DatetimeRule (VDatetime d))
           | Raise TypeError | Raise (ValueError _) => rfc3339
           | Raise e => Raise e
           end
  end.

(** What the list constructors and the coercions of the table share. *)
Definition good_coercion (g : Value -> option (result Rule)) : Prop :=
  (forall v, g v = None -> v <> VNone /\ forall z, py_int v <> Ok z)
  /\ (forall v x, g v = Some (Ok x) -> exists v', typed_leaf x v' /\ g v' = None).

(** What [binary_operation_comparison] decides before it coerces: the value
    side and the entry of the table, if the node has exactly one variable
    whose canonical path is a key. *)
Definition chosen (E : Externals) (lt rt : Rule)
  : result (option (Rule * compilation)) :=
  match IDEAFilterCompiler.var_and_val lt rt with
  | Some (VariableRule name, val) =>
      let? path := clean_variable name in
      Ok ((fun c => (val, c)) <$> dict_get (COMPILATIONS_IDEA_OBJECT E) path)
  | _ => Ok None
  end.




(** ** Computations that only read *)

(** A computation that leaves the store as it found it, whatever its
    outcome. *)
Definition read_only {A} (m : M A) : Prop := forall st, (m st).2 = st.

(** ** Compiling, then evaluating *)

(** The use the module documents for its two traversers: compile the rule,
    then evaluate the compiled rule on the record. *)
Definition compile_then_filter (E : Externals) (walk_items : bool)
    (rule : Rule) (data : Value) : M Value :=
  let* compiled := compile E walk_items rule in
  DataObjectFilter.filter E walk_items compiled data.

(** A parsed address range or a [datetime]. *)
Definition typed_value (v : Value) : Prop :=
  (exists r, v = VRange r) \/ (exists d, v = VDatetime d).

(** ** The format of a timestamp *)

(** The number that a run of decimal digits writes. *)
Definition digits_value (ds : chars) : Z :=
  fold_left (fun acc c => acc * 10 + digit_value c) ds 0.

(** Exactly [n] decimal digits. *)
Definition digits (n : nat) (g : chars) : Prop :=
  length g = n /\ forallb is_digit g = true.

(** A zone suffix: the letter, or a sign, two digits, a colon and two
    digits. *)
Definition zone_shape (g : chars) : Prop :=
  g = ["Z"%char] \/ g = ["z"%char]
  \/ exists sign h1 h2 m1 m2,
       g = [sign; h1; h2; ":"%char; m1; m2]
       /\ (sign = "+"%char \/ sign = "-"%char)
       /\ is_digit h1 = true /\ is_digit h2 = true
       /\ is_digit m1 = true /\ is_digit m2 = true.

(** The groups that a match of [TIMESTAMP_RE] can have. *)
Definition timestamp_groups (m : ts_match) : Prop :=
  digits 4 (group1 m) /\ digits 2 (group2 m) /\ digits 2 (group3 m)
  /\ digits 2 (group4 m) /\ digits 2 (group5 m) /\ digits 2 (group6 m)
  /\ match group7 m with
     | Some f => f <> [] /\ forallb is_digit f = true
     | None => True
     end
  /\ zone_shape (group8 m).

(** The text with these groups: [sep] is the letter between date and time,
    [tail] what follows the zone. *)
Definition timestamp_text (m : ts_match) (sep : ascii) (tail : chars) : chars :=
  group1 m ++ "-"%char :: group2 m ++ "-"%char :: group3 m ++ sep
  :: group4 m ++ ":"%char :: group5 m ++ ":"%char :: group6 m
  ++ match group7 m with Some f => "."%char :: f | None => [] end
  ++ group8 m ++ tail.

(** The minutes that [compile_datetime] takes a zone suffix for: the signed
    hours times sixty, plus the minutes. *)
Definition zone_minutes (zone : chars) : Z :=
  match zone with
  | [sign; h1; h2; _; m1; m2] =>
      (if Ascii.eqb sign "-" then -1 else 1)
      * (digit_value h1 * 10 + digit_value h2) * 60
      + (digit_value m1 * 10 + digit_value m2)
  | _ => 0
  end.

(** The six digits that the fraction of a match is read from. *)
Definition fraction_digits (fraction : option chars) : chars :=
  ljust6 (match fraction with Some (c :: g) => c :: g | _ => ["0"%char] end).

(** The naive [datetime] that [compile_datetime] builds from the groups of
    a match, before it subtracts the zone. *)
Definition matched_fields (m : ts_match) : result datetime :=
  datetime_new (digits_value (group1 m)) (digits_value (group2 m))
    (digits_value (group3 m)) (digits_value (group4 m))
    (digits_value (group5 m)) (digits_value (group6 m))
    (digits_value (fraction_digits (group7 m))).

(** The groups of a match with another fraction. *)
Definition with_fraction (m : ts_match) (fraction : option chars) : ts_match :=
  mk_ts_match (group1 m) (group2 m) (group3 m) (group4 m) (group5 m)
    (group6 m) fraction (group8 m).

(** ** The calendar of [datetime] *)

Definition month_day (leapyear : bool) (n : Z) : Z * Z :=
  let m := Z.shiftr (n + 50) 5 in
  let preceding :=
    table_at _DAYS_BEFORE_MONTH m + (if (2 <? m) && leapyear then 1 else 0) in
  if n <? preceding then
    let m := m - 1 in
    let preceding :=
      preceding
      - (table_at _DAYS_IN_MONTH m + (if (m =? 2) && leapyear then 1 else 0)) in
    (m, n - preceding + 1)
  else (m, n - preceding + 1).

(** [p] holds on [from, from + 1, ..., from + count - 1]. *)
Fixpoint all_from (p : Z -> bool) (from : Z) (count : nat) : bool :=
  match count with
  | O => true
  | S k => p from && all_from p (from + 1) k
  end.

Definition days_before_month_in (leap : bool) (m : Z) : Z :=
  table_at _DAYS_BEFORE_MONTH m + (if (2 <? m) && leap then 1 else 0).

Definition days_in_month_in (leap : bool) (m : Z) : Z :=
  if (m =? 2) && leap then 29 else table_at _DAYS_IN_MONTH m.

Definition month_day_sound (leap : bool) (n : Z) : bool :=
  let '(m, d) := month_day leap n in
  (1 <=? m) && (m <=? 12) && (1 <=? d) && (d <=? days_in_month_in leap m)
  && (days_before_month_in leap m + d =? n + 1).

Definition month_day_complete (leap : bool) (m d : Z) : bool :=
  let n := days_before_month_in leap m + d - 1 in
  (days_in_month_in leap m <? d)
  || ((0 <=? n)
      && (if 364 <? n then leap && (m =? 12) && (d =? 31) && (n =? 365)
          else let '(m', d') := month_day leap n in (m' =? m) && (d' =? d))).

(** ** Timestamps on the time line *)

(** The microseconds from the start of the day before 0001-01-01 to a
    [datetime]: where it stands on the time line. *)
Definition instant (dt : datetime) : Z :=
  (_ymd2ord (year dt) (month dt) (day dt) * 86400
   + (hour dt * 3600 + minute dt * 60 + second dt)) * 1000000
  + microsecond dt.

(** The decimal digit of a number below ten. *)
Definition digit_char (z : Z) : ascii := ascii_of_N (Z.to_N (48 + z)).

(** A number written with [n] decimal digits, zeros in front. *)
Fixpoint pad (n : nat) (z : Z) : chars :=
  match n with
  | O => []
  | S k => pad k (z / 10) ++ [digit_char (z mod 10)]
  end.

(** A [datetime] written as a timestamp with microseconds in the zone
    [zone]. *)
Definition written (dt : datetime) (zone : chars) : ts_match :=
  mk_ts_match (pad 4 (year dt)) (pad 2 (month dt)) (pad 2 (day dt))
    (pad 2 (hour dt)) (pad 2 (minute dt)) (pad 2 (second dt))
    (Some (pad 6 (microsecond dt))) zone.

(** ** Rules with nothing to coerce *)

(** A comparison that the compiler does not coerce: both or none of its
    operands is a variable, or the variable has a canonical path that is no
    key of the coercion table. *)
Definition off_the_table (E : Externals) (l r : Rule) : Prop :=
  is_VariableRule l = is_VariableRule r
  \/ exists s path,
       (l = VariableRule (VStr s) \/ r = VariableRule (VStr s))
       /\ clean_variable (VStr s) = Ok path
       /\ dict_get (COMPILATIONS_IDEA_OBJECT E) path = None.

(** Rules without an address or time literal outside a list and without a
    comparison that the compiler coerces. *)
Inductive plain (E : Externals) : Rule -> Prop :=
  | plain_variable v : plain E (VariableRule v)
  | plain_constant v : plain E (ConstantRule v)
  | plain_integer c : plain E (IntegerRule c)
  | plain_float v : plain E (FloatRule v)
  | plain_list items : plain E (ListRule items)
  | plain_iplist items : plain E (IPListRule items)
  | plain_logical op l r :
      plain E l -> plain E r -> plain E (LogicalBinOpRule op l r)
  | plain_comparison op l r :
      plain E l -> plain E r -> off_the_table E l r ->
      plain E (ComparisonBinOpRule op l r)
  | plain_math op l r :
      plain E l -> plain E r -> plain E (MathBinOpRule op l r)
  | plain_unary op r : plain E r -> plain E (UnaryOperationRule op r).

(** Every integer literal of the tree is an object of the store. *)
Definition closed (st : store) (rule : Rule) : Prop :=
  Forall (fun c => (c < length st)%nat) (cells_of rule).

(** Compiling the rule, when it returns, only adds objects to the store,
    and returns a rule with the same value as the rule had, on every
    record. *)
Definition value_preserved (E : Externals) (w : bool) (rule : Rule) : Prop :=
  forall st rule1 st1,
    settled st rule ->
    compile E w rule st = (Ok rule1, st1) ->
    (exists g, st1 = st ++ g)
    /\ closed st1 rule1
    /\ is_VariableRule rule1 = is_VariableRule rule
    /\ forall data,
         (DataObjectFilter.filter E w rule1 data st1).1
         = (DataObjectFilter.filter E w rule data st).1.

(** * Properties *)

(** ** The monad *)

Lemma bind_ok {A B} (m : M A) (k : A -> M B) st a st' :
  m st = (Ok a, st') -> bind m k st = k a st'.
Proof. unfold bind. intros ->. reflexivity. Qed.

Lemma bind_inv {A B} (m : M A) (k : A -> M B) st b st2 :
  bind m k st = (Ok b, st2) ->
  exists a st1, m st = (Ok a, st1) /\ k a st1 = (Ok b, st2).
Proof.
  unfold bind. destruct (m st) as [[a|e] st1]; intros H.
  - eauto.
  - discriminate.
Qed.

(** The traversal of a list node, with the walk of its items named. *)
Lemma traverse_ListRule {R} (T : Traverser R) w items :
  traverse T w (ListRule items)
  = (let* _ := (if w then walk T w items else ret tt) in
     on_list T (ListRule items)).
Proof. reflexivity. Qed.

Lemma traverse_IPListRule {R} (T : Traverser R) w items :
  traverse T w (IPListRule items)
  = (let* _ := (if w then walk T w items else ret tt) in
     on_list T (IPListRule items)).
Proof. reflexivity. Qed.

(** ** C2: the IPv6 leaf *)

(** C2, as the code runs: the compiler's [ipv6] callback calls
    [compile_ip_v4].  A raw string is handed to the IPv4 parser and, when
    that accepts it, the node becomes an [IPV4Rule]; only an already parsed
    range passes through unchanged.  On the sample host the IPv6 literal
    ["2001:db8:0:0:0:0:0:1"] is rejected, although [compile_ip_v6] turns it
    into an [IPV6Rule]. *)
Theorem C2_ipv6_literal_goes_to_the_ipv4_parser :
  (forall E w s st,
     compile E w (IPV6Rule (VStr s)) st
     = (rmap (fun r => IPV4Rule (VRange r)) (from_str_v4 E (VStr s)), st))
  /\ (forall E w r st,
        compile E w (IPV6Rule (VRange r)) st = (Ok (IPV6Rule (VRange r)), st))
  /\ (forall w st,
        let lit := IPV6Rule (VStr "2001:db8:0:0:0:0:0:1") in
        compile Sample.externals w lit st
        = (Raise (ValueError "does not appear as an address"), st)
        /\ exists r, compile_ip_v6 Sample.externals lit st
                     = (Ok (IPV6Rule (VRange r)), st)).
Proof.
  split; [|split].
  - intros E w s st. cbn.
    unfold IDEAFilterCompiler.ipv6, compile_ip_v4, bind, lift, ret. cbn.
    destruct (from_str_v4 E (VStr s)); reflexivity.
  - reflexivity.
  - intros w st. split; [reflexivity|]. eexists. vm_compute. reflexivity.
Qed.

(** ** C3: RFC 3339 timestamps *)

Lemma digit_is_not c x : is_digit c = true -> is_digit x = false -> Ascii.eqb c x = false.
Proof.
  intros Hc Hx. destruct (Ascii.eqb_spec c x) as [->|]; [congruence|reflexivity].
Qed.

Lemma digit_is_no_space c : is_digit c = true -> is_space c = false.
Proof.
  unfold is_digit, is_space. intros H. apply andb_prop in H as [H1 H2].
  apply Z.leb_le in H1, H2.
  destruct (9 <=? code c) eqn:A, (code c <=? 13) eqn:B,
           (28 <=? code c) eqn:C, (code c <=? 32) eqn:D; try reflexivity;
    repeat match goal with
           | H : (_ <=? _) = true |- _ => apply Z.leb_le in H
           end; lia.
Qed.

Lemma rstrip_cons c l : is_space c = false -> rstrip (c :: l) = c :: rstrip l.
Proof. intros H. cbn. rewrite H. now destruct (rstrip l). Qed.

Lemma take_digits_inv n l ds r :
  take_digits n l = Some (ds, r) ->
  l = ds ++ r /\ length ds = n /\ forallb is_digit ds = true.
Proof.
  revert l ds r. induction n as [|n IH]; intros l ds r; cbn.
  - intros [= <- <-]. auto.
  - destruct l as [|c t]; [discriminate|].
    destruct (is_digit c) eqn:Hc; [|discriminate].
    destruct (take_digits n t) as [[ds' r']|] eqn:Ht; [|discriminate].
    cbn. intros [= <- <-]. destruct (IH _ _ _ Ht) as (-> & <- & Hd).
    cbn. rewrite Hc. auto.
Qed.

(** A text that matches [TIMESTAMP_RE] starts with four digits and a
    hyphen. *)
Lemma TIMESTAMP_RE_match_head l m :
  TIMESTAMP_RE_match l = Some m ->
  exists d1 d2 d3 d4 rest,
    l = d1 :: d2 :: d3 :: d4 :: "-"%char :: rest
    /\ is_digit d1 = true /\ is_digit d2 = true
    /\ is_digit d3 = true /\ is_digit d4 = true.
Proof.
  unfold TIMESTAMP_RE_match.
  destruct (take_digits 4 l) as [[g1 r]|] eqn:H4; [|discriminate]. cbn.
  destruct r as [|c r]; [discriminate|]. cbn. unfold is_char.
  destruct (Ascii.eqb_spec c "-") as [->|]; [|discriminate]. intros _.
  apply take_digits_inv in H4 as (-> & Hlen & Hd).
  destruct g1 as [|d1 [|d2 [|d3 [|d4 [|]]]]]; try discriminate.
  cbn in Hd. repeat (apply andb_prop in Hd as [? Hd]).
  exists d1, d2, d3, d4, r. auto 10.
Qed.

(** [float] rejects every text that matches [TIMESTAMP_RE]. *)
Lemma float_literal_timestamp l m :
  TIMESTAMP_RE_match l = Some m -> float_literal l = false.
Proof.
  intros (d1 & d2 & d3 & d4 & rest & -> & H1 & H2 & H3 & H4)%TIMESTAMP_RE_match_head.
  unfold float_literal, strip. cbv zeta.
  cbn [lstrip]. rewrite (digit_is_no_space _ H1).
  rewrite !rstrip_cons by now apply digit_is_no_space.
  rewrite (rstrip_cons "-" rest eq_refl).
  set (tail := rstrip rest).
  unfold drop_sign.
  rewrite (digit_is_not d1 "+" H1 eq_refl), (digit_is_not d1 "-" H1 eq_refl).
  cbn [orb].
  assert (forall t, chars_eqb (map lower (d1 :: t)) (list_ascii_of_string "inf") = false
                    /\ chars_eqb (map lower (d1 :: t)) (list_ascii_of_string "infinity") = false
                    /\ chars_eqb (map lower (d1 :: t)) (list_ascii_of_string "nan") = false)
    as Hnames.
  { intros t. assert (lower d1 = d1) as Hlow.
    { unfold lower, is_digit in *. apply andb_prop in H1 as [A B].
      apply Z.leb_le in A, B.
      destruct (65 <=? code d1) eqn:C; [apply Z.leb_le in C; lia|reflexivity]. }
    unfold chars_eqb. cbn [map string_of_list_ascii list_ascii_of_string String.eqb].
    rewrite Hlow.
    rewrite (digit_is_not d1 "i" H1 eq_refl), (digit_is_not d1 "n" H1 eq_refl).
    auto. }
  destruct (Hnames (d2 :: d3 :: d4 :: "-"%char :: tail)) as (-> & -> & ->).
  destruct tail as [|t0 tl]; cbn [orb skip_digitpart];
    rewrite H1, H2, H3, H4; reflexivity.
Qed.

(** A timestamp literal that matches the pattern is coerced through the
    pattern, whatever the platform. *)
Lemma compile_datetime_rfc3339 E rule s m st :
  get_value rule st = (Ok (VStr s), st) ->
  TIMESTAMP_RE_match (list_ascii_of_string s) = Some m ->
  compile_datetime E rule st
  = (rmap (fun d => DatetimeRule (VDatetime d)) (datetime_of_match m), st).
Proof.
  intros Hv Hm. unfold compile_datetime. rewrite (bind_ok _ _ _ _ _ Hv).
  cbn [py_float py_str]. rewrite (float_literal_timestamp _ _ Hm), Hm.
  cbn [rbind]. unfold bind, lift, ret.
  now destruct (datetime_of_match m).
Qed.

Lemma int_of_signed_digits (negative : bool) h1 h2 :
  is_digit h1 = true -> is_digit h2 = true ->
  int_of_text [if negative then "-"%char else "+"%char; h1; h2]
  = Ok ((if negative then -1 else 1) * (digit_value h1 * 10 + digit_value h2)).
Proof.
  intros H1 H2. unfold int_of_text, int_of_chars, strip.
  assert (lstrip [if negative then "-"%char else "+"%char; h1; h2]
          = [if negative then "-"%char else "+"%char; h1; h2]) as ->.
  { now destruct negative. }
  rewrite rstrip_cons by now destruct negative.
  rewrite !rstrip_cons by now apply digit_is_no_space.
  cbn [rstrip].
  destruct negative; cbn [Ascii.eqb Bool.eqb andb]; cbn [digits_to_end];
    rewrite H1, H2; cbn [fmap option_fmap option_map]; f_equal; try lia.
Qed.

Lemma int_of_two_digits m1 m2 :
  is_digit m1 = true -> is_digit m2 = true ->
  int_of_text [m1; m2] = Ok (digit_value m1 * 10 + digit_value m2).
Proof.
  intros H1 H2. unfold int_of_text, int_of_chars, strip.
  cbn [lstrip]. rewrite (digit_is_no_space _ H1).
  rewrite !rstrip_cons by now apply digit_is_no_space.
  cbn [rstrip].
  rewrite (digit_is_not m1 "+" H1 eq_refl), (digit_is_not m1 "-" H1 eq_refl).
  cbn [digits_to_end]. rewrite H1, H2. f_equal; try lia.
Qed.

(** The offset of a signed zone suffix: the sign reaches the hours only. *)
Lemma zone_split_signed (negative : bool) h1 h2 m1 m2 :
  is_digit h1 = true -> is_digit h2 = true ->
  is_digit m1 = true -> is_digit m2 = true ->
  zone_split [if negative then "-"%char else "+"%char; h1; h2; ":"%char; m1; m2]
  = Ok [(if negative then -1 else 1) * (digit_value h1 * 10 + digit_value h2);
        digit_value m1 * 10 + digit_value m2].
Proof.
  intros H1 H2 H3 H4. unfold zone_split.
  assert (chars_eqb [if negative then "-"%char else "+"%char; h1; h2; ":"%char; m1; m2]
            ["z"%char] = false) as ->.
  { now destruct negative. }
  assert (chars_eqb [if negative then "-"%char else "+"%char; h1; h2; ":"%char; m1; m2]
            ["Z"%char] = false) as ->.
  { now destruct negative. }
  cbn [orb].
  assert (split_colon []
            [if negative then "-"%char else "+"%char; h1; h2; ":"%char; m1; m2]
          = [[if negative then "-"%char else "+"%char; h1; h2]; [m1; m2]]) as ->.
  { cbn [split_colon].
    rewrite (digit_is_not h1 ":" H1 eq_refl), (digit_is_not h2 ":" H2 eq_refl),
      (digit_is_not m1 ":" H3 eq_refl), (digit_is_not m2 ":" H4 eq_refl).
    now destruct negative. }
  cbn [rmapM].
  rewrite (int_of_signed_digits negative _ _ H1 H2), (int_of_two_digits _ _ H3 H4).
  reflexivity.
Qed.

(** C3, as the code runs: a literal that matches the pattern is coerced
    through the pattern on every platform, to the naive [datetime] of its
    fields minus the offset of its zone; that offset is [int(HH) * 60 +
    int(MM)] with the sign read as part of [HH] only.  So ["+02:00"] gives
    the instant two hours earlier, as the spec says, but ["-02:30"] is taken
    as minus 90 minutes: ten o'clock becomes 11:30 and not 12:30; and
    ["-00:30"] is taken as plus 30 minutes. *)
Theorem C3_zone_offset_sign_covers_hours_only :
  forall E w st,
    (forall s m,
       TIMESTAMP_RE_match (list_ascii_of_string s) = Some m ->
       compile E w (DatetimeRule (VStr s)) st
       = (rmap (fun d => DatetimeRule (VDatetime d)) (datetime_of_match m), st))
    /\ (forall (negative : bool) h1 h2 m1 m2,
          is_digit h1 = true -> is_digit h2 = true ->
          is_digit m1 = true -> is_digit m2 = true ->
          zone_split
            [if negative then "-"%char else "+"%char; h1; h2; ":"%char; m1; m2]
          = Ok [(if negative then -1 else 1)
                * (digit_value h1 * 10 + digit_value h2);
                digit_value m1 * 10 + digit_value m2])
    /\ compile E w (DatetimeRule (VStr "2023-05-01T10:00:00+02:00")) st
       = (Ok (DatetimeRule (VDatetime (mkdatetime 2023 5 1 8 0 0 0))), st)
    /\ compile E w (DatetimeRule (VStr "2023-05-01T10:00:00-02:30")) st
       = (Ok (DatetimeRule (VDatetime (mkdatetime 2023 5 1 11 30 0 0))), st)
    /\ compile E w (DatetimeRule (VStr "2023-05-01T10:00:00-00:30")) st
       = (Ok (DatetimeRule (VDatetime (mkdatetime 2023 5 1 9 30 0 0))), st).
Proof.
  intros E w st. split; [|split].
  - intros s m Hm.
    exact (compile_datetime_rfc3339 E (DatetimeRule (VStr s)) s m st eq_refl Hm).
  - apply zone_split_signed.
  - repeat split; vm_compute; reflexivity.
Qed.

Lemma C3_zone_offset_sign_covers_hours_only_witness :
  compile Sample.externals true
    (DatetimeRule (VStr "2023-05-01T10:00:00.25-02:30")) []
  = (Ok (DatetimeRule (VDatetime (mkdatetime 2023 5 1 11 30 0 250000))), [])
  /\ zone_split (list_ascii_of_string "-02:30") = Ok [-2; 30].
Proof.
  destruct (C3_zone_offset_sign_covers_hours_only Sample.externals true [])
    as (Hmatch & Hzone & _).
  split.
  - exact (Hmatch "2023-05-01T10:00:00.25-02:30"
             (mk_ts_match (list_ascii_of_string "2023")
                (list_ascii_of_string "05") (list_ascii_of_string "01")
                (list_ascii_of_string "10") (list_ascii_of_string "00")
                (list_ascii_of_string "00")
                (Some (list_ascii_of_string "25"))
                (list_ascii_of_string "-02:30"))
             eq_refl).
  - exact (Hzone true "0"%char "2"%char "3"%char "0"%char
             eq_refl eq_refl eq_refl eq_refl).
Defined.

(** ** C9: malformed literals *)

(** C9: a string that the IPv4 parser rejects, compared with ["Source.IP4"]
    on either side, makes compilation raise the parser's error; and
    [compile_datetime] of a value that is no [datetime], whose numeric
    reading fails with a [TypeError] or a [ValueError] and whose text does not
    match [TIMESTAMP_RE], raises [ValueError("Wrong Timestamp")]. *)
Theorem C9_malformed_literal_raises :
  forall E w,
    (forall op s e st,
       from_str_v4 E (VStr s) = Raise e ->
       compile E w
         (ComparisonBinOpRule op (VariableRule (VStr "Source.IP4"))
            (ConstantRule (VStr s))) st = (Raise e, st)
       /\ compile E w
            (ComparisonBinOpRule op (ConstantRule (VStr s))
               (VariableRule (VStr "Source.IP4"))) st = (Raise e, st))
    /\ (forall rule v st,
          get_value rule st = (Ok v, st) ->
          (forall d, v <> VDatetime d) ->
          (let? f := py_float E v in fromtimestamp E f) = Raise TypeError
          \/ (exists msg,
                (let? f := py_float E v in fromtimestamp E f)
                = Raise (ValueError msg)) ->
          TIMESTAMP_RE_match (list_ascii_of_string (py_str E v)) = None ->
          compile_datetime E rule st = (Raise (ValueError "Wrong Timestamp"), st)).
Proof.
  intros E w. split.
  - intros op s e st Hbad. split; cbn;
      unfold IDEAFilterCompiler.binary_operation_comparison, compile_ip_v4,
        bind, lift, ret; cbn;
      rewrite Hbad; reflexivity.
  - intros rule v st Hv Hnd Hnum Hre.
    unfold compile_datetime. rewrite (bind_ok _ _ _ _ _ Hv).
    destruct v; try (exfalso; eapply Hnd; reflexivity);
      rewrite Hre;
      (destruct Hnum as [-> | [msg ->]]; reflexivity).
Qed.

Lemma C9_malformed_literal_raises_witness :
  (compile Sample.externals true
     (ComparisonBinOpRule "OP_EQ" (VariableRule (VStr "Source.IP4"))
        (ConstantRule (VStr "not.an.ip"))) []
   = (Raise (ValueError "does not appear as an address"), []))
  /\ compile_datetime Sample.externals (ConstantRule (VStr "yesterday")) []
     = (Raise (ValueError "Wrong Timestamp"), []).
Proof.
  destruct (C9_malformed_literal_raises Sample.externals true) as [Hip Hts].
  split.
  - apply (Hip "OP_EQ" "not.an.ip"). reflexivity.
  - apply (Hts (ConstantRule (VStr "yesterday")) (VStr "yesterday")).
    + reflexivity.
    + discriminate.
    + right. eexists. reflexivity.
    + reflexivity.
Defined.

(** ** C10: evaluating an IP list *)

Lemma mapM_get_value_coerced items ranges st :
  Forall2 (fun item r => coerced_ip item = Some r) items ranges ->
  mapM get_value items st = (Ok (map VRange ranges), st).
Proof.
  induction 1 as [|item r items ranges Hi _ IH]; [reflexivity|].
  cbn. unfold bind.
  assert (get_value item st = (Ok (VRange r), st)) as ->.
  { destruct item; try discriminate; destruct value; try discriminate;
      cbn in Hi; injection Hi as ->; reflexivity. }
  rewrite IH. reflexivity.
Qed.

Lemma walk_filter_coerced E w data items ranges st :
  Forall2 (fun item r => coerced_ip item = Some r) items ranges ->
  walk (DataObjectFilter.callbacks E data) w items st = (Ok tt, st).
Proof.
  induction 1 as [|item r items ranges Hi _ IH]; [reflexivity|].
  cbn [walk]. unfold bind.
  assert (traverse (DataObjectFilter.callbacks E data) w item st
          = (Ok (VRange r), st)) as ->.
  { destruct item; try discriminate; destruct value; try discriminate;
      cbn in Hi; injection Hi as ->; reflexivity. }
  exact IH.
Qed.

(** C10: for any record, the evaluator turns an [IPListRule] of coerced IP
    literals into the [ListIP] of the ranges they hold, in order. *)
Theorem C10_ip_list_evaluates_to_its_ranges :
  forall E w data items ranges st,
    Forall2 (fun item r => coerced_ip item = Some r) items ranges ->
    DataObjectFilter.filter E w (IPListRule items) data st
    = (Ok (VListIP (map VRange ranges)), st).
Proof.
  intros E w data items ranges st H.
  unfold DataObjectFilter.filter. rewrite traverse_IPListRule.
  assert ((if w then walk (DataObjectFilter.callbacks E data) w items
           else ret tt) st = (Ok tt, st)) as Hw.
  { destruct w; [eapply walk_filter_coerced; eassumption | reflexivity]. }
  rewrite (bind_ok _ _ _ _ _ Hw). cbn.
  unfold DataObjectFilter.list, values.
  rewrite (bind_ok _ _ _ _ _ (mapM_get_value_coerced _ _ _ H)). reflexivity.
Qed.

Lemma C10_ip_list_evaluates_to_its_ranges_witness :
  DataObjectFilter.filter Sample.externals true
    (IPListRule [IPV4Rule (VRange (IPRange 4 16 31));
                 IPV6Rule (VRange (IPRange 6 1 1))])
    (VDict [("ID", VStr "e214d2d9")]) []
  = (Ok (VListIP [VRange (IPRange 4 16 31); VRange (IPRange 6 1 1)]), []).
Proof.
  apply (C10_ip_list_evaluates_to_its_ranges Sample.externals true _
           _ [IPRange 4 16 31; IPRange 6 1 1]).
  repeat constructor.
Defined.

(** ** C8: path canonicalization *)

Lemma span_digits_app ds rest :
  forallb is_digit ds = true ->
  span_digits (ds ++ "]"%char :: rest) = (ds, "]"%char :: rest).
Proof.
  induction ds as [|d ds IH]; cbn; [reflexivity|].
  intros [Hd Hds]%andb_prop. rewrite Hd, (IH Hds). reflexivity.
Qed.

Lemma CVRE_sub_skip skipped rest :
  CVRE_sub (length skipped) (skipped ++ rest) = CVRE_sub 0 rest.
Proof. induction skipped as [|c t IH]; [reflexivity|exact IH]. Qed.

Lemma CVRE_sub_index ds rest :
  ds <> [] -> forallb is_digit ds = true ->
  CVRE_sub 0 ("["%char :: ds ++ "]"%char :: rest) = CVRE_sub 0 rest.
Proof.
  intros Hne Hds. cbn [CVRE_sub CVRE_match].
  change (Ascii.eqb "[" "[") with true. cbv iota.
  rewrite (span_digits_app _ _ Hds).
  destruct ds as [|d ds]; [contradiction|].
  change (Ascii.eqb "]" "]") with true. cbv iota.
  replace (Init.Nat.pred (length (d :: ds) + 2))
    with (length ((d :: ds) ++ ["]"%char])).
  2:{ rewrite length_app. cbn. lia. }
  rewrite <- (CVRE_sub_skip ((d :: ds) ++ ["]"%char]) rest).
  rewrite <- app_assoc. reflexivity.
Qed.





(** ** C5: folding of literal arithmetic *)

Lemma read_lookup (st : store) c v : st !! c = Some v -> read st c = v.
Proof. unfold read. now intros ->. Qed.

Lemma integer_normal (st : store) c z :
  st !! c = Some (VInt z) ->
  IDEAFilterCompiler.integer (IntegerRule c) st = (Ok (IntegerRule c), st).
Proof.
  intros H. unfold IDEAFilterCompiler.integer, bind, get_value, lift, set_value, ret.
  rewrite (read_lookup _ _ _ H). cbn. now rewrite list_insert_id.
Qed.

Lemma mapM_new_IntegerRule rs st :
  mapM new_IntegerRule rs st
  = (Ok (map IntegerRule (seq (length st) (length rs))), st ++ rs).
Proof.
  revert st. induction rs as [|r rs IH]; intros st.
  - cbn. unfold ret. now rewrite app_nil_r.
  - cbn [mapM]. unfold bind at 1. unfold new_IntegerRule at 1.
    unfold bind. rewrite IH. unfold ret. rewrite length_app. cbn [length].
    replace (length st + 1)%nat with (S (length st)) by lia.
    rewrite <- app_assoc. reflexivity.
Qed.

(** C5: a [MathBinOpRule] over two integer literals [a] and [b] compiles to
    the [IntegerRule] of [evaluate_binop_math op a b], or, when that is a
    list, to the [ListRule] of one new [IntegerRule] per element; the
    callback folds two number literals that are not both integers to
    [FloatRule]s in the same way; and it rebuilds the node over its compiled
    children when they are not both number literals.  The callback is
    applied to the compiled children. *)
Theorem C5_math_constant_folding :
  forall E w,
    (forall op a b c1 c2 (st : store) v,
       st !! c1 = Some (VInt a) -> st !! c2 = Some (VInt b) ->
       evaluate_binop_math E op (VInt a) (VInt b) None = Ok v ->
       compile E w (MathBinOpRule op (IntegerRule c1) (IntegerRule c2)) st
       = match v with
         | VList rs =>
             (Ok (ListRule (map IntegerRule (seq (length st) (length rs)))),
              st ++ rs)
         | _ => (Ok (IntegerRule (length st)), st ++ [v])
         end)
    /\ (forall op l0 r0 left right lv rv st v,
          is_NumberRule left = true -> is_NumberRule right = true ->
          is_IntegerRule left && is_IntegerRule right = false ->
          get_value left st = (Ok lv, st) -> get_value right st = (Ok rv, st) ->
          evaluate_binop_math E op lv rv None = Ok v ->
          IDEAFilterCompiler.binary_operation_math E (MathBinOpRule op l0 r0)
            left right st
          = (Ok match v with
                | VList rs => ListRule (map FloatRule rs)
                | _ => FloatRule v
                end, st))
    /\ (forall op l0 r0 left right st,
          is_NumberRule left && is_NumberRule right = false ->
          IDEAFilterCompiler.binary_operation_math E (MathBinOpRule op l0 r0)
            left right st
          = (Ok (MathBinOpRule op left right), st))
    /\ (forall op l r st,
          compile E w (MathBinOpRule op l r) st
          = (let* lrt := compile E w l in
             let* rrt := compile E w r in
             IDEAFilterCompiler.binary_operation_math E (MathBinOpRule op l r)
               lrt rrt) st).
Proof.
  intros E w. split; [|split; [|split]].
  - intros op a b c1 c2 st v H1 H2 Hv.
    cbn [IDEAFilterCompiler.compile traverse IDEAFilterCompiler.callbacks
           on_integer on_binary_operation_math].
    rewrite (bind_ok _ _ _ _ _ (integer_normal st c1 a H1)).
    rewrite (bind_ok _ _ _ _ _ (integer_normal st c2 b H2)).
    unfold IDEAFilterCompiler.binary_operation_math. cbn [is_IntegerRule andb].
    unfold bind, get_operation, get_value, ret, lift.
    rewrite (read_lookup _ _ _ H1), (read_lookup _ _ _ H2), Hv.
    destruct v; try reflexivity.
    rewrite mapM_new_IntegerRule. reflexivity.
  - intros op l0 r0 lt rt lv rv st v Hl Hr Hi Hlv Hrv Hv.
    unfold IDEAFilterCompiler.binary_operation_math.
    rewrite Hi, Hl, Hr. cbn [andb].
    unfold bind, get_operation, ret, lift. rewrite Hlv, Hrv, Hv.
    destruct v; reflexivity.
  - intros op l0 r0 lt rt st Hn.
    unfold IDEAFilterCompiler.binary_operation_math.
    rewrite Hn.
    destruct (is_IntegerRule lt && is_IntegerRule rt) eqn:Hi.
    + apply andb_prop in Hi as [Hl Hr].
      destruct lt; try discriminate; destruct rt; discriminate.
    + reflexivity.
  - reflexivity.
Qed.

Lemma C5_math_constant_folding_witness :
  compile Sample.externals true
    (MathBinOpRule "OP_PLUS" (IntegerRule 0) (IntegerRule 1)) [VInt 2; VInt 3]
  = (Ok (IntegerRule 2), [VInt 2; VInt 3; VInt 5])
  /\ IDEAFilterCompiler.binary_operation_math Sample.externals
       (MathBinOpRule "OP_TIMES" (IntegerRule 0) (FloatRule (VStr "0.5")))
       (IntegerRule 0) (FloatRule (VFloat (S754_finite false 1 (-1))))
       [VInt 3]
     = (Ok (FloatRule (VFloat (S754_finite false 6755399441055744 (-52)))),
        [VInt 3]).
Proof.
  destruct (C5_math_constant_folding Sample.externals true) as (H1 & H2 & _).
  split.
  - apply (H1 "OP_PLUS" 2 3 0%nat 1%nat [VInt 2; VInt 3] (VInt 5));
      reflexivity.
  - apply (H2 "OP_TIMES" (IntegerRule 0) (FloatRule (VStr "0.5"))
             (IntegerRule 0) (FloatRule (VFloat (S754_finite false 1 (-1))))
             (VInt 3) (VFloat (S754_finite false 1 (-1))) [VInt 3]
             (VFloat (S754_finite false 6755399441055744 (-52))));
      reflexivity.
Defined.

(** ** Induction over rule trees *)

Lemma Rule_induction (P : Rule -> Prop) :
  (forall v, P (VariableRule v)) ->
  (forall v, P (ConstantRule v)) ->
  (forall v, P (IPV4Rule v)) ->
  (forall v, P (IPV6Rule v)) ->
  (forall v, P (DatetimeRule v)) ->
  (forall c, P (IntegerRule c)) ->
  (forall v, P (FloatRule v)) ->
  (forall items, Forall P items -> P (ListRule items)) ->
  (forall items, Forall P items -> P (IPListRule items)) ->
  (forall op l r, P l -> P r -> P (LogicalBinOpRule op l r)) ->
  (forall op l r, P l -> P r -> P (ComparisonBinOpRule op l r)) ->
  (forall op l r, P l -> P r -> P (MathBinOpRule op l r)) ->
  (forall op r, P r -> P (UnaryOperationRule op r)) ->
  forall r, P r.
Proof.
  intros Hvar Hcon Hv4 Hv6 Hdt Hint Hfl Hlist Hiplist Hlog Hcmp Hmath Hun.
  fix IH 1. intros r. destruct r as [v|v|v|v|v|c|v|items|items|op l r|op l r|op l r|op r].
  - apply Hvar.
  - apply Hcon.
  - apply Hv4.
  - apply Hv6.
  - apply Hdt.
  - apply Hint.
  - apply Hfl.
  - apply Hlist. induction items as [|x t IHt]; constructor; [apply IH|exact IHt].
  - apply Hiplist. induction items as [|x t IHt]; constructor; [apply IH|exact IHt].
  - apply Hlog; apply IH.
  - apply Hcmp; apply IH.
  - apply Hmath; apply IH.
  - apply Hun; apply IH.
Qed.

(** ** C4: what compilation writes *)

Lemma changes_refl P st : changes P st st.
Proof. intros c v H. now left. Qed.

Lemma changes_trans P st1 st2 st3 :
  changes P st1 st2 -> changes P st2 st3 -> changes P st1 st3.
Proof.
  intros H12 H23 c v Hc.
  destruct (H12 c v Hc) as [H2|(Hp & z & Hz & H2)].
  - exact (H23 c v H2).
  - destruct (H23 c _ H2) as [H3|(_ & z' & Hz' & H3)].
    + right. eauto.
    + right. cbn in Hz'. injection Hz' as <-. eauto.
Qed.

Lemma changes_weaken (P Q : cell -> Prop) st st' :
  (forall c, P c -> Q c) -> changes P st st' -> changes Q st st'.
Proof.
  intros HPQ H c v Hc. destruct (H c v Hc) as [?|(Hp & z & Hz & H2)].
  - now left.
  - right. eauto.
Qed.

Lemma changes_app P (st g : store) : changes P st (st ++ g).
Proof. intros c v H. left. now apply lookup_app_l_Some. Qed.

Lemma changes_insert (P : cell -> Prop) (st : store) c z :
  P c -> py_int (read st c) = Ok z -> changes P st (<[c := VInt z]> st).
Proof.
  intros Hp Hz c' v Hc'. destruct (decide (c = c')) as [<-|Hne].
  - right. split; [exact Hp|]. exists z. split.
    + unfold read in Hz. now rewrite Hc' in Hz.
    + apply list_lookup_insert_eq. now apply lookup_lt_Some in Hc'.
  - left. now rewrite list_lookup_insert_ne.
Qed.

(** A computation that writes only within [P]. *)
Definition writes_within {A} (P : cell -> Prop) (m : M A) : Prop :=
  forall st, changes P st (m st).2.

Lemma within_ret {A} P (a : A) : writes_within P (ret a).
Proof. intros st. apply changes_refl. Qed.

Lemma within_raise {A} P e : writes_within P (@raise A e).
Proof. intros st. apply changes_refl. Qed.

Lemma within_lift {A} P (r : result A) : writes_within P (lift r).
Proof. intros st. apply changes_refl. Qed.

Lemma within_bind {A B} P (m : M A) (k : A -> M B) :
  writes_within P m -> (forall a, writes_within P (k a)) ->
  writes_within P (bind m k).
Proof.
  intros Hm Hk st. unfold bind. specialize (Hm st).
  destruct (m st) as [[a|e] st1]; cbn in *.
  - eapply changes_trans; [exact Hm|apply Hk].
  - exact Hm.
Qed.

Lemma within_weaken {A} (P Q : cell -> Prop) (m : M A) :
  (forall c, P c -> Q c) -> writes_within P m -> writes_within Q m.
Proof. intros HPQ H st. eapply changes_weaken; [exact HPQ|apply H]. Qed.

Lemma within_get_value P rule : writes_within P (get_value rule).
Proof. destruct rule; intros st; apply changes_refl. Qed.

Lemma within_get_operation P rule : writes_within P (get_operation rule).
Proof. destruct rule; intros st; apply changes_refl. Qed.

Lemma within_new_IntegerRule P v : writes_within P (new_IntegerRule v).
Proof. intros st. apply changes_app. Qed.

Lemma within_mapM {A B} P (f : A -> M B) l :
  (forall a, writes_within P (f a)) -> writes_within P (mapM f l).
Proof.
  intros Hf. induction l as [|x t IH]; cbn [mapM].
  - apply within_ret.
  - apply within_bind; [apply Hf|]. intros y.
    apply within_bind; [exact IH|]. intros ys. apply within_ret.
Qed.

Ltac within :=
  repeat first
    [ apply within_ret | apply within_raise | apply within_lift
    | apply within_get_value | apply within_get_operation
    | apply within_new_IntegerRule
    | apply within_bind; [|intros ?] ].

Lemma within_compile_ip_v4 E P rule : writes_within P (compile_ip_v4 E rule).
Proof. unfold compile_ip_v4. within. destruct a; within. Qed.

Lemma within_compile_ip_v6 E P rule : writes_within P (compile_ip_v6 E rule).
Proof. unfold compile_ip_v6. within. destruct a; within. Qed.

Lemma within_compile_datetime E P rule :
  writes_within P (compile_datetime E rule).
Proof.
  unfold compile_datetime. within.
  assert (writes_within P
    match TIMESTAMP_RE_match (list_ascii_of_string (py_str E a)) with
    | Some res =>
        let* d := lift (datetime_of_match res) in ret (DatetimeRule (VDatetime d))
    | None => raise (ValueError "Wrong Timestamp")
    end) as Hre.
  { destruct (TIMESTAMP_RE_match _); within. }
  destruct a; try (within; fail);
    (destruct (let? f := py_float E _ in fromtimestamp E f) as [?|[]];
     [within|exact Hre|exact Hre|within..]).
Qed.

Lemma within_comp_i E P path c rule :
  dict_get (COMPILATIONS_IDEA_OBJECT E) path = Some c ->
  writes_within P (comp_i c rule).
Proof.
  cbn. repeat (destruct (String.eqb path _);
    [intros [= <-]; cbn;
     first [apply within_compile_datetime | apply within_compile_ip_v4
           | apply within_compile_ip_v6]|]).
  discriminate.
Qed.

Lemma within_comparison E P rule lt rt :
  writes_within P (IDEAFilterCompiler.binary_operation_comparison E rule lt rt).
Proof.
  unfold IDEAFilterCompiler.binary_operation_comparison.
  apply within_bind; [|intros; within].
  destruct (IDEAFilterCompiler.var_and_val lt rt) as [[var val]|]; within.
  destruct (dict_get (COMPILATIONS_IDEA_OBJECT E) a0) as [c|] eqn:Hc; within.
  destruct (is_ListRule val).
  - within. apply within_mapM. intros x. eapply within_comp_i; eassumption.
  - eapply within_comp_i; eassumption.
Qed.

Lemma within_math E P rule lt rt :
  writes_within P (IDEAFilterCompiler.binary_operation_math E rule lt rt).
Proof.
  unfold IDEAFilterCompiler.binary_operation_math.
  destruct (is_IntegerRule lt && is_IntegerRule rt);
    [|destruct (is_NumberRule lt && is_NumberRule rt)]; within.
  - destruct a2; within. apply within_mapM. intros; within.
  - destruct a2; within.
Qed.

Lemma within_integer rule :
  writes_within (fun c => c ∈ cells_of rule) (IDEAFilterCompiler.integer rule).
Proof.
  intros st. unfold IDEAFilterCompiler.integer, bind, lift, set_value, ret.
  destruct rule; cbn; try apply changes_refl;
    try (destruct (py_int _); apply changes_refl).
  destruct (py_int (read st value)) as [z|e] eqn:Hz; cbn.
  - apply changes_insert; [now apply list_elem_of_singleton|exact Hz].
  - apply changes_refl.
Qed.

Lemma within_compile E w rule :
  writes_within (fun c => c ∈ cells_of rule) (compile E w rule).
Proof.
  unfold IDEAFilterCompiler.compile.
  induction rule as [v|v|v|v|v|c|v|items IH|items IH|op l r IHl IHr
                    |op l r IHl IHr|op l r IHl IHr|op r IHr]
    using Rule_induction.
  1,2,7: apply within_ret.
  - apply within_compile_ip_v4.
  - apply within_compile_ip_v4.
  - apply within_compile_datetime.
  - apply within_integer.
  - rewrite traverse_ListRule. apply within_bind; [|intros; apply within_ret].
    destruct w; [|apply within_ret].
    induction IH as [|x t Hx _ IHt]; cbn [walk]; [apply within_ret|].
    apply within_bind; [|intros _].
    + eapply within_weaken; [|exact Hx]. cbn. intros c Hc.
      apply elem_of_app. now left.
    + eapply within_weaken; [|exact IHt]. cbn. intros c Hc.
      apply elem_of_app. now right.
  - rewrite traverse_IPListRule. apply within_bind; [|intros; apply within_ret].
    destruct w; [|apply within_ret].
    induction IH as [|x t Hx _ IHt]; cbn [walk]; [apply within_ret|].
    apply within_bind; [|intros _].
    + eapply within_weaken; [|exact Hx]. cbn. intros c Hc.
      apply elem_of_app. now left.
    + eapply within_weaken; [|exact IHt]. cbn. intros c Hc.
      apply elem_of_app. now right.
  - cbn [traverse]. apply within_bind; [|intros l'; apply within_bind; [|intros r']].
    + eapply within_weaken; [|exact IHl]. cbn. intros c Hc.
      apply elem_of_app. now left.
    + eapply within_weaken; [|exact IHr]. cbn. intros c Hc.
      apply elem_of_app. now right.
    + cbn. within.
  - cbn [traverse]. apply within_bind; [|intros l'; apply within_bind; [|intros r']].
    + eapply within_weaken; [|exact IHl]. cbn. intros c Hc.
      apply elem_of_app. now left.
    + eapply within_weaken; [|exact IHr]. cbn. intros c Hc.
      apply elem_of_app. now right.
    + apply within_comparison.
  - cbn [traverse]. apply within_bind; [|intros l'; apply within_bind; [|intros r']].
    + eapply within_weaken; [|exact IHl]. cbn. intros c Hc.
      apply elem_of_app. now left.
    + eapply within_weaken; [|exact IHr]. cbn. intros c Hc.
      apply elem_of_app. now right.
    + apply within_math.
  - cbn [traverse]. apply within_bind; [|intros r'].
    + exact IHr.
    + cbn. within.
Qed.

(** C4, but for integer literals: the one assignment of the compiler is
    [rule.value = int(rule.value)] in [integer].  Whatever the outcome, an
    object of the store either keeps its value or is an integer literal of
    the compiled tree and now holds [int] of its old value; and compiling an
    [IntegerRule] stores [int(value)] in that very node. *)
Theorem C4_only_integer_literals_are_assigned :
  forall E w rule (st : store) c v,
    st !! c = Some v ->
    ((compile E w rule st).2 !! c = Some v
     \/ (c ∈ cells_of rule
         /\ exists z, py_int v = Ok z
                      /\ (compile E w rule st).2 !! c = Some (VInt z)))
    /\ (forall z, py_int v = Ok z ->
                  compile E w (IntegerRule c) st
                  = (Ok (IntegerRule c), <[c := VInt z]> st)).
Proof.
  intros E w rule st c v Hc. split.
  - exact (within_compile E w rule st c v Hc).
  - intros z Hz. cbn.
    unfold IDEAFilterCompiler.integer, bind, get_value, lift, set_value, ret.
    rewrite (read_lookup _ _ _ Hc), Hz. reflexivity.
Qed.

Lemma C4_only_integer_literals_are_assigned_witness :
  compile Sample.externals true (IntegerRule 0) [VStr "15"]
  = (Ok (IntegerRule 0), [VInt 15]).
Proof.
  apply (C4_only_integer_literals_are_assigned Sample.externals true
           (IntegerRule 0) [VStr "15"] 0%nat (VStr "15") eq_refl).
  reflexivity.
Defined.

(** Against C4 for integer literals: after compiling the literal ["15"] the
    input node no longer holds the string but the integer 15. *)
Lemma C4_integer_literal_is_overwritten :
  let rule := IntegerRule 0 in
  let st := [VStr "15"] in
  contents st rule = TInteger (VStr "15")
  /\ contents (compile Sample.externals true rule st).2 rule = TInteger (VInt 15)
  /\ contents (compile Sample.externals true rule st).2 rule <> contents st rule.
Proof. repeat split. discriminate. Qed.

(** ** C6: list literals *)

Lemma walk_mapM {R} (T : Traverser R) w items st items' st' :
  mapM (traverse T w) items st = (Ok items', st') ->
  walk T w items st = (Ok tt, st').
Proof.
  revert st items'. induction items as [|x t IH]; intros st items' H.
  - cbn in *. unfold ret in *. now injection H as _ <-.
  - cbn [mapM walk] in *.
    apply bind_inv in H as (y & st1 & Hx & H).
    apply bind_inv in H as (ys & st2 & Ht & H).
    unfold ret in H. injection H as _ <-.
    rewrite (bind_ok _ _ _ _ _ Hx). exact (IH _ _ Ht).
Qed.

(** C6, without the compilation of items: the [list] callback returns the
    node it is given.  When compiling a list literal returns, the result is
    that list with the item nodes it had: no item is replaced by its
    compiled form.  It returns at once when the traversal does not visit the
    items, and it returns when every item compiles, when it does. *)
Theorem C6_list_literal_is_returned_as_it_is :
  forall E w items st,
    (forall res st',
       compile E w (ListRule items) st = (Ok res, st') -> res = ListRule items)
    /\ (forall res st',
          compile E w (IPListRule items) st = (Ok res, st') ->
          res = IPListRule items)
    /\ compile E false (ListRule items) st = (Ok (ListRule items), st)
    /\ (forall items' st',
          mapM (compile E true) items st = (Ok items', st') ->
          compile E true (ListRule items) st = (Ok (ListRule items), st')).
Proof.
  intros E w items st. unfold IDEAFilterCompiler.compile.
  split; [|split; [|split]].
  - intros res st'. rewrite traverse_ListRule. intros H.
    apply bind_inv in H as ([] & st1 & _ & H). now injection H as <- _.
  - intros res st'. rewrite traverse_IPListRule. intros H.
    apply bind_inv in H as ([] & st1 & _ & H). now injection H as <- _.
  - reflexivity.
  - intros items' st' H. rewrite traverse_ListRule.
    rewrite (bind_ok _ _ _ _ _
               (walk_mapM (IDEAFilterCompiler.callbacks E) true items st items' st' H)).
    reflexivity.
Qed.

Lemma C6_list_literal_is_returned_as_it_is_witness :
  let item := DatetimeRule (VStr "2023-05-01T10:00:00Z") in
  compile Sample.externals true (ListRule [item; IntegerRule 0]) [VStr "7"]
  = (Ok (ListRule [item; IntegerRule 0]), [VInt 7]).
Proof.
  intros item.
  destruct (C6_list_literal_is_returned_as_it_is Sample.externals true
              [item; IntegerRule 0] [VStr "7"]) as (_ & _ & _ & H).
  apply (H [DatetimeRule (VDatetime (mkdatetime 2023 5 1 10 0 0 0));
            IntegerRule 0]).
  reflexivity.
Defined.

(** Against C6 for the items: a timestamp literal inside a list stays the
    raw string, in either traversal, while the same literal on its own is
    compiled to a [datetime]. *)
Lemma C6_list_items_are_not_compiled :
  let item := DatetimeRule (VStr "2023-05-01T10:00:00Z") in
  let compiled := DatetimeRule (VDatetime (mkdatetime 2023 5 1 10 0 0 0)) in
  let differs w :=
    compile Sample.externals w item [] = (Ok compiled, [])
    /\ compile Sample.externals w (ListRule [item]) [] = (Ok (ListRule [item]), [])
    /\ compile Sample.externals w (ListRule [item]) []
       <> (let* items := mapM (compile Sample.externals w) [item] in
           ret (ListRule items)) [] in
  differs true /\ differs false.
Proof. repeat split; discriminate. Qed.

(** ** Later stores *)

Lemma grows_refl st : grows st st.
Proof. apply changes_refl. Qed.






Lemma grows_keep (st st' : store) c v :
  grows st st' -> (forall z, py_int v <> Ok z) -> st !! c = Some v ->
  st' !! c = Some v.
Proof.
  intros G Hv H. destruct (G c _ H) as [?|(_ & z' & Hz & ?)]; [assumption|].
  now destruct (Hv z').
Qed.

(** ** Settled trees *)





Lemma get_value_pure rule st : (get_value rule st).2 = st.
Proof. destruct rule; reflexivity. Qed.

Lemma get_value_contents st rule st' rule' :
  contents st rule = contents st' rule' ->
  (get_value rule st).1 = (get_value rule' st').1.
Proof.
  destruct rule, rule'; cbn; intros H; try discriminate; try reflexivity;
    injection H; intros; subst; congruence.
Qed.

(** ** The coercion helpers, by the value of the node *)

Lemma compile_ip_v4_shape E rule st :
  compile_ip_v4 E rule st = coerce_with (ip_v4_of E) rule st.
Proof.
  unfold compile_ip_v4, coerce_with, bind.
  destruct (get_value rule st) as [[v|e] st1]; [|reflexivity].
  destruct v; cbn; unfold lift, ret; try reflexivity;
    destruct (from_str_v4 E _); reflexivity.
Qed.

Lemma compile_ip_v6_shape E rule st :
  compile_ip_v6 E rule st = coerce_with (ip_v6_of E) rule st.
Proof.
  unfold compile_ip_v6, coerce_with, bind.
  destruct (get_value rule st) as [[v|e] st1]; [|reflexivity].
  destruct v; cbn; unfold lift, ret; try reflexivity;
    destruct (from_str_v6 E _); reflexivity.
Qed.

Lemma compile_datetime_shape E rule st :
  compile_datetime E rule st = coerce_with (datetime_of E) rule st.
Proof.
  unfold compile_datetime, coerce_with, bind.
  destruct (get_value rule st) as [[v|e] st1]; [|reflexivity].
  assert (forall v',
    match TIMESTAMP_RE_match (list_ascii_of_string (py_str E v')) with
    | Some res =>
        let* d := lift (datetime_of_match res) in ret (DatetimeRule (VDatetime d))
    | None => raise (ValueError "Wrong Timestamp")
    end st1
    = lift match TIMESTAMP_RE_match (list_ascii_of_string (py_str E v')) with
           | Some res =>
               rmap (fun d => DatetimeRule (VDatetime d)) (datetime_of_match res)
           | None => Raise (ValueError "Wrong Timestamp")
           end st1) as Hre.
  { intros v'. destruct (TIMESTAMP_RE_match _) as [res|]; [|reflexivity].
    unfold bind, lift, ret. destruct (datetime_of_match res); reflexivity. }
  destruct v; try reflexivity; unfold datetime_of;
    (destruct (let? f := py_float E _ in fromtimestamp E f) as [?|[]];
     first [reflexivity | apply Hre]).
Qed.

Lemma good_ip_v4_of E : good_coercion (ip_v4_of E).
Proof.
  split.
  - intros v H. destruct v; try discriminate. split; discriminate.
  - intros v x H. unfold ip_v4_of in H.
    assert (rmap (fun r => IPV4Rule (VRange r)) (from_str_v4 E v) = Ok x) as Hx.
    { destruct v; congruence. }
    destruct (from_str_v4 E v) as [r|]; [|discriminate].
    injection Hx as <-. exists (VRange r). split; [constructor|reflexivity].
Qed.

Lemma good_ip_v6_of E : good_coercion (ip_v6_of E).
Proof.
  split.
  - intros v H. destruct v; try discriminate. split; discriminate.
  - intros v x H. unfold ip_v6_of in H.
    assert (rmap (fun r => IPV6Rule (VRange r)) (from_str_v6 E v) = Ok x) as Hx.
    { destruct v; congruence. }
    destruct (from_str_v6 E v) as [r|]; [|discriminate].
    injection Hx as <-. exists (VRange r). split; [constructor|reflexivity].
Qed.

Lemma rfc3339_leaf text x :
  match TIMESTAMP_RE_match text with
  | Some res => rmap (fun d => DatetimeRule (VDatetime d)) (datetime_of_match res)
  | None => Raise (ValueError "Wrong Timestamp")
  end = Ok x ->
  exists d, x = DatetimeRule (VDatetime d).
Proof.
  destruct (TIMESTAMP_RE_match text) as [res|]; [|discriminate].
  destruct (datetime_of_match res) as [d|]; [|discriminate].
  intros [= <-]. now exists d.
Qed.

Lemma numeric_or_rfc3339_leaf (num : result datetime) text x :
  match num with
  | Ok d => Ok (DatetimeRule (VDatetime d))
  | Raise TypeError | Raise (ValueError _) =>
      match TIMESTAMP_RE_match text with
      | Some res =>
          rmap (fun d => DatetimeRule (VDatetime d)) (datetime_of_match res)
      | None => Raise (ValueError "Wrong Timestamp")
      end
  | Raise e => Raise e
  end = Ok x ->
  exists d, x = DatetimeRule (VDatetime d).
Proof.
  destruct num as [d|[]]; try discriminate; try apply rfc3339_leaf.
  intros [= <-]. now exists d.
Qed.

Lemma good_datetime_of E : good_coercion (datetime_of E).
Proof.
  split.
  - intros v H. destruct v; try discriminate. split; discriminate.
  - intros v x H.
    assert (exists d, x = DatetimeRule (VDatetime d)) as [d ->].
    { apply (numeric_or_rfc3339_leaf
               (let? f := py_float E v in fromtimestamp E f)
               (list_ascii_of_string (py_str E v))).
      destruct v; try discriminate; now injection H. }
    exists (VDatetime d). split; [constructor|reflexivity].
Qed.


Lemma coerce_inv g rule st x st' :
  coerce_with g rule st = (Ok x, st') ->
  st' = st
  /\ exists v, (get_value rule st).1 = Ok v
               /\ ((g v = None /\ x = rule) \/ g v = Some (Ok x)).
Proof.
  unfold coerce_with, bind. pose proof (get_value_pure rule st) as Hp.
  destruct (get_value rule st) as [[v|e] st1]; cbn in *; [subst st1|discriminate].
  destruct (g v) as [res|] eqn:Hg; unfold lift, ret; intros [= ? ?]; subst.
  - split; [reflexivity|]. exists v. auto.
  - split; [reflexivity|]. exists v. auto.
Qed.

Lemma coerce_run g rule st v :
  (get_value rule st).1 = Ok v ->
  coerce_with g rule st
  = (match g v with None => Ok rule | Some res => res end, st).
Proof.
  unfold coerce_with, bind. pose proof (get_value_pure rule st) as Hp.
  destruct (get_value rule st) as [[v'|e] st1]; cbn in *; [|discriminate].
  intros [= ->]. subst st1. destruct (g v); reflexivity.
Qed.

Lemma typed_leaf_value x v st : typed_leaf x v -> get_value x st = (Ok v, st).
Proof. now destruct 1. Qed.






(** A coerced node is returned as it is when coerced again later. *)
Lemma coerce_idempotent g rule st x sb :
  good_coercion g ->
  coerce_with g rule st = (Ok x, st) -> grows st sb ->
  coerce_with g x sb = (Ok x, sb).
Proof.
  intros [Hpass Hleaf] H G. apply coerce_inv in H as (_ & v & Hv & Hx).
  destruct Hx as [[Hg ->]|Hg].
  - destruct (Hpass _ Hg) as [Hnone Hint].
    assert ((get_value rule sb).1 = Ok v) as Hv'.
    { destruct rule; try exact Hv. cbn in *. injection Hv as Hv.
      unfold read in *. destruct (st !! value) as [u|] eqn:Hu; cbn in Hv.
      - subst u. now rewrite (grows_keep _ _ _ _ G Hint Hu).
      - now destruct Hnone. }
    rewrite (coerce_run g _ _ _ Hv'), Hg. reflexivity.
  - destruct (Hleaf _ _ Hg) as (v' & Ht & Hg').
    rewrite (coerce_run g x sb v'), Hg'; [reflexivity|].
    now rewrite (typed_leaf_value _ _ _ Ht).
Qed.




(** ** The callbacks of the operation nodes *)

Lemma compile_logical E w op l r st :
  compile E w (LogicalBinOpRule op l r) st
  = (let* l' := compile E w l in
     let* r' := compile E w r in
     ret (LogicalBinOpRule op l' r')) st.
Proof. reflexivity. Qed.

Lemma compile_unary E w op r st :
  compile E w (UnaryOperationRule op r) st
  = (let* r' := compile E w r in ret (UnaryOperationRule op r')) st.
Proof. reflexivity. Qed.

Lemma compile_comparison E w op l r st :
  compile E w (ComparisonBinOpRule op l r) st
  = (let* l' := compile E w l in
     let* r' := compile E w r in
     IDEAFilterCompiler.binary_operation_comparison E
       (ComparisonBinOpRule op l r) l' r') st.
Proof. reflexivity. Qed.

Lemma compile_math E w op l r st :
  compile E w (MathBinOpRule op l r) st
  = (let* l' := compile E w l in
     let* r' := compile E w r in
     IDEAFilterCompiler.binary_operation_math E (MathBinOpRule op l r) l' r') st.
Proof. reflexivity. Qed.

Lemma comparison_unfold E op l0 r0 lt rt st :
  IDEAFilterCompiler.binary_operation_comparison E
    (ComparisonBinOpRule op l0 r0) lt rt st
  = match chosen E lt rt with
    | Raise e => (Raise e, st)
    | Ok None => (Ok (ComparisonBinOpRule op lt rt), st)
    | Ok (Some (val, c)) =>
        (let* right' :=
           (if is_ListRule val
            then let* result := mapM (comp_i c) (get_items val) in
                 ret (comp_l c result)
            else comp_i c val) in
         ret (ComparisonBinOpRule op lt right')) st
    end.
Proof.
  unfold IDEAFilterCompiler.binary_operation_comparison, chosen,
    IDEAFilterCompiler.var_and_val.
  destruct (is_VariableRule lt) eqn:Hl, (is_VariableRule rt) eqn:Hr;
    cbn [andb negb]; try reflexivity.
  - destruct lt; try discriminate. cbn [get_value].
    unfold bind at 1 2. unfold ret at 1. unfold bind at 1. unfold lift at 1.
    destruct (clean_variable value) as [path|e]; cbn [rbind]; [|reflexivity].
    destruct (dict_get (COMPILATIONS_IDEA_OBJECT E) path) as [c|];
      cbn [fmap option_fmap option_map]; [|reflexivity].
    unfold bind, ret, get_operation.
    destruct (is_ListRule rt).
    + destruct (mapM (comp_i c) (get_items rt) st) as [[x|e] s1]; reflexivity.
    + destruct (comp_i c rt st) as [[x|e] s1]; reflexivity.
  - destruct rt; try discriminate. cbn [get_value].
    unfold bind at 1 2. unfold ret at 1. unfold bind at 1. unfold lift at 1.
    destruct (clean_variable value) as [path|e]; cbn [rbind]; [|reflexivity].
    destruct (dict_get (COMPILATIONS_IDEA_OBJECT E) path) as [c|];
      cbn [fmap option_fmap option_map]; [|reflexivity].
    unfold bind, ret, get_operation.
    destruct (is_ListRule lt).
    + destruct (mapM (comp_i c) (get_items lt) st) as [[x|e] s1]; reflexivity.
    + destruct (comp_i c lt st) as [[x|e] s1]; reflexivity.
Qed.


Lemma chosen_left_variable E name path c x :
  clean_variable name = Ok path ->
  dict_get (COMPILATIONS_IDEA_OBJECT E) path = Some c ->
  is_VariableRule x = false ->
  chosen E (VariableRule name) x = Ok (Some (x, c)).
Proof.
  intros Hp Hc Hx. unfold chosen, IDEAFilterCompiler.var_and_val.
  cbn [is_VariableRule]. rewrite Hx. cbn [andb negb]. rewrite Hp.
  cbn [rbind]. now rewrite Hc.
Qed.

Lemma chosen_right_variable E name path c x :
  clean_variable name = Ok path ->
  dict_get (COMPILATIONS_IDEA_OBJECT E) path = Some c ->
  is_VariableRule x = false ->
  chosen E x (VariableRule name) = Ok (Some (x, c)).
Proof.
  intros Hp Hc Hx. unfold chosen, IDEAFilterCompiler.var_and_val.
  cbn [is_VariableRule]. rewrite Hx. cbn [andb negb]. rewrite Hp.
  cbn [rbind]. now rewrite Hc.
Qed.


(** ** C1: the comparison callback *)

(** C1, as the code runs: the coerced value is always stored in [right].
    When the right child is a variable whose canonical path is in the table
    and the compiled left child is not a variable, the rebuilt node has the
    compiled left child on the left and its coerced form on the right: the
    variable is gone.  At ["Source.IP4"]: with the variable on the left the
    node keeps it and gets the coerced value on the right; with the variable
    on the right the rebuilt node has the raw value on the left and the
    coerced value where the variable was. *)
Theorem C1_coerced_value_always_goes_right :
  forall E w op,
    (forall l name path c st l1 s1,
       compile E w l st = (Ok l1, s1) ->
       is_VariableRule l1 = false ->
       clean_variable name = Ok path ->
       dict_get (COMPILATIONS_IDEA_OBJECT E) path = Some c ->
       compile E w (ComparisonBinOpRule op l (VariableRule name)) st
       = (let* coerced :=
            (if is_ListRule l1
             then let* result := mapM (comp_i c) (get_items l1) in
                  ret (comp_l c result)
             else comp_i c l1) in
          ret (ComparisonBinOpRule op l1 coerced)) s1)
    /\ (forall s st,
          compile E w
            (ComparisonBinOpRule op (VariableRule (VStr "Source.IP4"))
               (ConstantRule (VStr s))) st
          = (rmap (fun r =>
                     ComparisonBinOpRule op (VariableRule (VStr "Source.IP4"))
                       (IPV4Rule (VRange r)))
                  (from_str_v4 E (VStr s)), st)
          /\ compile E w
               (ComparisonBinOpRule op (ConstantRule (VStr s))
                  (VariableRule (VStr "Source.IP4"))) st
             = (rmap (fun r =>
                        ComparisonBinOpRule op (ConstantRule (VStr s))
                          (IPV4Rule (VRange r)))
                     (from_str_v4 E (VStr s)), st)).
Proof.
  intros E w op. split.
  - intros l name path c st l1 s1 Hl Hv Hp Hc.
    rewrite compile_comparison, (bind_ok _ _ _ _ _ Hl).
    assert (compile E w (VariableRule name) s1 = (Ok (VariableRule name), s1))
      as Hvar by reflexivity.
    rewrite (bind_ok _ _ _ _ _ Hvar), comparison_unfold.
    now rewrite (chosen_right_variable _ _ _ _ _ Hp Hc Hv).
  - intros s st. split; cbn;
      unfold IDEAFilterCompiler.binary_operation_comparison, compile_ip_v4,
        bind, lift, ret; cbn;
      destruct (from_str_v4 E (VStr s)); reflexivity.
Qed.

Lemma C1_coerced_value_always_goes_right_witness :
  compile Sample.externals true
    (ComparisonBinOpRule "OP_EQ" (ConstantRule (VStr "192.0.2.0/24"))
       (VariableRule (VStr "Source.IP4[0]"))) []
  = (Ok (ComparisonBinOpRule "OP_EQ" (ConstantRule (VStr "192.0.2.0/24"))
           (IPV4Rule (VRange (IPRange 4 3221225984 3221226239)))), []).
Proof.
  destruct (C1_coerced_value_always_goes_right Sample.externals true "OP_EQ")
    as [H _].
  exact (H (ConstantRule (VStr "192.0.2.0/24")) (VStr "Source.IP4[0]")
           "Source.IP4"
           {| comp_i := compile_ip_v4 Sample.externals; comp_l := IPListRule |}
           [] (ConstantRule (VStr "192.0.2.0/24")) []
           eq_refl eq_refl eq_refl eq_refl).
Defined.

(** ** C7: compiling a compiled tree *)

(** *** Trees that look the same are chosen the same *)







(** *** Trees that look alike are compiled alike *)









Lemma settled_integer st c :
  settled st (IntegerRule c) <-> exists z, st !! c = Some (VInt z).
Proof.
  unfold settled. cbn. split.
  - now intros H%Forall_inv.
  - intros H. now constructor.
Qed.

(** The literals made from the elements of a folded list. *)
Lemma fresh_integers (pre rs : store) :
  Forall2 (fun x v => exists c, x = IntegerRule c /\ (pre ++ rs) !! c = Some v)
    (map IntegerRule (seq (length pre) (length rs))) rs.
Proof.
  revert pre. induction rs as [|r t IH]; intros pre; cbn; constructor.
  - exists (length pre). split; [reflexivity|]. apply list_lookup_middle.
    reflexivity.
  - specialize (IH (pre ++ [r])). rewrite length_app in IH. cbn in IH.
    replace (length pre + 1)%nat with (S (length pre)) in IH by lia.
    now rewrite <- app_assoc in IH.
Qed.



(** *** Compiling the same tree again, later *)





Lemma walk_cons {R} (T : Traverser R) w x t st :
  walk T w (x :: t) st = (let* _ := traverse T w x in walk T w t) st.
Proof. reflexivity. Qed.







(** *** Compiled trees are stable *)
























(** * Further properties of the module *)

(** ** The evaluator only reads *)

Lemma read_only_ret {A} (a : A) : read_only (ret a).
Proof. intros st. reflexivity. Qed.

Lemma read_only_raise {A} e : read_only (@raise A e).
Proof. intros st. reflexivity. Qed.

Lemma read_only_lift {A} (r : result A) : read_only (lift r).
Proof. intros st. reflexivity. Qed.

Lemma read_only_get_value rule : read_only (get_value rule).
Proof. intros st. apply get_value_pure. Qed.

Lemma read_only_get_operation rule : read_only (get_operation rule).
Proof. destruct rule; intros st; reflexivity. Qed.

Lemma read_only_bind {A B} (m : M A) (k : A -> M B) :
  read_only m -> (forall a, read_only (k a)) -> read_only (bind m k).
Proof.
  intros Hm Hk st. unfold bind. specialize (Hm st).
  destruct (m st) as [[a|e] st1]; cbn in Hm; subst st1; [apply Hk|reflexivity].
Qed.

Lemma read_only_mapM {A B} (f : A -> M B) l :
  Forall (fun a => read_only (f a)) l -> read_only (mapM f l).
Proof.
  induction 1 as [|x t Hx _ IH]; cbn [mapM]; [apply read_only_ret|].
  apply read_only_bind; [exact Hx|intros y].
  apply read_only_bind; [exact IH|intros ys]. apply read_only_ret.
Qed.

Lemma read_only_walk {R} (T : Traverser R) w items :
  Forall (fun x => read_only (traverse T w x)) items ->
  read_only (walk T w items).
Proof.
  induction 1 as [|x t Hx _ IH]; [apply read_only_ret|].
  intros st. rewrite walk_cons. revert st.
  apply read_only_bind; [exact Hx|intros _; exact IH].
Qed.

Ltac read_only :=
  repeat first
    [ apply read_only_ret | apply read_only_raise | apply read_only_lift
    | apply read_only_get_value | apply read_only_get_operation
    | apply read_only_bind; [|intros ?] ].

Lemma read_only_values rule : read_only (values rule).
Proof.
  destruct rule; try apply read_only_raise; cbn [values]; read_only;
    apply read_only_mapM, Forall_forall; intros x _; apply read_only_get_value.
Qed.

Lemma filter_read_only E w rule data :
  read_only (DataObjectFilter.filter E w rule data).
Proof.
  unfold DataObjectFilter.filter.
  induction rule using Rule_induction;
    try (cbn [traverse DataObjectFilter.callbacks on_variable on_constant
              on_ipv4 on_ipv6 on_datetime on_integer];
         unfold DataObjectFilter.variable, DataObjectFilter.constant,
           DataObjectFilter.ipv4, DataObjectFilter.ipv6,
           DataObjectFilter.datetime, DataObjectFilter.integer;
         read_only; fail).
  - rewrite traverse_ListRule. apply read_only_bind.
    + destruct w; [now apply read_only_walk|apply read_only_ret].
    + intros _. apply read_only_values.
  - rewrite traverse_IPListRule. apply read_only_bind.
    + destruct w; [now apply read_only_walk|apply read_only_ret].
    + intros _. apply read_only_values.
  - cbn [traverse]. apply read_only_bind; [exact IHrule1|intros lv].
    apply read_only_bind; [exact IHrule2|intros rv].
    cbn. unfold DataObjectFilter.binary_operation_logical. read_only.
  - cbn [traverse]. apply read_only_bind; [exact IHrule1|intros lv].
    apply read_only_bind; [exact IHrule2|intros rv].
    cbn. unfold DataObjectFilter.binary_operation_comparison. read_only.
  - cbn [traverse]. apply read_only_bind; [exact IHrule1|intros lv].
    apply read_only_bind; [exact IHrule2|intros rv].
    cbn. unfold DataObjectFilter.binary_operation_math. read_only.
  - cbn [traverse]. apply read_only_bind; [exact IHrule|intros rv].
    cbn. unfold DataObjectFilter.unary_operation. read_only.
Qed.

(** X1: evaluating a rule on a record assigns to no node: whatever the tree,
    the record and the outcome, the store of node values is afterwards what
    it was. *)
Theorem filter_leaves_the_tree_as_it_is :
  forall E w rule data st,
    (DataObjectFilter.filter E w rule data st).2 = st.
Proof. intros E w rule data st. apply filter_read_only. Qed.

(** ** More on path canonicalization *)

Lemma CVRE_sub_plain l : "["%char ∉ l -> CVRE_sub 0 l = l.
Proof.
  induction l as [|c t IH]; [reflexivity|]. intros H.
  apply not_elem_of_cons in H as [Hc Ht].
  cbn. destruct (Ascii.eqb_spec c "[") as [->|_]; [congruence|].
  now rewrite (IH Ht).
Qed.

(** X2: a path with no opening bracket is its own canonical form. *)
Theorem clean_variable_keeps_a_plain_path :
  forall s,
    "["%char ∉ list_ascii_of_string s -> clean_variable (VStr s) = Ok s.
Proof.
  intros s H. unfold clean_variable.
  now rewrite (CVRE_sub_plain _ H), string_of_list_ascii_of_string.
Qed.

Lemma clean_variable_keeps_a_plain_path_witness :
  clean_variable (VStr "Node.SW") = Ok "Node.SW".
Proof.
  apply clean_variable_keeps_a_plain_path. cbn.
  repeat (apply not_elem_of_cons; split; [discriminate|]).
  apply not_elem_of_nil.
Defined.

Lemma length_of_string s :
  String.length s = length (list_ascii_of_string s).
Proof. induction s as [|c s IH]; cbn; congruence. Qed.

Lemma CVRE_sub_sublist k l : sublist (CVRE_sub k l) l.
Proof.
  revert k. induction l as [|c t IH]; intros k; [constructor|].
  cbn [CVRE_sub]. destruct k as [|k]; [|constructor; apply IH].
  destruct (CVRE_match (c :: t)); constructor; apply IH.
Qed.

(** X3: canonicalization only deletes: the canonical form of a path is
    what is left of the path after removing some of its characters, the
    others in their order; so it is never longer than the path. *)
Theorem clean_variable_only_deletes :
  forall s,
    exists path,
      clean_variable (VStr s) = Ok path
      /\ sublist (list_ascii_of_string path) (list_ascii_of_string s)
      /\ (String.length path <= String.length s)%nat.
Proof.
  intros s. eexists. split; [reflexivity|].
  rewrite list_ascii_of_string_of_list_ascii.
  pose proof (CVRE_sub_sublist 0 (list_ascii_of_string s)) as H.
  split; [exact H|].
  apply sublist_length in H.
  now rewrite !length_of_string, list_ascii_of_string_of_list_ascii.
Qed.

Lemma CVRE_sub_plain_prefix pre l :
  "["%char ∉ pre -> CVRE_sub 0 (pre ++ l) = pre ++ CVRE_sub 0 l.
Proof.
  induction pre as [|c t IH]; [reflexivity|]. intros H.
  apply not_elem_of_cons in H as [Hc Ht].
  cbn. destruct (Ascii.eqb_spec c "[") as [->|_]; [congruence|].
  now rewrite (IH Ht).
Qed.

Lemma digits_have_no_bracket ds :
  forallb is_digit ds = true -> "["%char ∉ ds.
Proof.
  intros H Hin. rewrite forallb_forall in H.
  apply list_elem_of_In in Hin. now specialize (H _ Hin).
Qed.

Lemma CVRE_sub_bracket_bracket l :
  CVRE_sub 0 ("["%char :: "["%char :: l) = "["%char :: CVRE_sub 0 ("["%char :: l).
Proof. reflexivity. Qed.

(** X4: canonicalization is one scan from the left and is not repeated on
    its result.  Where an index segment stands inside brackets before
    further digits, only that inner segment is removed, and what is left is
    again an index segment, which a second canonicalization removes. *)
Theorem clean_variable_is_a_single_pass :
  forall pre ds1 ds2 post,
    "["%char ∉ pre -> "["%char ∉ post ->
    ds1 <> [] -> forallb is_digit ds1 = true ->
    ds2 <> [] -> forallb is_digit ds2 = true ->
    let text l := VStr (string_of_list_ascii l) in
    let inner := "["%char :: ds1 ++ ["]"%char] in
    let once := pre ++ "["%char :: ds2 ++ "]"%char :: post in
    clean_variable (text (pre ++ "["%char :: inner ++ ds2 ++ "]"%char :: post))
    = Ok (string_of_list_ascii once)
    /\ clean_variable (text once) = Ok (string_of_list_ascii (pre ++ post)).
Proof.
  intros pre ds1 ds2 post Hpre Hpost N1 D1 N2 D2. cbn zeta.
  unfold clean_variable.
  rewrite !list_ascii_of_string_of_list_ascii. split; f_equal; f_equal.
  - rewrite (CVRE_sub_plain_prefix _ _ Hpre). f_equal.
    cbn [app]. rewrite CVRE_sub_bracket_bracket. f_equal.
    rewrite <- app_assoc. cbn [app].
    rewrite (CVRE_sub_index ds1 _ N1 D1).
    apply CVRE_sub_plain. intros Hin.
    apply elem_of_app in Hin as [Hin|Hin];
      [now apply (digits_have_no_bracket ds2)|].
    apply elem_of_cons in Hin as [Hin|Hin]; [discriminate|contradiction].
  - rewrite (CVRE_sub_plain_prefix _ _ Hpre).
    rewrite (CVRE_sub_index ds2 post N2 D2). f_equal.
    now apply CVRE_sub_plain.
Qed.

Lemma clean_variable_is_a_single_pass_witness :
  clean_variable (VStr "Node[[0]1].SW") = Ok "Node[1].SW"
  /\ clean_variable (VStr "Node[1].SW") = Ok "Node.SW".
Proof.
  apply (clean_variable_is_a_single_pass
           (list_ascii_of_string "Node") (list_ascii_of_string "0")
           (list_ascii_of_string "1") (list_ascii_of_string ".SW"));
    try reflexivity; try discriminate; cbn;
    repeat (apply not_elem_of_cons; split; [discriminate|]);
    apply not_elem_of_nil.
Defined.

(** ** Comparisons that are not coerced *)

Lemma chosen_same_kind E lt rt :
  is_VariableRule lt = is_VariableRule rt -> chosen E lt rt = Ok None.
Proof.
  intros H. unfold chosen, IDEAFilterCompiler.var_and_val. rewrite H.
  now destruct (is_VariableRule rt).
Qed.

Lemma chosen_off_the_table E lt rt s path :
  lt = VariableRule (VStr s) \/ rt = VariableRule (VStr s) ->
  clean_variable (VStr s) = Ok path ->
  dict_get (COMPILATIONS_IDEA_OBJECT E) path = None ->
  chosen E lt rt = Ok None.
Proof.
  intros Hv Hp Hd.
  destruct (is_VariableRule lt) eqn:Hl, (is_VariableRule rt) eqn:Hr;
    try (apply chosen_same_kind; congruence).
  - destruct Hv as [->| ->]; [|discriminate].
    unfold chosen, IDEAFilterCompiler.var_and_val. cbn [is_VariableRule].
    rewrite Hr. cbn [andb negb]. rewrite Hp. cbn [rbind]. now rewrite Hd.
  - destruct Hv as [->| ->]; [discriminate|].
    unfold chosen, IDEAFilterCompiler.var_and_val. cbn [is_VariableRule].
    rewrite Hl. cbn [andb negb]. rewrite Hp. cbn [rbind]. now rewrite Hd.
Qed.

(** X5: a comparison is only rebuilt over its compiled children, neither of
    them coerced, when both or none of them is a variable, and when the
    variable's canonical path is no key of the coercion table. *)
Theorem comparison_off_the_table_is_only_rebuilt :
  forall E w op l r st l1 s1 r1 s2,
    compile E w l st = (Ok l1, s1) ->
    compile E w r s1 = (Ok r1, s2) ->
    is_VariableRule l1 = is_VariableRule r1
    \/ (exists s path,
          (l1 = VariableRule (VStr s) \/ r1 = VariableRule (VStr s))
          /\ clean_variable (VStr s) = Ok path
          /\ dict_get (COMPILATIONS_IDEA_OBJECT E) path = None) ->
    compile E w (ComparisonBinOpRule op l r) st
    = (Ok (ComparisonBinOpRule op l1 r1), s2).
Proof.
  intros E w op l r st l1 s1 r1 s2 Hl Hr H.
  rewrite compile_comparison.
  rewrite (bind_ok _ _ _ _ _ Hl), (bind_ok _ _ _ _ _ Hr), comparison_unfold.
  assert (chosen E l1 r1 = Ok None) as ->; [|reflexivity].
  destruct H as [H|(s & path & Hv & Hp & Hd)].
  - now apply chosen_same_kind.
  - eapply chosen_off_the_table; eassumption.
Qed.

Lemma comparison_off_the_table_is_only_rebuilt_witness :
  compile Sample.externals true
    (ComparisonBinOpRule "OP_LIKE" (VariableRule (VStr "ID"))
       (ConstantRule (VStr "e214d2d9"))) []
  = (Ok (ComparisonBinOpRule "OP_LIKE" (VariableRule (VStr "ID"))
           (ConstantRule (VStr "e214d2d9"))), []).
Proof.
  apply (comparison_off_the_table_is_only_rebuilt Sample.externals true
           "OP_LIKE" _ _ [] _ [] _ []); [reflexivity|reflexivity|].
  right. exists "ID", "ID". repeat split. now left.
Defined.

(** X6: a variable whose name is not a string cannot be canonicalized: a
    comparison of it with anything that is not a variable raises a
    [TypeError], on whichever side it stands, once both children are
    compiled. *)
Theorem comparison_with_a_variable_without_a_string_name_raises :
  forall E w op name val st val1 st1,
    (forall s, name <> VStr s) ->
    compile E w val st = (Ok val1, st1) ->
    is_VariableRule val1 = false ->
    compile E w (ComparisonBinOpRule op (VariableRule name) val) st
    = (Raise TypeError, st1)
    /\ compile E w (ComparisonBinOpRule op val (VariableRule name)) st
       = (Raise TypeError, st1).
Proof.
  intros E w op name val st val1 st1 Hn Hc Hv.
  assert (clean_variable name = Raise TypeError) as Hclean.
  { destruct name; try reflexivity. now destruct (Hn s). }
  split; rewrite compile_comparison.
  - unfold bind at 1. cbn [traverse IDEAFilterCompiler.compile
      IDEAFilterCompiler.callbacks on_variable IDEAFilterCompiler.variable ret].
    rewrite (bind_ok _ _ _ _ _ Hc), comparison_unfold.
    unfold chosen, IDEAFilterCompiler.var_and_val. cbn [is_VariableRule].
    rewrite Hv. cbn [andb negb]. now rewrite Hclean.
  - rewrite (bind_ok _ _ _ _ _ Hc).
    unfold bind at 1. cbn [traverse IDEAFilterCompiler.compile
      IDEAFilterCompiler.callbacks on_variable IDEAFilterCompiler.variable ret].
    rewrite comparison_unfold.
    unfold chosen, IDEAFilterCompiler.var_and_val. cbn [is_VariableRule].
    rewrite Hv. cbn [andb negb]. now rewrite Hclean.
Qed.

Lemma comparison_with_a_variable_without_a_string_name_raises_witness :
  compile Sample.externals true
    (ComparisonBinOpRule "OP_EQ" (VariableRule VNone) (IntegerRule 0)) [VInt 1]
  = (Raise TypeError, [VInt 1])
  /\ compile Sample.externals true
       (ComparisonBinOpRule "OP_EQ" (IntegerRule 0) (VariableRule VNone))
       [VInt 1]
     = (Raise TypeError, [VInt 1]).
Proof.
  apply (comparison_with_a_variable_without_a_string_name_raises
           Sample.externals true "OP_EQ" VNone (IntegerRule 0) [VInt 1]
           (IntegerRule 0) [VInt 1]);
    [discriminate|reflexivity|reflexivity].
Defined.

(** ** The coercion helpers and the table *)

Lemma helper_shape E (h : Rule -> M Rule) :
  h = compile_ip_v4 E \/ h = compile_ip_v6 E \/ h = compile_datetime E ->
  exists g,
    good_coercion g
    /\ (forall rule st, h rule st = coerce_with g rule st)
    /\ (forall v, g v = None -> typed_value v).
Proof.
  intros [->|[->| ->]].
  - exists (ip_v4_of E). split; [apply good_ip_v4_of|].
    split; [apply compile_ip_v4_shape|].
    intros v; destruct v; try discriminate. intros _. left. eauto.
  - exists (ip_v6_of E). split; [apply good_ip_v6_of|].
    split; [apply compile_ip_v6_shape|].
    intros v; destruct v; try discriminate. intros _. left. eauto.
  - exists (datetime_of E). split; [apply good_datetime_of|].
    split; [apply compile_datetime_shape|].
    intros v; destruct v; try discriminate. intros _. right. eauto.
Qed.

Lemma table_entry_cases E path c :
  dict_get (COMPILATIONS_IDEA_OBJECT E) path = Some c ->
  (comp_i c = compile_datetime E /\ comp_l c = ListRule)
  \/ ((comp_i c = compile_ip_v4 E \/ comp_i c = compile_ip_v6 E)
      /\ comp_l c = IPListRule).
Proof.
  unfold COMPILATIONS_IDEA_OBJECT, dict_get.
  repeat (destruct (String.eqb path _); [intros [= <-]; cbn; auto|]).
  discriminate.
Qed.

Lemma table_entry_helper E path c :
  dict_get (COMPILATIONS_IDEA_OBJECT E) path = Some c ->
  comp_i c = compile_ip_v4 E \/ comp_i c = compile_ip_v6 E
  \/ comp_i c = compile_datetime E.
Proof.
  intros H. destruct (table_entry_cases E path c H) as [[? _]|[[?|?] _]]; auto.
Qed.

(** X7: the three coercion helpers write nothing and are idempotent: what
    one of them returns, it returns again when it is applied to it. *)
Theorem coercion_helpers_are_idempotent :
  forall E (h : Rule -> M Rule) rule st x st',
    h = compile_ip_v4 E \/ h = compile_ip_v6 E \/ h = compile_datetime E ->
    h rule st = (Ok x, st') ->
    st' = st /\ h x st = (Ok x, st).
Proof.
  intros E h rule st x st' Hh H.
  destruct (helper_shape E h Hh) as (g & Hg & Hs & _).
  rewrite Hs in H. destruct (coerce_inv _ _ _ _ _ H) as [-> _].
  split; [reflexivity|]. rewrite Hs.
  eapply coerce_idempotent; [exact Hg|exact H|apply grows_refl].
Qed.

Lemma coercion_helpers_are_idempotent_witness :
  let x := DatetimeRule (VDatetime (mkdatetime 2023 5 1 10 0 0 0)) in
  ([] : store) = []
  /\ compile_datetime Sample.externals x [] = (Ok x, []).
Proof.
  apply (coercion_helpers_are_idempotent Sample.externals
           (compile_datetime Sample.externals)
           (ConstantRule (VStr "2023-05-01T10:00:00Z")) []);
    [auto|reflexivity].
Defined.

Lemma walk_constants E w vs st :
  walk (IDEAFilterCompiler.callbacks E) w (map ConstantRule vs) st = (Ok tt, st).
Proof. induction vs as [|v vs IH]; [reflexivity|exact IH]. Qed.

Lemma compile_list_of_constants E w vs st :
  compile E w (ListRule (map ConstantRule vs)) st
  = (Ok (ListRule (map ConstantRule vs)), st).
Proof.
  unfold compile, IDEAFilterCompiler.compile. rewrite traverse_ListRule.
  assert ((if w then walk (IDEAFilterCompiler.callbacks E) w (map ConstantRule vs)
           else ret tt) st = (Ok tt, st)) as Hw.
  { destruct w; [apply walk_constants|reflexivity]. }
  now rewrite (bind_ok _ _ _ _ _ Hw).
Qed.

Lemma mapM_constants (f : Rule -> M Rule) vs xs st :
  Forall2 (fun v x => f (ConstantRule v) st = (Ok x, st)) vs xs ->
  mapM f (map ConstantRule vs) st = (Ok xs, st).
Proof.
  induction 1 as [|v x vs xs Hv _ IH]; [reflexivity|].
  cbn [map mapM]. rewrite (bind_ok _ _ _ _ _ Hv), (bind_ok _ _ _ _ _ IH).
  reflexivity.
Qed.

Lemma mapM_constants_raise (f : Rule -> M Rule) vs xs bad e rest st :
  Forall2 (fun v x => f (ConstantRule v) st = (Ok x, st)) vs xs ->
  f (ConstantRule bad) st = (Raise e, st) ->
  mapM f (map ConstantRule (vs ++ bad :: rest)) st = (Raise e, st).
Proof.
  intros H Hbad. induction H as [|v x vs xs Hv _ IH].
  - cbn [app map mapM]. unfold bind. now rewrite Hbad.
  - cbn [app map mapM]. rewrite (bind_ok _ _ _ _ _ Hv).
    unfold bind. now rewrite IH.
Qed.

Lemma compile_comparison_with_list E w op name path c vs st :
  clean_variable name = Ok path ->
  dict_get (COMPILATIONS_IDEA_OBJECT E) path = Some c ->
  compile E w
    (ComparisonBinOpRule op (VariableRule name) (ListRule (map ConstantRule vs)))
    st
  = (let* result := mapM (comp_i c) (map ConstantRule vs) in
     ret (ComparisonBinOpRule op (VariableRule name) (comp_l c result))) st.
Proof.
  intros Hp Hd. rewrite compile_comparison.
  unfold bind at 1. cbn [traverse IDEAFilterCompiler.compile
    IDEAFilterCompiler.callbacks on_variable IDEAFilterCompiler.variable ret].
  rewrite (bind_ok _ _ _ _ _ (compile_list_of_constants E w vs st)).
  rewrite comparison_unfold.
  rewrite (chosen_left_variable E name path c
             (ListRule (map ConstantRule vs)) Hp Hd eq_refl).
  cbn [is_ListRule get_items]. unfold bind, ret.
  destruct (mapM (comp_i c) (map ConstantRule vs) st) as [[xs|e] s]; reflexivity.
Qed.

Lemma comparison_with_list_coerced E w op name path c vs xs st :
  clean_variable name = Ok path ->
  dict_get (COMPILATIONS_IDEA_OBJECT E) path = Some c ->
  Forall2 (fun v x => comp_i c (ConstantRule v) st = (Ok x, st)) vs xs ->
  compile E w
    (ComparisonBinOpRule op (VariableRule name) (ListRule (map ConstantRule vs)))
    st
  = (Ok (ComparisonBinOpRule op (VariableRule name) (comp_l c xs)), st).
Proof.
  intros Hp Hd H.
  rewrite (compile_comparison_with_list E w op name path c vs st Hp Hd).
  now rewrite (bind_ok _ _ _ _ _ (mapM_constants _ _ _ _ H)).
Qed.

(** X8: when a variable with a path of the table is compared with a list of
    constants, the constants are coerced one by one, in their order, with
    the coercion of that path, and the list constructor of that path gets
    the results: as many items as there were constants.  The first constant
    that the coercion rejects makes the compilation raise its error. *)
Theorem list_value_is_coerced_item_by_item :
  forall E w op name path c st,
    clean_variable name = Ok path ->
    dict_get (COMPILATIONS_IDEA_OBJECT E) path = Some c ->
    let compared vs :=
      ComparisonBinOpRule op (VariableRule name)
        (ListRule (map ConstantRule vs)) in
    (forall vs xs,
       Forall2 (fun v x => comp_i c (ConstantRule v) st = (Ok x, st)) vs xs ->
       compile E w (compared vs) st
       = (Ok (ComparisonBinOpRule op (VariableRule name) (comp_l c xs)), st)
       /\ length xs = length vs)
    /\ (forall vs xs bad e rest,
          Forall2 (fun v x => comp_i c (ConstantRule v) st = (Ok x, st)) vs xs ->
          comp_i c (ConstantRule bad) st = (Raise e, st) ->
          compile E w (compared (vs ++ bad :: rest)) st = (Raise e, st)).
Proof.
  intros E w op name path c st Hp Hd compared. subst compared. split.
  - intros vs xs H. split; [|symmetry; eapply Forall2_length; exact H].
    now apply (comparison_with_list_coerced E w op name path c).
  - intros vs xs bad e rest H Hbad.
    rewrite (compile_comparison_with_list E w op name path c _ st Hp Hd).
    unfold bind.
    now rewrite (mapM_constants_raise _ _ _ _ _ _ _ H Hbad).
Qed.

Lemma list_value_is_coerced_item_by_item_witness :
  let name := VariableRule (VStr "Source.IP4[1]") in
  let compared vs :=
    ComparisonBinOpRule "OP_IN" name (ListRule (map ConstantRule vs)) in
  compile Sample.externals true (compared [VStr "10.0.0.1"; VStr "10.0.0.0/8"]) []
  = (Ok (ComparisonBinOpRule "OP_IN" name
           (IPListRule [IPV4Rule (VRange (IPRange 4 167772161 167772161));
                        IPV4Rule (VRange (IPRange 4 167772160 184549375))])),
     [])
  /\ compile Sample.externals true
       (compared [VStr "10.0.0.1"; VStr "ten"; VStr "10.0.0.0/8"]) []
     = (Raise (ValueError "does not appear as an address"), []).
Proof.
  destruct (list_value_is_coerced_item_by_item Sample.externals true "OP_IN"
              (VStr "Source.IP4[1]") "Source.IP4"
              {| comp_i := compile_ip_v4 Sample.externals;
                 comp_l := IPListRule |} [] eq_refl eq_refl) as [Hok Hbad].
  split.
  - apply (Hok [VStr "10.0.0.1"; VStr "10.0.0.0/8"]
               [IPV4Rule (VRange (IPRange 4 167772161 167772161));
                IPV4Rule (VRange (IPRange 4 167772160 184549375))]).
    repeat constructor.
  - apply (Hbad [VStr "10.0.0.1"]
                [IPV4Rule (VRange (IPRange 4 167772161 167772161))]
                (VStr "ten") _ [VStr "10.0.0.0/8"]);
      [repeat constructor|reflexivity].
Defined.

Lemma compile_comparison_with_constant E w op name path c v st :
  clean_variable name = Ok path ->
  dict_get (COMPILATIONS_IDEA_OBJECT E) path = Some c ->
  compile E w
    (ComparisonBinOpRule op (VariableRule name) (ConstantRule v)) st
  = (let* x := comp_i c (ConstantRule v) in
     ret (ComparisonBinOpRule op (VariableRule name) x)) st.
Proof.
  intros Hp Hd. rewrite compile_comparison. unfold bind at 1 2.
  cbn [traverse IDEAFilterCompiler.compile IDEAFilterCompiler.callbacks
       on_variable on_constant IDEAFilterCompiler.variable
       IDEAFilterCompiler.constant ret].
  rewrite comparison_unfold.
  rewrite (chosen_left_variable E name path c (ConstantRule v) Hp Hd eq_refl).
  cbn [is_ListRule]. unfold bind, ret.
  destruct (comp_i c (ConstantRule v) st) as [[x|e] s]; reflexivity.
Qed.

(** X9: the table gives every path the coercion of its kind.  A string
    that is compared with a variable on one of the two IPv4 paths is parsed
    by the IPv4 parser into an [IPV4Rule], on one of the two IPv6 paths by
    the IPv6 parser into an [IPV6Rule], and on one of the six time paths it
    is coerced by [compile_datetime]; index segments in the name of the
    variable make no difference. *)
Theorem table_path_selects_the_coercion_of_its_kind :
  forall E w op name path s st,
    clean_variable name = Ok path ->
    let compared :=
      compile E w
        (ComparisonBinOpRule op (VariableRule name) (ConstantRule (VStr s))) st
    in
    (path ∈ ["Source.IP4"; "Target.IP4"] ->
     compared
     = (rmap (fun r =>
                ComparisonBinOpRule op (VariableRule name) (IPV4Rule (VRange r)))
             (from_str_v4 E (VStr s)), st))
    /\ (path ∈ ["Source.IP6"; "Target.IP6"] ->
        compared
        = (rmap (fun r =>
                   ComparisonBinOpRule op (VariableRule name)
                     (IPV6Rule (VRange r)))
                (from_str_v6 E (VStr s)), st))
    /\ (path ∈ ["CreateTime"; "DetectTime"; "EventTime"; "CeaseTime";
                "WinStartTime"; "WinEndTime"] ->
        compared
        = (let* x := compile_datetime E (ConstantRule (VStr s)) in
           ret (ComparisonBinOpRule op (VariableRule name) x)) st).
Proof.
  intros E w op name path s st Hp compared. subst compared.
  repeat split; intros Hin;
    repeat (apply elem_of_cons in Hin as [->|Hin]);
    try (now apply elem_of_nil in Hin);
    (erewrite compile_comparison_with_constant; [|exact Hp|reflexivity]);
    try reflexivity;
    cbn [comp_i]; unfold compile_ip_v4, compile_ip_v6;
    cbn [get_value]; unfold bind, ret, lift;
    match goal with |- context [from_str_v4 E ?v] => destruct (from_str_v4 E v)
                  | |- context [from_str_v6 E ?v] => destruct (from_str_v6 E v)
    end; reflexivity.
Qed.

Lemma table_path_selects_the_coercion_of_its_kind_witness :
  compile Sample.externals true
    (ComparisonBinOpRule "OP_EQ" (VariableRule (VStr "Target.IP6[0]"))
       (ConstantRule (VStr "2001:db8:0:0:0:0:0:1"))) []
  = (Ok (ComparisonBinOpRule "OP_EQ" (VariableRule (VStr "Target.IP6[0]"))
           (IPV6Rule
              (VRange (IPRange 6 42540766411282592856903984951653826561
                         42540766411282592856903984951653826561)))), []).
Proof.
  destruct (table_path_selects_the_coercion_of_its_kind Sample.externals true
              "OP_EQ" (VStr "Target.IP6[0]") "Target.IP6"
              "2001:db8:0:0:0:0:0:1" [] eq_refl) as (_ & H & _).
  apply H. apply elem_of_cons. right. apply elem_of_cons. now left.
Defined.

(** ** Compiling, then evaluating *)

Lemma helper_on_constant E (h : Rule -> M Rule) v x st st' :
  h = compile_ip_v4 E \/ h = compile_ip_v6 E \/ h = compile_datetime E ->
  h (ConstantRule v) st = (Ok x, st') ->
  exists cv,
    typed_value cv
    /\ (forall s, get_value x s = (Ok cv, s))
    /\ (forall E' w data s,
          DataObjectFilter.filter E' w x data s = (Ok cv, s)).
Proof.
  intros Hh H. destruct (helper_shape E h Hh) as (g & [_ Hg] & Hs & Hnone).
  rewrite Hs in H. apply coerce_inv in H as (_ & v0 & [= <-] & H).
  destruct H as [[Hv ->]|Hv].
  - exists v. split; [now apply Hnone|]. now split.
  - destruct (Hg _ _ Hv) as (cv & Hleaf & Hcv). exists cv.
    split; [now apply Hnone|]. destruct Hleaf; now split.
Qed.

Lemma entry_on_constant E path c v x st st' :
  dict_get (COMPILATIONS_IDEA_OBJECT E) path = Some c ->
  comp_i c (ConstantRule v) st = (Ok x, st') ->
  exists cv,
    typed_value cv
    /\ (forall s, get_value x s = (Ok cv, s))
    /\ (forall E' w data s,
          DataObjectFilter.filter E' w x data s = (Ok cv, s)).
Proof.
  intros Hd. apply (helper_on_constant E), (table_entry_helper E path c Hd).
Qed.

Lemma entry_on_constants E path c vs xs st :
  dict_get (COMPILATIONS_IDEA_OBJECT E) path = Some c ->
  Forall2 (fun v x => comp_i c (ConstantRule v) st = (Ok x, st)) vs xs ->
  exists cvs,
    Forall typed_value cvs /\ length cvs = length vs
    /\ (forall s, mapM get_value xs s = (Ok cvs, s))
    /\ (forall E' w data s,
          walk (DataObjectFilter.callbacks E' data) w xs s = (Ok tt, s)).
Proof.
  intros Hd. induction 1 as [|v x vs xs Hv _ (cvs & Ht & Hlen & Hget & Hwalk)].
  - exists []. repeat split; constructor.
  - destruct (entry_on_constant E path c v x st st Hd Hv)
      as (cv & Hcv & Hg & Hf).
    exists (cv :: cvs). split; [now constructor|].
    split; [cbn; congruence|]. split.
    + intros s. cbn [mapM].
      now rewrite (bind_ok _ _ _ _ _ (Hg s)), (bind_ok _ _ _ _ _ (Hget s)).
    + intros E' w data s. rewrite walk_cons.
      specialize (Hf E' w data s). unfold DataObjectFilter.filter in Hf.
      rewrite (bind_ok _ _ _ _ _ Hf). apply Hwalk.
Qed.

Lemma filter_comparison_with_variable E w op name x data st :
  DataObjectFilter.filter E w
    (ComparisonBinOpRule op (VariableRule name) x) data st
  = (let* lv := lift (jpath_values E data name) in
     let* rv := DataObjectFilter.filter E w x data in
     lift (evaluate_binop_comparison E op lv rv (Some data))) st.
Proof. reflexivity. Qed.

(** X10: compiling and then evaluating a comparison of a variable whose path
    is in the table with a constant hands the comparison of the evaluator
    the values of the record at the variable and the coerced constant: an
    address range or a [datetime], never the text it was written as.  With a
    list of constants it gets the sequence of the coerced constants, as many
    and in their order, as a [ListIP] for an address path and as a list for a
    time path. *)
Theorem compiled_comparison_is_evaluated_on_coerced_values :
  forall E w op name path c data st,
    clean_variable name = Ok path ->
    dict_get (COMPILATIONS_IDEA_OBJECT E) path = Some c ->
    (forall v x,
       comp_i c (ConstantRule v) st = (Ok x, st) ->
       exists cv,
         typed_value cv
         /\ get_value x st = (Ok cv, st)
         /\ compile_then_filter E w
              (ComparisonBinOpRule op (VariableRule name) (ConstantRule v))
              data st
            = (let? lv := jpath_values E data name in
               evaluate_binop_comparison E op lv cv (Some data), st))
    /\ (forall vs xs,
          Forall2 (fun v x => comp_i c (ConstantRule v) st = (Ok x, st)) vs xs ->
          exists cvs sequence,
            Forall typed_value cvs
            /\ mapM get_value xs st = (Ok cvs, st)
            /\ ((comp_i c = compile_datetime E /\ sequence = VList cvs)
                \/ ((comp_i c = compile_ip_v4 E \/ comp_i c = compile_ip_v6 E)
                    /\ sequence = VListIP cvs))
            /\ compile_then_filter E w
                 (ComparisonBinOpRule op (VariableRule name)
                    (ListRule (map ConstantRule vs))) data st
               = (let? lv := jpath_values E data name in
                  evaluate_binop_comparison E op lv sequence (Some data), st)).
Proof.
  intros E w op name path c data st Hp Hd. split.
  - intros v x Hx.
    destruct (entry_on_constant E path c v x st st Hd Hx) as (cv & Hcv & Hg & Hf).
    exists cv. split; [exact Hcv|]. split; [apply Hg|].
    unfold compile_then_filter.
    assert (compile E w
              (ComparisonBinOpRule op (VariableRule name) (ConstantRule v)) st
            = (Ok (ComparisonBinOpRule op (VariableRule name) x), st)) as Hc.
    { rewrite (compile_comparison_with_constant E w op name path c v st Hp Hd).
      now rewrite (bind_ok _ _ _ _ _ Hx). }
    rewrite (bind_ok _ _ _ _ _ Hc), filter_comparison_with_variable.
    unfold bind at 1. unfold lift at 1.
    destruct (jpath_values E data name) as [lv|e]; [|reflexivity].
    now rewrite (bind_ok _ _ _ _ _ (Hf E w data st)).
  - intros vs xs Hxs.
    destruct (entry_on_constants E path c vs xs st Hd Hxs)
      as (cvs & Hcvs & _ & Hg & Hw).
    pose proof (comparison_with_list_coerced E w op name path c vs xs st
                  Hp Hd Hxs) as Hc.
    assert (exists sequence,
              ((comp_i c = compile_datetime E /\ sequence = VList cvs)
               \/ ((comp_i c = compile_ip_v4 E \/ comp_i c = compile_ip_v6 E)
                   /\ sequence = VListIP cvs))
              /\ DataObjectFilter.filter E w (comp_l c xs) data st
                 = (Ok sequence, st)) as (sequence & Hkind & Hseq).
    { assert ((if w then walk (DataObjectFilter.callbacks E data) w xs
               else ret tt) st = (Ok tt, st)) as Hwalk.
      { destruct w; [apply Hw|reflexivity]. }
      destruct (table_entry_cases E path c Hd) as [[Hi Hl]|[Hi Hl]]; rewrite Hl.
      - exists (VList cvs). split; [auto|].
        unfold DataObjectFilter.filter. rewrite traverse_ListRule.
        rewrite (bind_ok _ _ _ _ _ Hwalk). cbn.
        unfold DataObjectFilter.list, values.
        now rewrite (bind_ok _ _ _ _ _ (Hg st)).
      - exists (VListIP cvs). split; [auto|].
        unfold DataObjectFilter.filter. rewrite traverse_IPListRule.
        rewrite (bind_ok _ _ _ _ _ Hwalk). cbn.
        unfold DataObjectFilter.list, values.
        now rewrite (bind_ok _ _ _ _ _ (Hg st)). }
    exists cvs, sequence. split; [exact Hcvs|]. split; [apply Hg|].
    split; [exact Hkind|].
    unfold compile_then_filter.
    rewrite (bind_ok _ _ _ _ _ Hc), filter_comparison_with_variable.
    unfold bind at 1. unfold lift at 1.
    destruct (jpath_values E data name) as [lv|e]; [|reflexivity].
    now rewrite (bind_ok _ _ _ _ _ Hseq).
Qed.

Lemma compiled_comparison_is_evaluated_on_coerced_values_witness :
  let data := VDict [("Source.IP4", VStr "10.0.0.1")] in
  let x := IPV4Rule (VRange (IPRange 4 167772160 184549375)) in
  exists cv,
    typed_value cv
    /\ get_value x [] = (Ok cv, [])
    /\ compile_then_filter Sample.externals true
         (ComparisonBinOpRule "OP_IN" (VariableRule (VStr "Source.IP4"))
            (ConstantRule (VStr "10.0.0.0/8"))) data []
       = (let? lv := jpath_values Sample.externals data (VStr "Source.IP4") in
          evaluate_binop_comparison Sample.externals "OP_IN" lv cv (Some data),
          []).
Proof.
  destruct (compiled_comparison_is_evaluated_on_coerced_values
              Sample.externals true "OP_IN" (VStr "Source.IP4") "Source.IP4"
              {| comp_i := compile_ip_v4 Sample.externals;
                 comp_l := IPListRule |}
              (VDict [("Source.IP4", VStr "10.0.0.1")]) [] eq_refl eq_refl)
    as [H _].
  exact (H (VStr "10.0.0.0/8")
           (IPV4Rule (VRange (IPRange 4 167772160 184549375))) eq_refl).
Defined.

(** ** The timestamp pattern *)

Lemma take_digits_app n ds r :
  digits n ds -> take_digits n (ds ++ r) = Some (ds, r).
Proof.
  intros [Hlen Hd]. revert n Hlen. induction ds as [|c t IH]; intros n Hlen.
  - now subst n.
  - subst n. cbn in Hd. apply andb_prop in Hd as [Hc Ht].
    cbn. rewrite Hc, (IH Ht _ eq_refl). reflexivity.
Qed.

Lemma expect_inv p l c r :
  expect p l = Some (c, r) -> l = c :: r /\ p c = true.
Proof.
  destruct l as [|x t]; [discriminate|]. cbn.
  destruct (p x) eqn:Hp; [|discriminate]. now intros [= <- <-].
Qed.

Lemma expect_cons (p : ascii -> bool) c r :
  p c = true -> expect p (c :: r) = Some (c, r).
Proof. intros H. cbn. now rewrite H. Qed.

Lemma span_digits_inv l ds r :
  span_digits l = (ds, r) ->
  l = ds ++ r /\ forallb is_digit ds = true
  /\ match r with c :: _ => is_digit c = false | [] => True end.
Proof.
  revert ds r. induction l as [|c t IH]; intros ds r; cbn.
  - now intros [= <- <-].
  - destruct (is_digit c) eqn:Hc.
    + destruct (span_digits t) as [ds' r']. intros [= <- <-].
      destruct (IH _ _ eq_refl) as (-> & Hd & Hr). cbn. rewrite Hc. auto.
    + intros [= <- <-]. cbn. auto.
Qed.

Lemma span_digits_stop ds r :
  forallb is_digit ds = true ->
  match r with c :: _ => is_digit c = false | [] => True end ->
  span_digits (ds ++ r) = (ds, r).
Proof.
  intros Hd Hr. induction ds as [|c t IH].
  - destruct r as [|c r]; [reflexivity|]. cbn. now rewrite Hr.
  - cbn in Hd. apply andb_prop in Hd as [Hc Ht].
    cbn. now rewrite Hc, (IH Ht).
Qed.

Lemma zone_shape_head g :
  zone_shape g ->
  exists c t, g = c :: t /\ is_digit c = false /\ Ascii.eqb c "." = false.
Proof.
  intros [->|[->|(sign & h1 & h2 & m1 & m2 & -> & [->| ->] & _)]];
    eexists _, _; repeat split.
Qed.

Lemma ts_zone_inv l g r :
  ts_zone l = Some (g, r) -> zone_shape g /\ l = g ++ r.
Proof.
  destruct l as [|c t]; [discriminate|]. cbn [ts_zone].
  destruct (one_of "Z" "z" c) eqn:Hz.
  - intros [= <- <-]. split; [|reflexivity].
    unfold one_of in Hz. apply orb_prop in Hz as [Hz|Hz];
      apply Ascii.eqb_eq in Hz; subst c; [left|right; left]; reflexivity.
  - destruct (one_of "+" "-" c) eqn:Hs; [|discriminate].
    destruct (take_digits 2 t) as [[hh r1]|] eqn:Hh; [|discriminate].
    cbn [mbind option_bind].
    destruct (expect (is_char ":") r1) as [[x r2]|] eqn:Hx; [|discriminate].
    cbn [mbind option_bind].
    destruct (take_digits 2 r2) as [[mm r3]|] eqn:Hm; [|discriminate].
    cbn [mbind option_bind]. intros [= <- <-].
    apply take_digits_inv in Hh as (-> & Lh & Dh).
    apply take_digits_inv in Hm as (-> & Lm & Dm).
    apply expect_inv in Hx as (-> & Hx). apply Ascii.eqb_eq in Hx. subst x.
    destruct hh as [|h1 [|h2 [|]]]; try discriminate.
    destruct mm as [|m1 [|m2 [|]]]; try discriminate.
    cbn in Dh, Dm. repeat (apply andb_prop in Dh as [? Dh]).
    repeat (apply andb_prop in Dm as [? Dm]).
    split; [|reflexivity]. right. right. exists c, h1, h2, m1, m2.
    repeat split; try assumption.
    unfold one_of in Hs. apply orb_prop in Hs as [Hs|Hs];
      apply Ascii.eqb_eq in Hs; auto.
Qed.

Lemma ts_zone_app g r : zone_shape g -> ts_zone (g ++ r) = Some (g, r).
Proof.
  intros [->|[->|(sign & h1 & h2 & m1 & m2 & -> & Hs & H1 & H2 & H3 & H4)]];
    try reflexivity.
  cbn [app ts_zone].
  assert (one_of "Z" "z" sign = false) as -> by now destruct Hs as [->| ->].
  assert (one_of "+" "-" sign = true) as -> by now destruct Hs as [->| ->].
  change (h1 :: h2 :: ":"%char :: m1 :: m2 :: r)
    with ([h1; h2] ++ ":"%char :: [m1; m2] ++ r).
  rewrite (take_digits_app 2 [h1; h2]) by (split; [reflexivity|cbn; now rewrite H1, H2]).
  cbn [mbind option_bind expect]. change (is_char ":" ":") with true. cbv iota.
  cbn [mbind option_bind].
  rewrite (take_digits_app 2 [m1; m2]) by (split; [reflexivity|cbn; now rewrite H3, H4]).
  reflexivity.
Qed.

Lemma ts_fraction_inv l g r :
  ts_fraction l = Some (g, r) ->
  l = match g with Some f => "."%char :: f | None => [] end ++ r
  /\ match g with
     | Some f => f <> [] /\ forallb is_digit f = true
     | None => True
     end.
Proof.
  destruct l as [|c t]; [now intros [= <- <-]|]. cbn [ts_fraction].
  destruct (Ascii.eqb_spec c ".") as [->|_]; [|now intros [= <- <-]].
  destruct (span_digits t) as [ds r'] eqn:Hs.
  destruct ds as [|d ds]; [discriminate|]. intros [= <- <-].
  apply span_digits_inv in Hs as (-> & Hd & _). now repeat split.
Qed.

Lemma ts_fraction_app g r :
  match g with
  | Some f => f <> [] /\ forallb is_digit f = true
  | None => True
  end ->
  (exists c t, r = c :: t /\ is_digit c = false /\ Ascii.eqb c "." = false) ->
  ts_fraction (match g with Some f => "."%char :: f | None => [] end ++ r)
  = Some (g, r).
Proof.
  intros Hg (c & t & -> & Hc & Hdot). destruct g as [f|].
  - destruct Hg as [Hn Hd]. cbn [app ts_fraction].
    change (Ascii.eqb "." ".") with true. cbv iota.
    rewrite (span_digits_stop f (c :: t) Hd Hc).
    now destruct f.
  - cbn [app ts_fraction]. now rewrite Hdot.
Qed.

Lemma at_end_inv r : at_end r = true -> r = [] \/ r = ["010"%char].
Proof.
  destruct r as [|c [|]]; cbn; auto; [|discriminate].
  intros H. apply Ascii.eqb_eq in H. subst c. auto.
Qed.

Lemma one_of_inv a b c : one_of a b c = true -> c = a \/ c = b.
Proof.
  unfold one_of. intros H. apply orb_prop in H as [H|H];
    apply Ascii.eqb_eq in H; auto.
Qed.

Lemma TIMESTAMP_RE_match_groups l m :
  TIMESTAMP_RE_match l = Some m ->
  timestamp_groups m
  /\ exists sep tail,
       (sep = "T"%char \/ sep = "t"%char)
       /\ (tail = [] \/ tail = ["010"%char])
       /\ l = timestamp_text m sep tail.
Proof.
  unfold TIMESTAMP_RE_match.
  repeat match goal with
  | |- context [mbind _ (take_digits ?n ?x)] =>
      let H := fresh "D" in
      destruct (take_digits n x) as [[? ?]|] eqn:H; [|discriminate];
      cbn [mbind option_bind]; apply take_digits_inv in H as (-> & ? & ?)
  | |- context [mbind _ (expect ?p ?x)] =>
      let H := fresh "X" in
      destruct (expect p x) as [[? ?]|] eqn:H; [|discriminate];
      cbn [mbind option_bind]; apply expect_inv in H as (-> & H)
  end.
  destruct (ts_fraction _) as [[g7 r7]|] eqn:F; [|discriminate].
  cbn [mbind option_bind]. apply ts_fraction_inv in F as (-> & F).
  destruct (ts_zone _) as [[g8 r8]|] eqn:Z; [|discriminate].
  cbn [mbind option_bind]. apply ts_zone_inv in Z as (Z & ->).
  destruct (at_end r8) eqn:A; [|discriminate]. intros [= <-].
  apply at_end_inv in A.
  unfold is_char in *.
  repeat match goal with
         | H : Ascii.eqb _ _ = true |- _ => apply Ascii.eqb_eq in H; subst
         end.
  apply one_of_inv in X1.
  split; [unfold timestamp_groups, digits; cbn; auto 20|].
  eexists _, r8. split; [exact X1|]. split; [exact A|].
  unfold timestamp_text. cbn [group1 group2 group3 group4 group5 group6
                                group7 group8].
  now rewrite <- ?app_assoc.
Qed.

Lemma TIMESTAMP_RE_match_text m sep tail :
  timestamp_groups m ->
  sep = "T"%char \/ sep = "t"%char ->
  tail = [] \/ tail = ["010"%char] ->
  TIMESTAMP_RE_match (timestamp_text m sep tail) = Some m.
Proof.
  intros G Hsep Htail. revert G.
  destruct m as [g1 g2 g3 g4 g5 g6 g7 g8].
  unfold timestamp_groups, timestamp_text.
  cbn [group1 group2 group3 group4 group5 group6 group7 group8].
  intros (G1 & G2 & G3 & G4 & G5 & G6 & G7 & G8).
  unfold TIMESTAMP_RE_match.
  assert (one_of "T" "t" sep = true) as Hone by now destruct Hsep as [->| ->].
  rewrite (take_digits_app 4 g1 _ G1). cbn [mbind option_bind].
  rewrite (expect_cons _ _ _ (eq_refl : is_char "-" "-" = true)).
  cbn [mbind option_bind].
  rewrite (take_digits_app 2 g2 _ G2). cbn [mbind option_bind].
  rewrite (expect_cons _ _ _ (eq_refl : is_char "-" "-" = true)).
  cbn [mbind option_bind].
  rewrite (take_digits_app 2 g3 _ G3). cbn [mbind option_bind].
  rewrite (expect_cons _ _ _ Hone). cbn [mbind option_bind].
  rewrite (take_digits_app 2 g4 _ G4). cbn [mbind option_bind].
  rewrite (expect_cons _ _ _ (eq_refl : is_char ":" ":" = true)).
  cbn [mbind option_bind].
  rewrite (take_digits_app 2 g5 _ G5). cbn [mbind option_bind].
  rewrite (expect_cons _ _ _ (eq_refl : is_char ":" ":" = true)).
  cbn [mbind option_bind].
  rewrite (take_digits_app 2 g6 _ G6). cbn [mbind option_bind].
  rewrite (ts_fraction_app g7 _ G7).
  - cbn [mbind option_bind]. rewrite (ts_zone_app g8 tail G8).
    cbn [mbind option_bind]. now destruct Htail as [->| ->].
  - destruct (zone_shape_head g8 G8) as (c & t & -> & Hc & Hdot).
    exists c, (t ++ tail). auto.
Qed.

(** X11: [TIMESTAMP_RE] matches exactly the texts of its format.  A text
    matches with some groups if and only if the groups have the digits and
    the zone of the format, and the text is the groups joined by the
    separators, with either case of the letter between date and time, and
    nothing or a single line feed after the zone. *)
Theorem TIMESTAMP_RE_matches_exactly_its_format :
  forall l m,
    TIMESTAMP_RE_match l = Some m
    <-> timestamp_groups m
        /\ exists sep tail,
             (sep = "T"%char \/ sep = "t"%char)
             /\ (tail = [] \/ tail = ["010"%char])
             /\ l = timestamp_text m sep tail.
Proof.
  intros l m. split; [apply TIMESTAMP_RE_match_groups|].
  intros (G & sep & tail & Hsep & Htail & ->).
  now apply TIMESTAMP_RE_match_text.
Qed.

(** ** The fields of a timestamp *)

Lemma rstrip_digits ds : forallb is_digit ds = true -> rstrip ds = ds.
Proof.
  induction ds as [|c t IH]; [reflexivity|]. cbn [forallb]. intros H.
  apply andb_prop in H as [Hc Ht].
  rewrite (rstrip_cons c t (digit_is_no_space c Hc)). now rewrite (IH Ht).
Qed.

Lemma digits_to_end_digits acc b ds :
  forallb is_digit ds = true -> ds <> [] \/ b = true ->
  digits_to_end acc b ds
  = Some (fold_left (fun a c => a * 10 + digit_value c) ds acc).
Proof.
  revert acc b. induction ds as [|c t IH]; intros acc b Hd Hn.
  - destruct Hn as [Hn| ->]; [congruence|reflexivity].
  - cbn [forallb] in Hd. apply andb_prop in Hd as [Hc Ht].
    cbn [digits_to_end fold_left]. rewrite Hc. apply IH; auto.
Qed.

Lemma int_of_digits ds :
  ds <> [] -> forallb is_digit ds = true -> int_of_text ds = Ok (digits_value ds).
Proof.
  intros Hn Hd. unfold int_of_text, int_of_chars, strip.
  destruct ds as [|c t]; [congruence|].
  pose proof Hd as Hd'. cbn [forallb] in Hd'. apply andb_prop in Hd' as [Hc _].
  cbn [lstrip]. rewrite (digit_is_no_space c Hc), (rstrip_digits _ Hd).
  rewrite (digit_is_not c "+" Hc eq_refl), (digit_is_not c "-" Hc eq_refl).
  now rewrite (digits_to_end_digits 0 false (c :: t) Hd) by now left.
Qed.

Lemma int_or_0_digits n ds :
  digits (S n) ds -> int_or_0 ds = Ok (digits_value ds).
Proof.
  intros [Hlen Hd]. destruct ds as [|c t]; [discriminate|].
  unfold int_or_0. now apply int_of_digits.
Qed.

Lemma fraction_digits_digits fraction :
  match fraction with
  | Some f => f <> [] /\ forallb is_digit f = true
  | None => True
  end ->
  digits 6 (fraction_digits fraction).
Proof.
  intros H.
  assert (forall f, forallb is_digit f = true -> digits 6 (ljust6 f)) as Hl.
  { intros f Hf. unfold ljust6, digits. split.
    - rewrite length_app, repeat_length, length_take. lia.
    - rewrite forallb_app. apply andb_true_intro. split.
      + rewrite forallb_forall in *. intros x Hx. apply Hf.
        rewrite <- (take_drop 6 f). apply in_or_app. now left.
      + rewrite forallb_forall. intros x Hx. apply repeat_spec in Hx.
        now subst x. }
  unfold fraction_digits. destruct fraction as [[|c g]|]; now apply Hl.
Qed.

Lemma zone_split_shape g :
  zone_shape g ->
  exists z0 z1, zone_split g = Ok [z0; z1] /\ z0 * 60 + z1 = zone_minutes g.
Proof.
  intros [->|[->|(sign & h1 & h2 & m1 & m2 & -> & Hs & H1 & H2 & H3 & H4)]].
  - now exists 0, 0.
  - now exists 0, 0.
  - destruct Hs as [->| ->].
    + rewrite (zone_split_signed false h1 h2 m1 m2 H1 H2 H3 H4).
      eexists _, _. split; [reflexivity|]. unfold zone_minutes.
      change (Ascii.eqb "+" "-") with false. cbv iota. lia.
    + rewrite (zone_split_signed true h1 h2 m1 m2 H1 H2 H3 H4).
      eexists _, _. split; [reflexivity|]. unfold zone_minutes.
      change (Ascii.eqb "-" "-") with true. cbv iota. lia.
Qed.

Lemma datetime_of_match_groups m :
  timestamp_groups m ->
  datetime_of_match m
  = (let? naive := matched_fields m in
     datetime_sub naive (timedelta_minutes (zone_minutes (group8 m)))).
Proof.
  intros (G1 & G2 & G3 & G4 & G5 & G6 & G7 & G8).
  unfold datetime_of_match, matched_fields.
  rewrite (int_or_0_digits _ _ G1), (int_or_0_digits _ _ G2),
    (int_or_0_digits _ _ G3), (int_or_0_digits _ _ G4),
    (int_or_0_digits _ _ G5), (int_or_0_digits _ _ G6).
  cbn [rbind]. fold (fraction_digits (group7 m)).
  destruct (fraction_digits_digits _ G7) as [Hlen Hd].
  rewrite (int_of_digits (fraction_digits (group7 m)));
    [|intros Hnil; now rewrite Hnil in Hlen|exact Hd].
  cbn [rbind].
  destruct (zone_split_shape _ G8) as (z0 & z1 & -> & <-). reflexivity.
Qed.

(** X12: on a text that matches [TIMESTAMP_RE] no field fails to parse.
    [compile_datetime] reads the groups as the decimal numbers they write,
    the fraction from its first six digits, filled up with zeros, and
    returns the [datetime] of these fields minus the minutes of the zone;
    the only errors are the [ValueError] of a field that is out of range and
    the [OverflowError] of a result outside the years 1 to 9999. *)
Theorem compile_datetime_reads_every_matched_field :
  forall E rule s m st,
    get_value rule st = (Ok (VStr s), st) ->
    TIMESTAMP_RE_match (list_ascii_of_string s) = Some m ->
    let outcome :=
      let? naive := matched_fields m in
      datetime_sub naive (timedelta_minutes (zone_minutes (group8 m))) in
    compile_datetime E rule st
    = (rmap (fun d => DatetimeRule (VDatetime d)) outcome, st)
    /\ ((exists d, outcome = Ok d)
        \/ (exists msg, outcome = Raise (ValueError msg))
        \/ outcome = Raise OverflowError).
Proof.
  intros E rule s m st Hv Hm outcome.
  destruct (TIMESTAMP_RE_match_groups _ _ Hm) as [G _].
  rewrite (compile_datetime_rfc3339 E rule s m st Hv Hm).
  rewrite (datetime_of_match_groups m G). fold outcome.
  split; [reflexivity|].
  subst outcome. unfold matched_fields, datetime_new.
  match goal with |- context [if ?b then _ else _] => destruct b end;
    cbn [rbind]; [|eauto].
  unfold datetime_sub.
  match goal with |- context [if ?b then _ else _] => destruct b end;
    [|auto].
  left. destruct (_ord2ymd _) as [[y mo] d]. eauto.
Qed.

Lemma compile_datetime_reads_every_matched_field_witness :
  exists msg,
    compile_datetime Sample.externals
      (ConstantRule (VStr "2023-02-29T10:00:00Z")) []
    = (Raise (ValueError msg), []).
Proof.
  destruct (compile_datetime_reads_every_matched_field Sample.externals
              (ConstantRule (VStr "2023-02-29T10:00:00Z"))
              "2023-02-29T10:00:00Z"
              (mk_ts_match (list_ascii_of_string "2023")
                 (list_ascii_of_string "02") (list_ascii_of_string "29")
                 (list_ascii_of_string "10") (list_ascii_of_string "00")
                 (list_ascii_of_string "00") None (list_ascii_of_string "Z"))
              [] eq_refl eq_refl) as [H _].
  eexists. exact H.
Defined.

(** ** The numeric reading of a timestamp *)

(** X13: [compile_datetime] tries the numeric reading first and catches only
    its [TypeError] and [ValueError].  When [float] and [fromtimestamp]
    return, their [datetime] is the result and the pattern is not tried; any
    other exception of theirs, such as the [OverflowError] of an infinite or
    too large number, is raised by [compile_datetime]. *)
Theorem compile_datetime_numeric_reading_decides_first :
  forall E rule v st,
    get_value rule st = (Ok v, st) ->
    (forall d, v <> VDatetime d) ->
    let numeric := let? f := py_float E v in fromtimestamp E f in
    (forall d,
       numeric = Ok d ->
       compile_datetime E rule st = (Ok (DatetimeRule (VDatetime d)), st))
    /\ (forall e,
          numeric = Raise e ->
          e <> TypeError -> (forall msg, e <> ValueError msg) ->
          compile_datetime E rule st = (Raise e, st)).
Proof.
  intros E rule v st Hv Hd numeric. subst numeric.
  unfold compile_datetime. rewrite (bind_ok _ _ _ _ _ Hv).
  split.
  - intros d ->. destruct v; try reflexivity. now destruct (Hd d0).
  - intros e -> Ht Hm.
    destruct v; try (now destruct (Hd d));
      destruct e; try reflexivity; try congruence; now destruct (Hm msg).
Qed.

Lemma compile_datetime_numeric_reading_decides_first_witness :
  compile_datetime Sample.externals (ConstantRule (VStr "86400")) []
  = (Ok (DatetimeRule (VDatetime (mkdatetime 1970 1 2 0 0 0 0))), [])
  /\ compile_datetime Sample.externals (ConstantRule (VStr "inf")) []
     = (Raise OverflowError, []).
Proof.
  destruct (compile_datetime_numeric_reading_decides_first Sample.externals
              (ConstantRule (VStr "86400")) (VStr "86400") [] eq_refl
              ltac:(discriminate)) as [Hok _].
  destruct (compile_datetime_numeric_reading_decides_first Sample.externals
              (ConstantRule (VStr "inf")) (VStr "inf") [] eq_refl
              ltac:(discriminate)) as [_ Hbad].
  split.
  - apply Hok. reflexivity.
  - apply Hbad; [reflexivity|discriminate|discriminate].
Defined.

(** ** The calendar *)

Lemma ord2ymd_unfold n :
  _ord2ymd n
  = let n0 := n - 1 in
    let a := n0 / 146097 in let r400 := n0 mod 146097 in
    let b := r400 / 36524 in let r100 := r400 mod 36524 in
    let c := r100 / 1461 in let r4 := r100 mod 1461 in
    let e := r4 / 365 in let r1 := r4 mod 365 in
    let y := a * 400 + 1 + b * 100 + c * 4 + e in
    if (e =? 4) || (b =? 4) then (y - 1, 12, 31)
    else
      let '(m, d) := month_day ((e =? 3) && (negb (c =? 24) || (b =? 3))) r1 in
      (y, m, d).
Proof.
  unfold _ord2ymd, month_day, _DI400Y, _DI100Y, _DI4Y. cbv zeta.
  destruct (_ || _); [reflexivity|].
  destruct (_ <? _); reflexivity.
Qed.

Lemma is_leap_spec y :
  _is_leap y = true <-> y mod 4 = 0 /\ (y mod 100 <> 0 \/ y mod 400 = 0).
Proof.
  unfold _is_leap. rewrite andb_true_iff, orb_true_iff, negb_true_iff.
  rewrite !Z.eqb_eq, Z.eqb_neq. tauto.
Qed.

Lemma year_of_ordinal n0 :
  0 <= n0 ->
  let a := n0 / 146097 in let r400 := n0 mod 146097 in
  let b := r400 / 36524 in let r100 := r400 mod 36524 in
  let c := r100 / 1461 in let r4 := r100 mod 1461 in
  let e := r4 / 365 in let r1 := r4 mod 365 in
  0 <= a /\ 0 <= b <= 4 /\ 0 <= c <= 24 /\ 0 <= e <= 4 /\ 0 <= r1 <= 364
  /\ n0 = 146097 * a + 36524 * b + 1461 * c + 365 * e + r1
  /\ (b = 4 -> c = 0 /\ e = 0 /\ r1 = 0)
  /\ (e = 4 -> r1 = 0 /\ c <= 23)
  /\ (c = 24 -> b <= 3 -> e <= 3).
Proof.
  intros H. cbv zeta. Z.div_mod_to_equations. lia.
Qed.

Lemma days_before_year_split a b c e :
  0 <= a -> 0 <= b <= 3 -> 0 <= c <= 24 -> 0 <= e <= 3 ->
  _days_before_year (a * 400 + 1 + b * 100 + c * 4 + e)
  = 146097 * a + 36524 * b + 1461 * c + 365 * e.
Proof.
  intros. unfold _days_before_year. cbv zeta. Z.div_mod_to_equations. lia.
Qed.

Lemma is_leap_split a b c e :
  0 <= a -> 0 <= b <= 3 -> 0 <= c <= 24 -> 0 <= e <= 3 ->
  _is_leap (a * 400 + 1 + b * 100 + c * 4 + e)
  = (e =? 3) && (negb (c =? 24) || (b =? 3)).
Proof.
  intros. apply eq_true_iff_eq. rewrite is_leap_spec.
  rewrite andb_true_iff, orb_true_iff, negb_true_iff, !Z.eqb_eq, Z.eqb_neq.
  Z.div_mod_to_equations. lia.
Qed.

Lemma all_from_spec p from count :
  all_from p from count = true ->
  forall z, from <= z < from + Z.of_nat count -> p z = true.
Proof.
  revert from. induction count as [|k IH]; intros from H z Hz; [lia|].
  cbn [all_from] in H. apply andb_prop in H as [H0 H1].
  destruct (Z.eq_dec z from) as [->|Hne]; [exact H0|].
  apply (IH _ H1). lia.
Qed.

Lemma month_day_sound_all leap n :
  0 <= n <= 364 -> month_day_sound leap n = true.
Proof.
  intros H.
  assert (all_from (month_day_sound false) 0 365
          && all_from (month_day_sound true) 0 365 = true) as Hall
    by (vm_compute; reflexivity).
  apply andb_prop in Hall as [Hf Ht].
  destruct leap; [apply (all_from_spec _ _ _ Ht)|apply (all_from_spec _ _ _ Hf)];
    lia.
Qed.

Lemma month_day_complete_all leap m d :
  1 <= m <= 12 -> 1 <= d <= 31 -> month_day_complete leap m d = true.
Proof.
  intros Hm Hd.
  assert (all_from (fun m => all_from (month_day_complete false m) 1 31) 1 12
          && all_from (fun m => all_from (month_day_complete true m) 1 31) 1 12
          = true) as Hall by (vm_compute; reflexivity).
  apply andb_prop in Hall as [Hf Ht].
  destruct leap.
  - apply (all_from_spec _ _ _ (all_from_spec _ _ _ Ht m ltac:(lia))). lia.
  - apply (all_from_spec _ _ _ (all_from_spec _ _ _ Hf m ltac:(lia))). lia.
Qed.

Lemma days_in_month_bound leap m :
  1 <= m <= 12 -> days_in_month_in leap m <= 31.
Proof.
  intros Hm.
  assert (all_from (fun m => days_in_month_in false m <=? 31) 1 12
          && all_from (fun m => days_in_month_in true m <=? 31) 1 12 = true)
    as Hall by (vm_compute; reflexivity).
  apply andb_prop in Hall as [Hf Ht]. apply Z.leb_le.
  destruct leap;
    [apply (all_from_spec _ _ _ Ht)|apply (all_from_spec _ _ _ Hf)]; lia.
Qed.

(** The last day of a leap year. *)
Lemma last_day_of_leap_year a b c :
  0 <= a -> 0 <= b <= 3 -> 0 <= c <= 24 -> c <= 23 \/ b = 3 ->
  _ymd2ord (a * 400 + 1 + b * 100 + c * 4 + 3) 12 31
  = 146097 * a + 36524 * b + 1461 * c + 1461.
Proof.
  intros Ha Hb Hc Hl. unfold _ymd2ord, _days_before_month.
  rewrite (days_before_year_split a b c 3) by lia.
  rewrite (is_leap_split a b c 3) by lia.
  assert ((3 =? 3) && (negb (c =? 24) || (b =? 3)) = true) as ->.
  { destruct Hl as [Hl| ->]; [|now rewrite orb_true_r].
    assert ((c =? 24) = false) as -> by (apply Z.eqb_neq; lia). reflexivity. }
  change (table_at _DAYS_BEFORE_MONTH 12 + (if (2 <? 12) && true then 1 else 0))
    with 335.
  lia.
Qed.

(** The date of an ordinal has that ordinal, and is a date of the
    calendar. *)
Lemma ymd2ord_ord2ymd n :
  1 <= n <= _MAXORDINAL ->
  let '(y, m, d) := _ord2ymd n in
  _ymd2ord y m d = n
  /\ 1 <= y <= 9999 /\ 1 <= m <= 12 /\ 1 <= d <= _days_in_month y m.
Proof.
  unfold _MAXORDINAL. intros Hn. rewrite ord2ymd_unfold. cbv zeta.
  pose proof (year_of_ordinal (n - 1) ltac:(lia)) as Hy. cbv zeta in Hy.
  set (a := (n - 1) / 146097) in *.
  set (b := ((n - 1) mod 146097) / 36524) in *.
  set (c := (((n - 1) mod 146097) mod 36524) / 1461) in *.
  set (e := ((((n - 1) mod 146097) mod 36524) mod 1461) / 365) in *.
  set (r1 := ((((n - 1) mod 146097) mod 36524) mod 1461) mod 365) in *.
  destruct Hy as (Ha & Hb & Hc & He & Hr & Hsum & Hb4 & He4 & Hc24).
  destruct ((e =? 4) || (b =? 4)) eqn:Hspecial.
  - apply orb_prop in Hspecial.
    assert (exists b' c', 0 <= b' <= 3 /\ 0 <= c' <= 24 /\ (c' <= 23 \/ b' = 3)
              /\ a * 400 + 1 + b * 100 + c * 4 + e - 1
                 = a * 400 + 1 + b' * 100 + c' * 4 + 3
              /\ n = 146097 * a + 36524 * b' + 1461 * c' + 1461)
      as (b' & c' & Hb' & Hc' & Hl & Hyear & Hord).
    { destruct (Z.eq_dec b 4) as [Hb4'|Hb4'].
      - exists 3, 24. destruct (Hb4 Hb4') as (? & ? & ?). lia.
      - destruct Hspecial as [H|H]; apply Z.eqb_eq in H; [|contradiction].
        exists b, c. destruct (He4 H). lia. }
    rewrite Hyear, (last_day_of_leap_year a b' c' Ha Hb' Hc' Hl).
    split; [lia|]. split; [lia|]. split; [lia|].
    unfold _days_in_month. change (12 =? 2) with false. cbn [andb].
    change (table_at _DAYS_IN_MONTH 12) with 31. lia.
  - apply orb_false_elim in Hspecial as [He' Hb'].
    apply Z.eqb_neq in He', Hb'.
    pose proof (month_day_sound_all
                  ((e =? 3) && (negb (c =? 24) || (b =? 3))) r1 Hr) as Hmd.
    unfold month_day_sound in Hmd.
    destruct (month_day _ r1) as [m d].
    rewrite !andb_true_iff, !Z.leb_le, Z.eqb_eq in Hmd.
    destruct Hmd as ((((Hm1 & Hm2) & Hd1) & Hd2) & Hdoy).
    rewrite <- (is_leap_split a b c e) in Hd2, Hdoy by lia.
    unfold _ymd2ord, _days_before_month, _days_in_month.
    rewrite (days_before_year_split a b c e) by lia.
    unfold days_before_month_in, days_in_month_in in *.
    split; [lia|]. split; [lia|]. split; [lia|]. lia.
Qed.

Lemma year_split y :
  1 <= y <= 9999 ->
  exists a b c e,
    y = a * 400 + 1 + b * 100 + c * 4 + e
    /\ 0 <= a <= 24 /\ 0 <= b <= 3 /\ 0 <= c <= 24 /\ 0 <= e <= 3.
Proof.
  intros H.
  exists ((y - 1) / 400), ((y - 1) mod 400 / 100),
    ((y - 1) mod 400 mod 100 / 4), ((y - 1) mod 400 mod 100 mod 4).
  Z.div_mod_to_equations. lia.
Qed.

Lemma div_mod_split k q r :
  0 <= r < k -> (k * q + r) / k = q /\ (k * q + r) mod k = r.
Proof.
  intros H. split; symmetry;
    [apply (Z.div_unique _ k q r)|apply (Z.mod_unique _ k q r)]; auto.
Qed.

Lemma ordinal_split_by a b c e r :
  0 <= r + 365 * e < 1461 -> 0 <= r + 365 * e + 1461 * c < 36524 ->
  0 <= r + 365 * e + 1461 * c + 36524 * b < 146097 ->
  let n0 := 146097 * a + 36524 * b + 1461 * c + 365 * e + r in
  n0 / 146097 = a
  /\ n0 mod 146097 / 36524 = b
  /\ n0 mod 146097 mod 36524 / 1461 = c
  /\ n0 mod 146097 mod 36524 mod 1461 = 365 * e + r.
Proof.
  intros H4 H100 H400. cbv zeta.
  replace (146097 * a + 36524 * b + 1461 * c + 365 * e + r)
    with (146097 * a + (36524 * b + (1461 * c + (365 * e + r)))) by lia.
  destruct (div_mod_split 146097 a (36524 * b + (1461 * c + (365 * e + r)))
              ltac:(lia)) as [-> ->].
  destruct (div_mod_split 36524 b (1461 * c + (365 * e + r)) ltac:(lia))
    as [-> ->].
  destruct (div_mod_split 1461 c (365 * e + r) ltac:(lia)) as [-> ->].
  auto.
Qed.

Lemma ordinal_split a b c e r :
  0 <= a -> 0 <= b <= 3 -> 0 <= c <= 24 -> 0 <= e <= 3 -> 0 <= r <= 364 ->
  let n0 := 146097 * a + 36524 * b + 1461 * c + 365 * e + r in
  n0 / 146097 = a /\ n0 mod 146097 / 36524 = b
  /\ n0 mod 146097 mod 36524 / 1461 = c
  /\ n0 mod 146097 mod 36524 mod 1461 / 365 = e
  /\ n0 mod 146097 mod 36524 mod 1461 mod 365 = r.
Proof.
  intros Ha Hb Hc He Hr. cbv zeta.
  destruct (ordinal_split_by a b c e r ltac:(lia) ltac:(lia) ltac:(lia))
    as (-> & -> & -> & ->).
  destruct (div_mod_split 365 e r ltac:(lia)) as [-> ->]. auto.
Qed.

Lemma ordinal_split_last a b c :
  0 <= a -> 0 <= b <= 3 -> 0 <= c <= 23 ->
  let n0 := 146097 * a + 36524 * b + 1461 * c + 1460 in
  n0 / 146097 = a /\ n0 mod 146097 / 36524 = b
  /\ n0 mod 146097 mod 36524 / 1461 = c
  /\ n0 mod 146097 mod 36524 mod 1461 / 365 = 4
  /\ n0 mod 146097 mod 36524 mod 1461 mod 365 = 0.
Proof.
  intros Ha Hb Hc. cbv zeta.
  replace (146097 * a + 36524 * b + 1461 * c + 1460)
    with (146097 * a + 36524 * b + 1461 * c + 365 * 4 + 0) by lia.
  destruct (ordinal_split_by a b c 4 0 ltac:(lia) ltac:(lia) ltac:(lia))
    as (-> & -> & -> & ->).
  auto.
Qed.

Lemma ordinal_split_last_of_400 a :
  0 <= a ->
  let n0 := 146097 * a + 146096 in
  n0 / 146097 = a /\ n0 mod 146097 / 36524 = 4
  /\ n0 mod 146097 mod 36524 / 1461 = 0
  /\ n0 mod 146097 mod 36524 mod 1461 / 365 = 0
  /\ n0 mod 146097 mod 36524 mod 1461 mod 365 = 0.
Proof.
  intros Ha. cbv zeta.
  destruct (div_mod_split 146097 a 146096 ltac:(lia)) as [-> ->]. auto.
Qed.

(** The ordinal of a date of the calendar has that date. *)
Lemma ord2ymd_ymd2ord y m d :
  1 <= y <= 9999 -> 1 <= m <= 12 -> 1 <= d <= _days_in_month y m ->
  _ord2ymd (_ymd2ord y m d) = (y, m, d)
  /\ 1 <= _ymd2ord y m d <= _MAXORDINAL.
Proof.
  intros Hy Hm Hd.
  destruct (year_split y Hy) as (a & b & c & e & -> & Ha & Hb & Hc & He).
  set (y := a * 400 + 1 + b * 100 + c * 4 + e) in *.
  pose proof (days_in_month_bound (_is_leap y) m Hm) as Hd31.
  change (days_in_month_in (_is_leap y) m) with (_days_in_month y m) in Hd31.
  pose proof (month_day_complete_all (_is_leap y) m d Hm ltac:(lia)) as Hmd.
  unfold month_day_complete in Hmd.
  change (days_in_month_in (_is_leap y) m) with (_days_in_month y m) in Hmd.
  change (days_before_month_in (_is_leap y) m) with (_days_before_month y m)
    in Hmd.
  assert ((_days_in_month y m <? d) = false) as Hin by (apply Z.ltb_ge; lia).
  rewrite Hin in Hmd. cbn [orb] in Hmd.
  apply andb_prop in Hmd as [Hn0 Hmd]. apply Z.leb_le in Hn0.
  unfold _ymd2ord, _MAXORDINAL.
  assert (_days_before_year y
          = 146097 * a + 36524 * b + 1461 * c + 365 * e) as ->
    by (apply days_before_year_split; lia).
  set (n := _days_before_month y m + d - 1) in *.
  replace (146097 * a + 36524 * b + 1461 * c + 365 * e
           + _days_before_month y m + d)
    with (146097 * a + 36524 * b + 1461 * c + 365 * e + n + 1) by lia.
  rewrite ord2ymd_unfold. cbv zeta.
  replace (146097 * a + 36524 * b + 1461 * c + 365 * e + n + 1 - 1)
    with (146097 * a + 36524 * b + 1461 * c + 365 * e + n) by lia.
  destruct (364 <? n) eqn:Hlate.
  - apply andb_prop in Hmd as [Hmd H365].
    apply andb_prop in Hmd as [Hmd H31].
    apply andb_prop in Hmd as [Hmd H12].
    apply Z.eqb_eq in H365, H31, H12. subst m d.
    assert (e = 3 /\ (c <= 23 \/ b = 3)) as [-> Hl].
    { unfold y in Hmd. rewrite (is_leap_split a b c e) in Hmd by lia.
      apply andb_prop in Hmd as [H3 H24]. apply Z.eqb_eq in H3.
      split; [exact H3|]. apply orb_prop in H24 as [H24|H24].
      - apply negb_true_iff, Z.eqb_neq in H24. lia.
      - apply Z.eqb_eq in H24. lia. }
    destruct (Z.eq_dec c 24) as [->|Hc24].
    + assert (b = 3) as -> by lia.
      replace (146097 * a + 36524 * 3 + 1461 * 24 + 365 * 3 + n)
        with (146097 * a + 146096) by lia.
      destruct (ordinal_split_last_of_400 a ltac:(lia))
        as (-> & -> & -> & -> & ->).
      change ((0 =? 4) || (4 =? 4)) with true. cbv iota.
      split; [f_equal; f_equal; lia|lia].
    + replace (146097 * a + 36524 * b + 1461 * c + 365 * 3 + n)
        with (146097 * a + 36524 * b + 1461 * c + 1460) by lia.
      destruct (ordinal_split_last a b c ltac:(lia) ltac:(lia) ltac:(lia))
        as (-> & -> & -> & -> & ->).
      change (4 =? 4) with true. cbn [orb].
      split; [f_equal; f_equal; lia|lia].
  - apply Z.ltb_ge in Hlate.
    destruct (ordinal_split a b c e n ltac:(lia) Hb Hc He ltac:(lia))
      as (-> & -> & -> & -> & ->).
    assert ((e =? 4) || (b =? 4) = false) as ->.
    { apply orb_false_intro; apply Z.eqb_neq; lia. }
    rewrite <- (is_leap_split a b c e) by lia. fold y.
    destruct (month_day (_is_leap y) n) as [m' d'].
    apply andb_prop in Hmd as [Hm' Hd']. apply Z.eqb_eq in Hm', Hd'. subst m' d'.
    split; [reflexivity|lia].
Qed.

(** ** Subtracting the zone *)

Lemma datetime_new_inv y mo d h mi s us dt :
  datetime_new y mo d h mi s us = Ok dt ->
  dt = mkdatetime y mo d h mi s us
  /\ 1 <= y <= 9999 /\ 1 <= mo <= 12 /\ 1 <= d <= _days_in_month y mo
  /\ 0 <= h <= 23 /\ 0 <= mi <= 59 /\ 0 <= s <= 59 /\ 0 <= us <= 999999.
Proof.
  unfold datetime_new, between.
  destruct (_ && _) eqn:H; [|discriminate]. intros [= <-].
  rewrite !andb_true_iff, !Z.leb_le in H. intuition.
Qed.

Lemma datetime_new_ok y mo d h mi s us :
  1 <= y <= 9999 -> 1 <= mo <= 12 -> 1 <= d <= _days_in_month y mo ->
  0 <= h <= 23 -> 0 <= mi <= 59 -> 0 <= s <= 59 -> 0 <= us <= 999999 ->
  datetime_new y mo d h mi s us = Ok (mkdatetime y mo d h mi s us).
Proof.
  intros. unfold datetime_new, between.
  assert (_ && _ = true) as ->; [|reflexivity].
  rewrite !andb_true_iff, !Z.leb_le. intuition.
Qed.

Lemma time_of_day rest :
  0 <= rest < _US_PER_DAY ->
  let s := rest / 1000000 in
  0 <= s / 3600 <= 23 /\ 0 <= s mod 3600 / 60 <= 59
  /\ 0 <= s mod 3600 mod 60 <= 59 /\ 0 <= rest mod 1000000 <= 999999
  /\ (s / 3600 * 3600 + s mod 3600 / 60 * 60 + s mod 3600 mod 60) * 1000000
     + rest mod 1000000 = rest.
Proof.
  unfold _US_PER_DAY. intros H. cbv zeta.
  pose proof (Z.div_mod rest 1000000 ltac:(lia)) as E1.
  pose proof (Z.mod_pos_bound rest 1000000 ltac:(lia)) as B1.
  set (s := rest / 1000000) in *.
  assert (0 <= s < 86400) as Hs by lia.
  pose proof (Z.div_mod s 3600 ltac:(lia)) as E2.
  pose proof (Z.mod_pos_bound s 3600 ltac:(lia)) as B2.
  pose proof (Z.div_mod (s mod 3600) 60 ltac:(lia)) as E3.
  pose proof (Z.mod_pos_bound (s mod 3600) 60 ltac:(lia)) as B3.
  set (r := s mod 3600) in *. set (h := s / 3600) in *.
  set (mi := r / 60) in *. set (sec := r mod 60) in *.
  set (us := rest mod 1000000) in *.
  lia.
Qed.

Lemma time_of_day_split h mi s us :
  0 <= h <= 23 -> 0 <= mi <= 59 -> 0 <= s <= 59 -> 0 <= us <= 999999 ->
  let rest := (h * 3600 + mi * 60 + s) * 1000000 + us in
  0 <= rest < _US_PER_DAY
  /\ rest / 1000000 / 3600 = h /\ rest / 1000000 mod 3600 / 60 = mi
  /\ rest / 1000000 mod 3600 mod 60 = s /\ rest mod 1000000 = us.
Proof.
  unfold _US_PER_DAY. intros Hh Hmi Hs Hus. cbv zeta.
  replace ((h * 3600 + mi * 60 + s) * 1000000 + us)
    with (1000000 * (h * 3600 + mi * 60 + s) + us) by lia.
  destruct (div_mod_split 1000000 (h * 3600 + mi * 60 + s) us ltac:(lia))
    as [-> ->].
  replace (h * 3600 + mi * 60 + s) with (3600 * h + (60 * mi + s)) by lia.
  destruct (div_mod_split 3600 h (60 * mi + s) ltac:(lia)) as [-> ->].
  destruct (div_mod_split 60 mi s ltac:(lia)) as [-> ->].
  repeat split; lia.
Qed.

(** What [datetime_sub] returns is a [datetime] that the constructor
    accepts, and it stands [delta] before the [datetime] it was given. *)
Lemma datetime_sub_instant dt delta dt' :
  datetime_sub dt delta = Ok dt' ->
  instant dt' = instant dt - delta
  /\ datetime_new (year dt') (month dt') (day dt') (hour dt') (minute dt')
       (second dt') (microsecond dt') = Ok dt'.
Proof.
  unfold datetime_sub. fold (instant dt). cbv zeta.
  set (total := instant dt - delta).
  destruct ((0 <? total / _US_PER_DAY) && (total / _US_PER_DAY <=? _MAXORDINAL))
    eqn:Hdays; [|discriminate].
  apply andb_prop in Hdays as [Hlo Hhi].
  apply Z.ltb_lt in Hlo. apply Z.leb_le in Hhi.
  pose proof (ymd2ord_ord2ymd (total / _US_PER_DAY) ltac:(lia)) as Hord.
  destruct (_ord2ymd (total / _US_PER_DAY)) as [[y m] d].
  destruct Hord as (Hord & Hy & Hm & Hd). intros [= <-].
  assert (0 < _US_PER_DAY) as Hpos by (unfold _US_PER_DAY; lia).
  pose proof (Z.div_mod total _US_PER_DAY ltac:(lia)) as Edays.
  pose proof (Z.mod_pos_bound total _US_PER_DAY Hpos) as Brest.
  destruct (time_of_day (total mod _US_PER_DAY) Brest)
    as (Bh & Bmi & Bs & Bus & Etime).
  cbv zeta in Bh, Bmi, Bs, Bus, Etime.
  unfold instant at 1. cbn [year month day hour minute second microsecond].
  split.
  - rewrite Hord. unfold _US_PER_DAY in *. lia.
  - now apply datetime_new_ok.
Qed.

(** Subtracting nothing from a [datetime] that the constructor accepts
    gives it back. *)
Lemma datetime_sub_zero y mo d h mi s us dt :
  datetime_new y mo d h mi s us = Ok dt -> datetime_sub dt 0 = Ok dt.
Proof.
  intros (-> & Hy & Hmo & Hd & Hh & Hmi & Hs & Hus)%datetime_new_inv.
  destruct (ord2ymd_ymd2ord y mo d Hy Hmo Hd) as [Hback Hord].
  destruct (time_of_day_split h mi s us Hh Hmi Hs Hus)
    as (Brest & Eh & Emi & Es & Eus). cbv zeta in Brest, Eh, Emi, Es, Eus.
  unfold datetime_sub. cbn [year month day hour minute second microsecond].
  cbv zeta.
  set (rest := (h * 3600 + mi * 60 + s) * 1000000 + us) in *.
  replace ((_ymd2ord y mo d * 86400 + (h * 3600 + mi * 60 + s)) * 1000000
           + us - 0)
    with (_US_PER_DAY * _ymd2ord y mo d + rest)
    by (unfold _US_PER_DAY, rest; lia).
  destruct (div_mod_split _US_PER_DAY (_ymd2ord y mo d) rest Brest) as [-> ->].
  assert ((0 <? _ymd2ord y mo d) && (_ymd2ord y mo d <=? _MAXORDINAL) = true)
    as ->.
  { apply andb_true_intro. split; [apply Z.ltb_lt|apply Z.leb_le]; lia. }
  rewrite Hback, Eh, Emi, Es, Eus. reflexivity.
Qed.

(** ** Timestamps on the time line *)

Lemma digit_char_digit k :
  0 <= k <= 9 ->
  is_digit (digit_char k) = true /\ digit_value (digit_char k) = k.
Proof.
  intros H.
  assert (k = 0 \/ k = 1 \/ k = 2 \/ k = 3 \/ k = 4 \/ k = 5 \/ k = 6 \/ k = 7
          \/ k = 8 \/ k = 9) as Hk by lia.
  repeat (destruct Hk as [->|Hk]; [now split|]). subst k. now split.
Qed.

Lemma digits_value_app l c :
  digits_value (l ++ [c]) = digits_value l * 10 + digit_value c.
Proof. unfold digits_value. now rewrite fold_left_app. Qed.

Lemma pad_digits n z : digits n (pad n z).
Proof.
  revert z. induction n as [|n IH]; intros z; [now split|].
  destruct (IH (z / 10)) as [Hlen Hd]. cbn [pad]. split.
  - rewrite length_app, Hlen. cbn. lia.
  - rewrite forallb_app, Hd. cbn [forallb andb].
    destruct (digit_char_digit (z mod 10)) as [-> _]; [|reflexivity].
    pose proof (Z.mod_pos_bound z 10 ltac:(lia)). lia.
Qed.

Lemma pad_value n z :
  0 <= z < 10 ^ Z.of_nat n -> digits_value (pad n z) = z.
Proof.
  revert z. induction n as [|n IH]; intros z Hz.
  - cbn in *. unfold digits_value. cbn. lia.
  - rewrite Nat2Z.inj_succ, Z.pow_succ_r in Hz by lia.
    pose proof (Z.div_mod z 10 ltac:(lia)) as E.
    pose proof (Z.mod_pos_bound z 10 ltac:(lia)) as B.
    cbn [pad]. rewrite digits_value_app, IH.
    + destruct (digit_char_digit (z mod 10) ltac:(lia)) as [_ ->]. lia.
    + split; [apply Z.div_pos; lia|].
      apply Z.div_lt_upper_bound; lia.
Qed.

Lemma ljust6_six l : length l = 6%nat -> ljust6 l = l.
Proof.
  intros H. unfold ljust6. rewrite take_ge by lia. rewrite H.
  cbn. apply app_nil_r.
Qed.

Lemma fraction_digits_six l :
  length l = 6%nat -> fraction_digits (Some l) = l.
Proof.
  intros H. unfold fraction_digits. destruct l as [|c g]; [discriminate|].
  now apply ljust6_six.
Qed.

Lemma written_groups dt zone :
  zone_shape zone -> timestamp_groups (written dt zone).
Proof.
  intros Hz. unfold timestamp_groups, written.
  cbn [group1 group2 group3 group4 group5 group6 group7 group8].
  repeat (split; [apply pad_digits|]). split; [|exact Hz].
  destruct (pad_digits 6 (microsecond dt)) as [Hlen Hd].
  split; [|exact Hd]. intros Hnil. now rewrite Hnil in Hlen.
Qed.

Lemma written_fields y mo d h mi s us dt zone :
  datetime_new y mo d h mi s us = Ok dt ->
  matched_fields (written dt zone) = Ok dt.
Proof.
  intros H.
  pose proof H as (-> & Hy & Hmo & Hd & Hh & Hmi & Hs & Hus)%datetime_new_inv.
  pose proof (days_in_month_bound (_is_leap y) mo Hmo) as Hd31.
  change (days_in_month_in (_is_leap y) mo) with (_days_in_month y mo) in Hd31.
  unfold matched_fields, written.
  cbn [group1 group2 group3 group4 group5 group6 group7 group8
       year month day hour minute second microsecond].
  assert (fraction_digits (Some (pad 6 us)) = pad 6 us) as ->
    by apply fraction_digits_six, pad_digits.
  rewrite !pad_value by (cbn; lia). exact H.
Qed.

Lemma compile_datetime_of_text E m sep tail st :
  timestamp_groups m ->
  sep = "T"%char \/ sep = "t"%char ->
  tail = [] \/ tail = ["010"%char] ->
  compile_datetime E
    (ConstantRule (VStr (string_of_list_ascii (timestamp_text m sep tail)))) st
  = (rmap (fun d => DatetimeRule (VDatetime d))
       (let? naive := matched_fields m in
        datetime_sub naive (timedelta_minutes (zone_minutes (group8 m)))), st).
Proof.
  intros G Hsep Htail.
  rewrite (compile_datetime_rfc3339 E
             (ConstantRule
                (VStr (string_of_list_ascii (timestamp_text m sep tail))))
             (string_of_list_ascii (timestamp_text m sep tail)) m st eq_refl)
    by (rewrite list_ascii_of_string_of_list_ascii;
        now apply TIMESTAMP_RE_match_text).
  now rewrite (datetime_of_match_groups m G).
Qed.

(** X14: a [datetime] written as a timestamp in a zone of no offset is
    compiled back to that [datetime]: for every date and time of day that
    the [datetime] constructor accepts, the text of its fields with the zone
    [Z], [z], [+00:00] or [-00:00] is coerced to exactly these fields, on
    every platform. *)
Theorem compile_datetime_reads_back_a_written_datetime :
  forall E st y mo d h mi s us dt zone sep tail,
    datetime_new y mo d h mi s us = Ok dt ->
    zone_shape zone -> zone_minutes zone = 0 ->
    sep = "T"%char \/ sep = "t"%char ->
    tail = [] \/ tail = ["010"%char] ->
    compile_datetime E
      (ConstantRule
         (VStr (string_of_list_ascii
                  (timestamp_text (written dt zone) sep tail)))) st
    = (Ok (DatetimeRule (VDatetime dt)), st).
Proof.
  intros E st y mo d h mi s us dt zone sep tail Hdt Hz H0 Hsep Htail.
  pose proof (written_groups dt zone Hz) as G.
  rewrite (compile_datetime_of_text E _ sep tail st G Hsep Htail).
  rewrite (written_fields _ _ _ _ _ _ _ _ zone Hdt). cbn [rbind written group8].
  rewrite H0. change (timedelta_minutes 0) with 0.
  now rewrite (datetime_sub_zero _ _ _ _ _ _ _ _ Hdt).
Qed.

Lemma compile_datetime_reads_back_a_written_datetime_witness :
  compile_datetime Sample.externals
    (ConstantRule (VStr "2024-02-29t23:59:59.000001+00:00")) []
  = (Ok (DatetimeRule (VDatetime (mkdatetime 2024 2 29 23 59 59 1))), []).
Proof.
  apply (compile_datetime_reads_back_a_written_datetime Sample.externals []
           2024 2 29 23 59 59 1 (mkdatetime 2024 2 29 23 59 59 1)
           (list_ascii_of_string "+00:00") "t" []);
    [reflexivity| |reflexivity|now right|now left].
  right. right. exists "+"%char, "0"%char, "0"%char, "0"%char, "0"%char.
  repeat split. now left.
Defined.

(** X15: the [datetime] that a matching timestamp is compiled to is one
    that the [datetime] constructor accepts, and it stands before the
    written date and time by exactly the minutes the zone is taken for. *)
Theorem compile_datetime_shifts_by_the_zone :
  forall E rule s m st x st',
    get_value rule st = (Ok (VStr s), st) ->
    TIMESTAMP_RE_match (list_ascii_of_string s) = Some m ->
    compile_datetime E rule st = (Ok x, st') ->
    exists naive d,
      matched_fields m = Ok naive
      /\ x = DatetimeRule (VDatetime d) /\ st' = st
      /\ instant d = instant naive - zone_minutes (group8 m) * 60000000
      /\ datetime_new (year d) (month d) (day d) (hour d) (minute d)
           (second d) (microsecond d) = Ok d.
Proof.
  intros E rule s m st x st' Hv Hm.
  destruct (TIMESTAMP_RE_match_groups _ _ Hm) as [G _].
  rewrite (compile_datetime_rfc3339 E rule s m st Hv Hm).
  rewrite (datetime_of_match_groups m G).
  destruct (matched_fields m) as [naive|e]; [|discriminate]. cbn [rbind].
  destruct (datetime_sub naive _) as [d|e] eqn:Hsub; [|discriminate].
  intros [= <- <-]. exists naive, d.
  apply datetime_sub_instant in Hsub as [Hinst Hvalid].
  unfold timedelta_minutes in Hinst.
  repeat split; [lia|exact Hvalid].
Qed.

Lemma compile_datetime_shifts_by_the_zone_witness :
  exists naive d,
    matched_fields
      (mk_ts_match (list_ascii_of_string "2024") (list_ascii_of_string "01")
         (list_ascii_of_string "01") (list_ascii_of_string "00")
         (list_ascii_of_string "30") (list_ascii_of_string "00") None
         (list_ascii_of_string "+01:00")) = Ok naive
    /\ DatetimeRule (VDatetime (mkdatetime 2023 12 31 23 30 0 0))
       = DatetimeRule (VDatetime d)
    /\ ([] : store) = []
    /\ instant d = instant naive - 60 * 60000000
    /\ datetime_new (year d) (month d) (day d) (hour d) (minute d)
         (second d) (microsecond d) = Ok d.
Proof.
  apply (compile_datetime_shifts_by_the_zone Sample.externals
           (ConstantRule (VStr "2024-01-01T00:30:00+01:00"))
           "2024-01-01T00:30:00+01:00"
           (mk_ts_match (list_ascii_of_string "2024")
              (list_ascii_of_string "01") (list_ascii_of_string "01")
              (list_ascii_of_string "00") (list_ascii_of_string "30")
              (list_ascii_of_string "00") None
              (list_ascii_of_string "+01:00")) []);
    reflexivity.
Defined.

Lemma datetime_sub_by_instant dt1 delta1 dt2 delta2 :
  instant dt1 - delta1 = instant dt2 - delta2 ->
  datetime_sub dt1 delta1 = datetime_sub dt2 delta2.
Proof.
  intros H. unfold datetime_sub. fold (instant dt1). fold (instant dt2).
  cbv zeta. now rewrite H.
Qed.

(** X16: timestamps of one instant are compiled to one [datetime].  When the
    written dates and times of two matching timestamps, each moved back by
    the minutes its zone is taken for, are the same point of the time line,
    [compile_datetime] has the same outcome on both. *)
Theorem compile_datetime_of_the_same_instant :
  forall E rule1 rule2 s1 s2 m1 m2 naive1 naive2 st,
    get_value rule1 st = (Ok (VStr s1), st) ->
    get_value rule2 st = (Ok (VStr s2), st) ->
    TIMESTAMP_RE_match (list_ascii_of_string s1) = Some m1 ->
    TIMESTAMP_RE_match (list_ascii_of_string s2) = Some m2 ->
    matched_fields m1 = Ok naive1 -> matched_fields m2 = Ok naive2 ->
    instant naive1 - zone_minutes (group8 m1) * 60000000
    = instant naive2 - zone_minutes (group8 m2) * 60000000 ->
    compile_datetime E rule1 st = compile_datetime E rule2 st.
Proof.
  intros E rule1 rule2 s1 s2 m1 m2 naive1 naive2 st Hv1 Hv2 Hm1 Hm2 Hf1 Hf2 H.
  destruct (TIMESTAMP_RE_match_groups _ _ Hm1) as [G1 _].
  destruct (TIMESTAMP_RE_match_groups _ _ Hm2) as [G2 _].
  rewrite (compile_datetime_rfc3339 E rule1 s1 m1 st Hv1 Hm1).
  rewrite (compile_datetime_rfc3339 E rule2 s2 m2 st Hv2 Hm2).
  rewrite (datetime_of_match_groups m1 G1), (datetime_of_match_groups m2 G2).
  rewrite Hf1, Hf2. cbn [rbind].
  rewrite (datetime_sub_by_instant naive1 _ naive2
             (timedelta_minutes (zone_minutes (group8 m2)))); [reflexivity|].
  unfold timedelta_minutes. lia.
Qed.

Lemma compile_datetime_of_the_same_instant_witness :
  compile_datetime Sample.externals
    (ConstantRule (VStr "2024-03-01T01:30:00+02:00")) []
  = compile_datetime Sample.externals
      (ConstantRule (VStr "2024-02-29T23:30:00Z")) [].
Proof.
  apply (compile_datetime_of_the_same_instant Sample.externals
           (ConstantRule (VStr "2024-03-01T01:30:00+02:00"))
           (ConstantRule (VStr "2024-02-29T23:30:00Z"))
           "2024-03-01T01:30:00+02:00" "2024-02-29T23:30:00Z"
           (mk_ts_match (list_ascii_of_string "2024")
              (list_ascii_of_string "03") (list_ascii_of_string "01")
              (list_ascii_of_string "01") (list_ascii_of_string "30")
              (list_ascii_of_string "00") None
              (list_ascii_of_string "+02:00"))
           (mk_ts_match (list_ascii_of_string "2024")
              (list_ascii_of_string "02") (list_ascii_of_string "29")
              (list_ascii_of_string "23") (list_ascii_of_string "30")
              (list_ascii_of_string "00") None (list_ascii_of_string "Z"))
           (mkdatetime 2024 3 1 1 30 0 0) (mkdatetime 2024 2 29 23 30 0 0) []);
    reflexivity.
Defined.

(** X17: of the fraction of a second only the first six digits count.  Two
    matching timestamps with the same groups but for the fraction are
    compiled to the same result when their fractions, cut after six digits
    and filled up to six with zeros, are the same; a missing fraction counts
    as zero. *)
Theorem compile_datetime_cuts_the_fraction_after_six_digits :
  forall E st m f1 f2 sep tail,
    timestamp_groups (with_fraction m f1) ->
    timestamp_groups (with_fraction m f2) ->
    fraction_digits f1 = fraction_digits f2 ->
    sep = "T"%char \/ sep = "t"%char ->
    tail = [] \/ tail = ["010"%char] ->
    let timestamp f :=
      ConstantRule
        (VStr (string_of_list_ascii (timestamp_text (with_fraction m f) sep tail)))
    in
    compile_datetime E (timestamp f1) st = compile_datetime E (timestamp f2) st.
Proof.
  intros E st m f1 f2 sep tail G1 G2 Hf Hsep Htail timestamp. subst timestamp.
  cbv beta.
  rewrite (compile_datetime_of_text E _ sep tail st G1 Hsep Htail).
  rewrite (compile_datetime_of_text E _ sep tail st G2 Hsep Htail).
  unfold matched_fields, with_fraction.
  cbn [group1 group2 group3 group4 group5 group6 group7 group8].
  now rewrite Hf.
Qed.

Lemma compile_datetime_cuts_the_fraction_after_six_digits_witness :
  compile_datetime Sample.externals
    (ConstantRule (VStr "2023-05-01T10:00:00.1234569Z")) []
  = compile_datetime Sample.externals
      (ConstantRule (VStr "2023-05-01T10:00:00.123456Z")) [].
Proof.
  apply (compile_datetime_cuts_the_fraction_after_six_digits Sample.externals []
           (mk_ts_match (list_ascii_of_string "2023")
              (list_ascii_of_string "05") (list_ascii_of_string "01")
              (list_ascii_of_string "10") (list_ascii_of_string "00")
              (list_ascii_of_string "00") None (list_ascii_of_string "Z"))
           (Some (list_ascii_of_string "1234569"))
           (Some (list_ascii_of_string "123456")) "T" []);
    [| |reflexivity|now left|now left];
    (repeat (split; [split; reflexivity|]));
    (split; [split; [discriminate|reflexivity]|now left]).
Defined.

(** ** Compilation and the value of a rule *)

Lemma filter_run E w rule data st :
  DataObjectFilter.filter E w rule data st
  = ((DataObjectFilter.filter E w rule data st).1, st).
Proof.
  pose proof (filter_read_only E w rule data st) as H.
  destruct (DataObjectFilter.filter E w rule data st) as [res s].
  cbn in *. now subst s.
Qed.

Lemma read_only_run {A B} (m : M A) (k : A -> M B) st :
  read_only m -> (bind m k st).1 = (let? a := (m st).1 in (k a st).1).
Proof.
  intros H. unfold bind. specialize (H st).
  destruct (m st) as [[a|e] s]; cbn in *; now subst s.
Qed.

Lemma read_only_traverse E w data rule :
  read_only (traverse (DataObjectFilter.callbacks E data) w rule).
Proof. exact (filter_read_only E w rule data). Qed.

Lemma filter_binary E w data st (k : Rule -> Value -> Value -> M Value)
    (f : Value -> Value -> result Value) rule l r :
  (forall lv rv s, k rule lv rv s = (f lv rv, s)) ->
  ((let* lv := traverse (DataObjectFilter.callbacks E data) w l in
    let* rv := traverse (DataObjectFilter.callbacks E data) w r in
    k rule lv rv) st).1
  = (let? lv := (DataObjectFilter.filter E w l data st).1 in
     let? rv := (DataObjectFilter.filter E w r data st).1 in
     f lv rv).
Proof.
  intros Hk. rewrite read_only_run by apply read_only_traverse.
  unfold DataObjectFilter.filter.
  destruct (traverse _ w l st).1 as [lv|e]; [|reflexivity]. cbn [rbind].
  rewrite read_only_run by apply read_only_traverse.
  destruct (traverse _ w r st).1 as [rv|e]; [|reflexivity]. cbn [rbind].
  now rewrite Hk.
Qed.

Lemma filter_logical E w data st op l r :
  (DataObjectFilter.filter E w (LogicalBinOpRule op l r) data st).1
  = (let? lv := (DataObjectFilter.filter E w l data st).1 in
     let? rv := (DataObjectFilter.filter E w r data st).1 in
     evaluate_binop_logical E op lv rv (Some data)).
Proof.
  apply (filter_binary E w data st
           (DataObjectFilter.binary_operation_logical E data)
           (fun lv rv => evaluate_binop_logical E op lv rv (Some data))).
  reflexivity.
Qed.

Lemma filter_comparison E w data st op l r :
  (DataObjectFilter.filter E w (ComparisonBinOpRule op l r) data st).1
  = (let? lv := (DataObjectFilter.filter E w l data st).1 in
     let? rv := (DataObjectFilter.filter E w r data st).1 in
     evaluate_binop_comparison E op lv rv (Some data)).
Proof.
  apply (filter_binary E w data st
           (DataObjectFilter.binary_operation_comparison E data)
           (fun lv rv => evaluate_binop_comparison E op lv rv (Some data))).
  reflexivity.
Qed.

Lemma filter_math E w data st op l r :
  (DataObjectFilter.filter E w (MathBinOpRule op l r) data st).1
  = (let? lv := (DataObjectFilter.filter E w l data st).1 in
     let? rv := (DataObjectFilter.filter E w r data st).1 in
     evaluate_binop_math E op lv rv (Some data)).
Proof.
  apply (filter_binary E w data st
           (DataObjectFilter.binary_operation_math E data)
           (fun lv rv => evaluate_binop_math E op lv rv (Some data))).
  reflexivity.
Qed.

Lemma filter_unary E w data st op r :
  (DataObjectFilter.filter E w (UnaryOperationRule op r) data st).1
  = (let? rv := (DataObjectFilter.filter E w r data st).1 in
     evaluate_unop E op rv (Some data)).
Proof.
  unfold DataObjectFilter.filter. cbn [traverse].
  rewrite read_only_run by apply read_only_traverse.
  now destruct (traverse _ w r st).1.
Qed.

Lemma filter_list E w data st (k : list Rule -> Rule) items :
  k = ListRule \/ k = IPListRule ->
  (DataObjectFilter.filter E w (k items) data st).1
  = (let? _ := (if w
                then (walk (DataObjectFilter.callbacks E data) w items st).1
                else Ok tt) in
     (values (k items) st).1).
Proof.
  intros [->| ->]; unfold DataObjectFilter.filter;
    [rewrite traverse_ListRule|rewrite traverse_IPListRule];
    (rewrite read_only_run;
     [destruct w; reflexivity
     |destruct w; [|apply read_only_ret];
      apply read_only_walk, Forall_forall; intros x _;
      apply read_only_traverse]).
Qed.

Lemma walk_congruent E w data items st items' st' :
  Forall2 (fun x x' =>
             (DataObjectFilter.filter E w x data st).1
             = (DataObjectFilter.filter E w x' data st').1) items items' ->
  (walk (DataObjectFilter.callbacks E data) w items st).1
  = (walk (DataObjectFilter.callbacks E data) w items' st').1.
Proof.
  induction 1 as [|x x' t t' Hx _ IH]; [reflexivity|].
  rewrite !walk_cons, !read_only_run by apply read_only_traverse.
  unfold DataObjectFilter.filter in Hx. rewrite Hx.
  destruct (traverse _ w x' st').1; [exact IH|reflexivity].
Qed.

Lemma mapM_get_value_congruent items st items' st' :
  map (contents st) items = map (contents st') items' ->
  (mapM get_value items st).1 = (mapM get_value items' st').1.
Proof.
  revert items'. induction items as [|x t IH]; intros [|x' t'] H;
    try discriminate; [reflexivity|].
  injection H as Hx Ht. cbn [mapM].
  rewrite !read_only_run by apply read_only_get_value.
  rewrite (get_value_contents _ _ _ _ Hx).
  destruct (get_value x' st').1; [|reflexivity]. cbn [rbind].
  rewrite !read_only_run
    by (apply read_only_mapM, Forall_forall; intros ? _;
        apply read_only_get_value).
  now rewrite (IH _ Ht).
Qed.

Lemma values_congruent (k : list Rule -> Rule) items st items' st' :
  k = ListRule \/ k = IPListRule ->
  map (contents st) items = map (contents st') items' ->
  (values (k items) st).1 = (values (k items') st').1.
Proof.
  intros Hk H. pose proof (mapM_get_value_congruent _ _ _ _ H) as Hv.
  assert (forall its, read_only (mapM get_value its)) as Hro
    by (intros; apply read_only_mapM, Forall_forall; intros ? _;
        apply read_only_get_value).
  destruct Hk as [->| ->]; cbn [values];
    rewrite !read_only_run by apply Hro; rewrite Hv;
    now destruct (mapM get_value items' st').1.
Qed.

(** The value of a rule depends on what the tree looks like only. *)
Lemma filter_contents E w data rule :
  forall st st' rule',
    contents st rule = contents st' rule' ->
    (DataObjectFilter.filter E w rule data st).1
    = (DataObjectFilter.filter E w rule' data st').1.
Proof.
  induction rule using Rule_induction; intros st st' rule' Hc;
    destruct rule'; try discriminate Hc; cbn [contents] in Hc.
  1-5, 7: injection Hc as ->; reflexivity.
  - injection Hc as Hc. unfold DataObjectFilter.filter. cbn. now rewrite Hc.
  - injection Hc as Hc.
    rewrite !(filter_list E w data _ ListRule) by now left.
    rewrite (values_congruent ListRule _ _ _ _ (or_introl eq_refl) Hc).
    destruct w; [|reflexivity].
    rewrite (walk_congruent E true data items st value st'); [reflexivity|].
    clear -H Hc. revert value Hc. induction H as [|x t Hx _ IH];
      intros [|x' t'] Hc; try discriminate; constructor.
    + injection Hc as Hx' _. now apply Hx.
    + injection Hc as _ Ht. now apply IH.
  - injection Hc as Hc.
    rewrite !(filter_list E w data _ IPListRule) by now right.
    rewrite (values_congruent IPListRule _ _ _ _ (or_intror eq_refl) Hc).
    destruct w; [|reflexivity].
    rewrite (walk_congruent E true data items st value st'); [reflexivity|].
    clear -H Hc. revert value Hc. induction H as [|x t Hx _ IH];
      intros [|x' t'] Hc; try discriminate; constructor.
    + injection Hc as Hx' _. now apply Hx.
    + injection Hc as _ Ht. now apply IH.
  - injection Hc as -> Hl Hr. rewrite !filter_logical.
    now rewrite (IHrule1 _ _ _ Hl), (IHrule2 _ _ _ Hr).
  - injection Hc as -> Hl Hr. rewrite !filter_comparison.
    now rewrite (IHrule1 _ _ _ Hl), (IHrule2 _ _ _ Hr).
  - injection Hc as -> Hl Hr. rewrite !filter_math.
    now rewrite (IHrule1 _ _ _ Hl), (IHrule2 _ _ _ Hr).
  - injection Hc as -> Hr. rewrite !filter_unary.
    now rewrite (IHrule _ _ _ Hr).
Qed.

Lemma store_extension (st st' : store) :
  (forall c v, st !! c = Some v -> st' !! c = Some v) -> exists g, st' = st ++ g.
Proof.
  intros H. exists (drop (length st) st'). apply list_eq. intros i.
  destruct (decide (i < length st)%nat) as [Hi|Hi].
  - rewrite lookup_app_l by exact Hi.
    destruct (lookup_lt_is_Some_2 st i Hi) as [v Hv]. rewrite Hv. now apply H.
  - rewrite lookup_app_r by lia. rewrite lookup_drop. f_equal. lia.
Qed.

(** Compiling a tree whose integer literals hold integers only adds to the
    store. *)
Lemma compile_extends E w rule st res st' :
  settled st rule -> compile E w rule st = (res, st') -> exists g, st' = st ++ g.
Proof.
  intros S H. apply store_extension. intros c v Hv.
  pose proof (within_compile E w rule st c v Hv) as Hc. rewrite H in Hc.
  destruct Hc as [Hc|(Hin & z & Hz & Hc)]; [exact Hc|].
  unfold settled in S. rewrite Forall_forall in S.
  destruct (S c Hin) as [z0 Hz0]. rewrite Hv in Hz0. injection Hz0 as ->.
  cbn in Hz. injection Hz as <-. exact Hc.
Qed.

Lemma settled_closed st rule : settled st rule -> closed st rule.
Proof.
  intros S. eapply Forall_impl; [exact S|].
  intros c [z Hz]. eapply lookup_lt_Some. exact Hz.
Qed.

Lemma closed_app st g rule : closed st rule -> closed (st ++ g) rule.
Proof.
  intros C. eapply Forall_impl; [exact C|].
  cbv beta. intros c Hc. rewrite length_app. lia.
Qed.

Lemma settled_app st g rule : settled st rule -> settled (st ++ g) rule.
Proof.
  intros S. eapply Forall_impl; [exact S|].
  intros c [z Hz]. exists z. now apply lookup_app_l_Some.
Qed.

Lemma closed_binary st l r :
  closed st l -> closed st r ->
  Forall (fun c => (c < length st)%nat) (cells_of l ++ cells_of r).
Proof. intros. now apply Forall_app. Qed.

Lemma contents_app st g rule :
  closed st rule -> contents (st ++ g) rule = contents st rule.
Proof.
  induction rule as [v|v|v|v|v|c|v|items IH|items IH|op l r IHl IHr
                    |op l r IHl IHr|op l r IHl IHr|op r IHr]
    using Rule_induction; intros C; cbn [contents]; try reflexivity.
  - apply Forall_inv in C. unfold read. now rewrite lookup_app_l.
  - f_equal. apply List.map_ext_Forall. unfold closed in C. cbn in C.
    rewrite Forall_concat, Forall_map in C.
    eapply Forall_impl; [apply Forall_and; split; [exact IH|exact C]|].
    cbn. intros x [Hx Cx]. exact (Hx Cx).
  - f_equal. apply List.map_ext_Forall. unfold closed in C. cbn in C.
    rewrite Forall_concat, Forall_map in C.
    eapply Forall_impl; [apply Forall_and; split; [exact IH|exact C]|].
    cbn. intros x [Hx Cx]. exact (Hx Cx).
  - unfold closed in C. cbn in C. apply Forall_app in C as [Cl Cr].
    now rewrite IHl, IHr.
  - unfold closed in C. cbn in C. apply Forall_app in C as [Cl Cr].
    now rewrite IHl, IHr.
  - unfold closed in C. cbn in C. apply Forall_app in C as [Cl Cr].
    now rewrite IHl, IHr.
  - now rewrite IHr.
Qed.

Lemma filter_app E w data st g rule :
  closed st rule ->
  (DataObjectFilter.filter E w rule data (st ++ g)).1
  = (DataObjectFilter.filter E w rule data st).1.
Proof. intros C. apply filter_contents. now apply contents_app. Qed.

Lemma settled_children st l r :
  Forall (fun c => exists z, st !! c = Some (VInt z)) (cells_of l ++ cells_of r) ->
  settled st l /\ settled st r.
Proof. intros H. now apply Forall_app in H. Qed.

(** The two children of an operation node, compiled one after the other. *)
Lemma children_preserved E w l r st l1 s1 r1 s2 :
  value_preserved E w l -> value_preserved E w r ->
  settled st l -> settled st r ->
  compile E w l st = (Ok l1, s1) -> compile E w r s1 = (Ok r1, s2) ->
  (exists g, s2 = st ++ g)
  /\ closed s2 l1 /\ closed s2 r1
  /\ is_VariableRule l1 = is_VariableRule l
  /\ is_VariableRule r1 = is_VariableRule r
  /\ forall data,
       (DataObjectFilter.filter E w l1 data s2).1
       = (DataObjectFilter.filter E w l data st).1
       /\ (DataObjectFilter.filter E w r1 data s2).1
          = (DataObjectFilter.filter E w r data st).1.
Proof.
  intros Pl Pr Sl Sr Hl Hr.
  destruct (Pl st l1 s1 Sl Hl) as ((g1 & ->) & Cl & Vl & El).
  destruct (Pr (st ++ g1) r1 s2 (settled_app _ _ _ Sr) Hr)
    as ((g2 & ->) & Cr & Vr & Er).
  split; [exists (g1 ++ g2); now rewrite app_assoc|].
  split; [now apply closed_app|]. split; [exact Cr|].
  split; [exact Vl|]. split; [exact Vr|]. intros data. split.
  - now rewrite filter_app, El.
  - rewrite Er. apply filter_app. now apply settled_closed.
Qed.

Lemma mapM_get_value_Forall2 xs vs st :
  Forall2 (fun x v => get_value x st = (Ok v, st)) xs vs ->
  mapM get_value xs st = (Ok vs, st).
Proof.
  induction 1 as [|x v xs vs Hx _ IH]; [reflexivity|].
  cbn [mapM]. now rewrite (bind_ok _ _ _ _ _ Hx), (bind_ok _ _ _ _ _ IH).
Qed.

Lemma walk_literals E w data xs st :
  Forall (fun x => is_NumberRule x = true) xs ->
  walk (DataObjectFilter.callbacks E data) w xs st = (Ok tt, st).
Proof.
  induction 1 as [|x xs Hx _ IH]; [reflexivity|].
  rewrite walk_cons. destruct x; try discriminate; exact IH.
Qed.

(** The value of a list of literals of numbers that hold [vs]. *)
Lemma filter_list_of_literals E w data xs vs st :
  Forall (fun x => is_NumberRule x = true) xs ->
  Forall2 (fun x v => get_value x st = (Ok v, st)) xs vs ->
  DataObjectFilter.filter E w (ListRule xs) data st = (Ok (VList vs), st).
Proof.
  intros Hn Hv. unfold DataObjectFilter.filter. rewrite traverse_ListRule.
  assert ((if w then walk (DataObjectFilter.callbacks E data) w xs
           else ret tt) st = (Ok tt, st)) as Hw.
  { destruct w; [now apply walk_literals|reflexivity]. }
  rewrite (bind_ok _ _ _ _ _ Hw). cbn.
  unfold DataObjectFilter.list, values.
  now rewrite (bind_ok _ _ _ _ _ (mapM_get_value_Forall2 _ _ _ Hv)).
Qed.

Lemma cells_of_integers cs :
  concat (map cells_of (map IntegerRule cs)) = cs.
Proof. induction cs as [|c cs IH]; cbn; congruence. Qed.

Lemma cells_of_floats rs :
  concat (map cells_of (map (fun r => FloatRule r) rs)) = [].
Proof. induction rs as [|r rs IH]; cbn; congruence. Qed.

Lemma number_literal_value E w x st :
  is_NumberRule x = true ->
  exists v,
    get_value x st = (Ok v, st)
    /\ forall data, (DataObjectFilter.filter E w x data st).1 = Ok v.
Proof. destruct x; try discriminate; intros _; eexists; now split. Qed.

Lemma preserved_leaf E w rule :
  (forall st, compile E w rule st = (Ok rule, st)) -> cells_of rule = [] ->
  value_preserved E w rule.
Proof.
  intros Hc Hcells st rule1 st1 _ H. rewrite Hc in H. injection H as <- <-.
  split; [exists []; now rewrite app_nil_r|].
  split; [unfold closed; rewrite Hcells; constructor|]. now split.
Qed.

Lemma preserved_integer E w c : value_preserved E w (IntegerRule c).
Proof.
  intros st rule1 st1 S H. pose proof S as [z Hz]%settled_integer.
  change (IDEAFilterCompiler.integer (IntegerRule c) st = (Ok rule1, st1)) in H.
  rewrite (integer_normal st c z Hz) in H. injection H as <- <-.
  split; [exists []; now rewrite app_nil_r|].
  split; [now apply settled_closed|]. now split.
Qed.

Lemma compile_list_returns E w (k : list Rule -> Rule) items st rule1 st1 :
  k = ListRule \/ k = IPListRule ->
  compile E w (k items) st = (Ok rule1, st1) -> rule1 = k items.
Proof.
  intros Hk H. unfold compile, IDEAFilterCompiler.compile in H.
  destruct Hk as [->| ->];
    [rewrite traverse_ListRule in H|rewrite traverse_IPListRule in H];
    apply bind_inv in H as (u & s & _ & H); now injection H as <- _.
Qed.

Lemma preserved_list E w (k : list Rule -> Rule) items :
  k = ListRule \/ k = IPListRule -> value_preserved E w (k items).
Proof.
  intros Hk st rule1 st1 S H.
  pose proof (compile_list_returns E w k items st rule1 st1 Hk H) as ->.
  destruct (compile_extends E w _ st _ st1 S H) as [g ->].
  split; [now exists g|].
  split; [now apply closed_app, settled_closed|].
  split; [reflexivity|]. intros data. now apply filter_app, settled_closed.
Qed.

Lemma compile_variable E w v st :
  compile E w (VariableRule v) st = (Ok (VariableRule v), st).
Proof. reflexivity. Qed.

(** The compiled operands of a comparison off the table are not coerced. *)
Lemma off_the_table_compiled E w l r st l1 s1 r1 s2 :
  off_the_table E l r ->
  compile E w l st = (Ok l1, s1) -> compile E w r s1 = (Ok r1, s2) ->
  is_VariableRule l1 = is_VariableRule l ->
  is_VariableRule r1 = is_VariableRule r ->
  chosen E l1 r1 = Ok None.
Proof.
  intros [H|(s & path & [->| ->] & Hp & Hd)] Hl Hr Vl Vr.
  - apply chosen_same_kind. congruence.
  - rewrite compile_variable in Hl. injection Hl as <- _.
    eapply chosen_off_the_table; eauto.
  - rewrite compile_variable in Hr. injection Hr as <- _.
    eapply chosen_off_the_table; eauto.
Qed.

Lemma preserved_binary E w (k : string -> Rule -> Rule -> Rule) op l r
    (f : string -> Value -> Value -> option Value -> result Value)
    st l1 s1 r1 s2 :
  (forall x y, is_VariableRule (k op x y) = false) ->
  (forall x y, cells_of (k op x y) = cells_of x ++ cells_of y) ->
  (forall x y data s,
     (DataObjectFilter.filter E w (k op x y) data s).1
     = (let? lv := (DataObjectFilter.filter E w x data s).1 in
        let? rv := (DataObjectFilter.filter E w y data s).1 in
        f op lv rv (Some data))) ->
  value_preserved E w l -> value_preserved E w r ->
  settled st (k op l r) ->
  compile E w l st = (Ok l1, s1) -> compile E w r s1 = (Ok r1, s2) ->
  (exists g, s2 = st ++ g)
  /\ closed s2 (k op l1 r1)
  /\ is_VariableRule (k op l1 r1) = is_VariableRule (k op l r)
  /\ forall data,
       (DataObjectFilter.filter E w (k op l1 r1) data s2).1
       = (DataObjectFilter.filter E w (k op l r) data st).1.
Proof.
  intros Hvar Hcells Hf Pl Pr S Hl Hr.
  unfold settled in S. rewrite Hcells in S. apply settled_children in S as [Sl Sr].
  destruct (children_preserved E w l r st l1 s1 r1 s2 Pl Pr Sl Sr Hl Hr)
    as (Hg & Cl & Cr & _ & _ & Hv).
  split; [exact Hg|].
  split; [unfold closed; rewrite Hcells; now apply closed_binary|].
  split; [now rewrite !Hvar|]. intros data. rewrite !Hf.
  destruct (Hv data) as [-> ->]. reflexivity.
Qed.

Lemma new_IntegerRule_scalar v :
  (forall rs, v <> VList rs) ->
  forall (m : list Value -> M Rule),
    match v with VList rs => m rs | _ => new_IntegerRule v end
    = new_IntegerRule v.
Proof. intros H m. destruct v; try reflexivity. now destruct (H l). Qed.

Lemma FloatRule_scalar v :
  (forall rs, v <> VList rs) ->
  forall (m : list Value -> M Rule),
    match v with VList rs => m rs | _ => ret (FloatRule v) end
    = ret (FloatRule v).
Proof. intros H m. destruct v; try reflexivity. now destruct (H l). Qed.

Lemma fresh_integer_values (pre rs : store) :
  Forall2 (fun x v => get_value x (pre ++ rs) = (Ok v, pre ++ rs))
    (map IntegerRule (seq (length pre) (length rs))) rs.
Proof.
  eapply Forall2_impl; [apply fresh_integers|].
  intros x v (c & -> & Hc). cbn. unfold read. now rewrite Hc.
Qed.

Lemma float_values rs st :
  Forall2 (fun x v => get_value x st = (Ok v, st))
    (map (fun r => FloatRule r) rs) rs.
Proof. induction rs; constructor; auto. Qed.

Lemma VList_or_not v : (exists rs, v = VList rs) \/ forall rs, v <> VList rs.
Proof. destruct v; try (right; discriminate). left. eauto. Qed.

Lemma preserved_math E w op l r :
  (forall op a b o,
     evaluate_binop_math E op a b o = evaluate_binop_math E op a b None) ->
  value_preserved E w l -> value_preserved E w r ->
  value_preserved E w (MathBinOpRule op l r).
Proof.
  intros Hmath Pl Pr st rule1 st1 S H.
  rewrite compile_math in H.
  apply bind_inv in H as (l1 & s1 & Hl & H).
  apply bind_inv in H as (r1 & s2 & Hr & H).
  pose proof S as S'. unfold settled in S'. cbn [cells_of] in S'.
  apply settled_children in S' as [Sl Sr].
  destruct (children_preserved E w l r st l1 s1 r1 s2 Pl Pr Sl Sr Hl Hr)
    as ((g & Hg) & Cl & Cr & _ & _ & Hv).
  assert (forall data lv rv,
            (DataObjectFilter.filter E w l1 data s2).1 = Ok lv ->
            (DataObjectFilter.filter E w r1 data s2).1 = Ok rv ->
            (DataObjectFilter.filter E w (MathBinOpRule op l r) data st).1
            = evaluate_binop_math E op lv rv None) as Hfold.
  { intros data lv rv Hlv Hrv. rewrite filter_math.
    destruct (Hv data) as [<- <-]. rewrite Hlv, Hrv. cbn [rbind].
    apply Hmath. }
  unfold IDEAFilterCompiler.binary_operation_math in H.
  destruct (is_IntegerRule l1 && is_IntegerRule r1) eqn:Hint;
    [|destruct (is_NumberRule l1 && is_NumberRule r1) eqn:Hnum].
  - apply andb_prop in Hint as [Il Ir].
    destruct l1 as [| | | | |c1| | | | | | |]; try discriminate Il.
    destruct r1 as [| | | | |c2| | | | | | |]; try discriminate Ir.
    cbn [get_operation get_value] in H. unfold bind at 1 2 3 in H.
    unfold ret at 1 in H. cbv beta iota in H.
    apply bind_inv in H as (v & s & Hev & H).
    unfold lift in Hev. injection Hev as Hev <-.
    assert (forall data,
              (DataObjectFilter.filter E w (MathBinOpRule op l r) data st).1
              = Ok v) as Hval.
    { intros data. rewrite <- Hev. now apply Hfold. }
    destruct (VList_or_not v) as [[rs ->]|Hscalar].
    + rewrite (bind_ok _ _ _ _ _ (mapM_new_IntegerRule rs s2)) in H.
      injection H as <- <-.
      split; [exists (g ++ rs); rewrite Hg; now rewrite app_assoc|].
      split.
      { unfold closed. cbn [cells_of]. rewrite cells_of_integers.
        apply Forall_forall. intros c Hc%elem_of_seq.
        rewrite length_app. lia. }
      split; [reflexivity|]. intros data. rewrite Hval.
      rewrite (filter_list_of_literals E w data _ rs); [reflexivity| |].
      * apply Forall_forall. intros x Hx%list_elem_of_fmap.
        destruct Hx as (c & -> & _). reflexivity.
      * apply fresh_integer_values.
    + rewrite (new_IntegerRule_scalar v Hscalar) in H.
      injection H as <- <-.
      split; [exists (g ++ [v]); rewrite Hg; now rewrite app_assoc|].
      split.
      { unfold closed. cbn [cells_of]. constructor; [|constructor].
        rewrite length_app. cbn. lia. }
      split; [reflexivity|]. intros data. rewrite Hval.
      unfold DataObjectFilter.filter. cbn. unfold read.
      now rewrite list_lookup_middle.
  - apply andb_prop in Hnum as [Nl Nr].
    destruct (number_literal_value E w l1 s2 Nl) as (lv & Hlv & Flv).
    destruct (number_literal_value E w r1 s2 Nr) as (rv & Hrv & Frv).
    apply bind_inv in H as (op' & s & Hop & H). injection Hop as <- <-.
    rewrite (bind_ok _ _ _ _ _ Hlv), (bind_ok _ _ _ _ _ Hrv) in H.
    apply bind_inv in H as (v & s & Hev & H).
    unfold lift in Hev. injection Hev as Hev <-.
    assert (forall data,
              (DataObjectFilter.filter E w (MathBinOpRule op l r) data st).1
              = Ok v) as Hval.
    { intros data. rewrite <- Hev. now apply Hfold. }
    destruct (VList_or_not v) as [[rs ->]|Hscalar].
    + injection H as <- <-. split; [now exists g|].
      split; [unfold closed; cbn [cells_of]; rewrite cells_of_floats;
              constructor|].
      split; [reflexivity|]. intros data. rewrite Hval.
      rewrite (filter_list_of_literals E w data _ rs); [reflexivity| |].
      * apply Forall_forall. intros x Hx%list_elem_of_fmap.
        destruct Hx as (c & -> & _). reflexivity.
      * apply float_values.
    + rewrite (FloatRule_scalar v Hscalar) in H. injection H as <- <-.
      split; [now exists g|]. split; [constructor|].
      split; [reflexivity|]. intros data. now rewrite Hval.
  - injection H as <- <-.
    apply (preserved_binary E w MathBinOpRule op l r (evaluate_binop_math E)
             st l1 s1 r1 s2); auto.
    intros x y data s. apply filter_math.
Qed.

(** Compilation keeps the value of every plain rule. *)
Lemma plain_preserved E w rule :
  (forall op a b o,
     evaluate_binop_math E op a b o = evaluate_binop_math E op a b None) ->
  plain E rule -> value_preserved E w rule.
Proof.
  intros Hmath. induction 1 as [v|v|c|v|items|items|op l r _ IHl _ IHr
                               |op l r _ IHl _ IHr Hoff|op l r _ IHl _ IHr
                               |op r _ IHr].
  - now apply preserved_leaf.
  - now apply preserved_leaf.
  - apply preserved_integer.
  - now apply preserved_leaf.
  - apply (preserved_list E w ListRule). now left.
  - apply (preserved_list E w IPListRule). now right.
  - intros st rule1 st1 S H. rewrite compile_logical in H.
    apply bind_inv in H as (l1 & s1 & Hl & H).
    apply bind_inv in H as (r1 & s2 & Hr & H). injection H as <- <-.
    apply (preserved_binary E w LogicalBinOpRule op l r
             (evaluate_binop_logical E) st l1 s1 r1 s2); auto.
    intros x y data s. apply filter_logical.
  - intros st rule1 st1 S H. rewrite compile_comparison in H.
    apply bind_inv in H as (l1 & s1 & Hl & H).
    apply bind_inv in H as (r1 & s2 & Hr & H).
    pose proof S as S'. unfold settled in S'. cbn [cells_of] in S'.
    apply settled_children in S' as [Sl Sr].
    destruct (children_preserved E w l r st l1 s1 r1 s2 IHl IHr Sl Sr Hl Hr)
      as (_ & _ & _ & Vl & Vr & _).
    rewrite comparison_unfold in H.
    rewrite (off_the_table_compiled E w l r st l1 s1 r1 s2 Hoff Hl Hr Vl Vr)
      in H.
    injection H as <- <-.
    apply (preserved_binary E w ComparisonBinOpRule op l r
             (evaluate_binop_comparison E) st l1 s1 r1 s2); auto.
    intros x y data s. apply filter_comparison.
  - now apply preserved_math.
  - intros st rule1 st1 S H. rewrite compile_unary in H.
    apply bind_inv in H as (r1 & s1 & Hr & H). injection H as <- <-.
    destruct (IHr st r1 s1 S Hr) as (Hg & Cr & _ & Hv).
    split; [exact Hg|]. split; [exact Cr|]. split; [reflexivity|].
    intros data. rewrite !filter_unary. now rewrite Hv.
Qed.

(** X18: compilation keeps the value of a rule that it has nothing to
    coerce in.  For a rule without address and time literals outside lists
    and without a comparison of a variable of the table, whose integer
    literals hold integers, and an arithmetic that does not look at the
    record: when compilation returns, the compiled rule evaluates on every
    record to what the rule evaluated to, arithmetic on literals that was
    folded included, and evaluates without writing. *)
Theorem compile_keeps_the_value_of_a_plain_rule :
  forall E w rule st rule1 st1 data,
    (forall op a b o,
       evaluate_binop_math E op a b o = evaluate_binop_math E op a b None) ->
    plain E rule -> settled st rule ->
    compile E w rule st = (Ok rule1, st1) ->
    DataObjectFilter.filter E w rule1 data st1
    = ((DataObjectFilter.filter E w rule data st).1, st1).
Proof.
  intros E w rule st rule1 st1 data Hmath Hp S H.
  destruct (plain_preserved E w rule Hmath Hp st rule1 st1 S H)
    as (_ & _ & _ & Hv).
  now rewrite filter_run, Hv.
Qed.

Lemma compile_keeps_the_value_of_a_plain_rule_witness :
  let data := VDict [("ConnCount", VInt 5)] in
  DataObjectFilter.filter Sample.externals true
    (ComparisonBinOpRule "OP_GT" (VariableRule (VStr "ConnCount"))
       (IntegerRule 2)) data [VInt 1; VInt 2; VInt 3]
  = ((DataObjectFilter.filter Sample.externals true
        (ComparisonBinOpRule "OP_GT" (VariableRule (VStr "ConnCount"))
           (MathBinOpRule "OP_PLUS" (IntegerRule 0) (IntegerRule 1)))
        data [VInt 1; VInt 2]).1,
     [VInt 1; VInt 2; VInt 3]).
Proof.
  apply (compile_keeps_the_value_of_a_plain_rule Sample.externals true
           (ComparisonBinOpRule "OP_GT" (VariableRule (VStr "ConnCount"))
              (MathBinOpRule "OP_PLUS" (IntegerRule 0) (IntegerRule 1)))
           [VInt 1; VInt 2]).
  - reflexivity.
  - apply plain_comparison; [constructor|repeat constructor|].
    right. exists "ConnCount", "ConnCount". repeat split. now left.
  - repeat constructor; eexists; reflexivity.
  - reflexivity.
Defined.

(** ** Errors of folded arithmetic *)

(** X19: arithmetic on two number literals is done when the rule is
    compiled, so its errors are raised by the compilation: what the
    arithmetic evaluator raises on the values of two compiled number
    literals, [binary_operation_math] raises, and it creates no node. *)
Theorem folding_raises_what_the_arithmetic_raises :
  forall E rule op left right lv rv e st,
    get_operation rule st = (Ok op, st) ->
    is_NumberRule left = true -> is_NumberRule right = true ->
    get_value left st = (Ok lv, st) -> get_value right st = (Ok rv, st) ->
    evaluate_binop_math E op lv rv None = Raise e ->
    IDEAFilterCompiler.binary_operation_math E rule left right st
    = (Raise e, st)
    /\ forall w c1 c2,
         left = IntegerRule c1 -> right = IntegerRule c2 ->
         (exists a b, lv = VInt a /\ rv = VInt b) ->
         compile E w (MathBinOpRule op left right) st = (Raise e, st).
Proof.
  intros E rule op left right lv rv e st Hop Nl Nr Hl Hr He.
  assert (IDEAFilterCompiler.binary_operation_math E rule left right st
          = (Raise e, st)) as Hcb.
  { unfold IDEAFilterCompiler.binary_operation_math.
    rewrite Nl, Nr. cbn [andb].
    destruct (is_IntegerRule left && is_IntegerRule right);
      rewrite (bind_ok _ _ _ _ _ Hop), (bind_ok _ _ _ _ _ Hl),
        (bind_ok _ _ _ _ _ Hr); unfold bind, lift; now rewrite He. }
  split; [exact Hcb|].
  intros w c1 c2 -> -> (a & b & -> & ->).
  rewrite compile_math.
  cbn [get_value] in Hl, Hr. injection Hl as Hl. injection Hr as Hr.
  assert (forall c z, read st c = VInt z ->
            compile E w (IntegerRule c) st = (Ok (IntegerRule c), st)) as Hint.
  { intros c z Hc.
    change (IDEAFilterCompiler.integer (IntegerRule c) st
            = (Ok (IntegerRule c), st)).
    unfold IDEAFilterCompiler.integer. cbn [get_value]. unfold bind, lift.
    rewrite Hc. cbn [py_int]. unfold set_value, ret. f_equal.
    unfold read in Hc. destruct (st !! c) as [v|] eqn:Hlook;
      cbn in Hc; [subst v; now apply list_insert_id|discriminate]. }
  rewrite (bind_ok _ _ _ _ _ (Hint c1 a Hl)), (bind_ok _ _ _ _ _ (Hint c2 b Hr)).
  unfold IDEAFilterCompiler.binary_operation_math. cbn [is_IntegerRule andb].
  cbn [get_operation get_value]. unfold bind, ret, lift.
  now rewrite Hl, Hr, He.
Qed.

Lemma folding_raises_what_the_arithmetic_raises_witness :
  compile Sample.externals true
    (MathBinOpRule "OP_MODULO" (IntegerRule 0) (IntegerRule 1))
    [VInt 7; VInt 0]
  = (Raise (OtherError "ZeroDivisionError"), [VInt 7; VInt 0]).
Proof.
  destruct (folding_raises_what_the_arithmetic_raises Sample.externals
              (MathBinOpRule "OP_MODULO" (IntegerRule 0) (IntegerRule 1))
              "OP_MODULO" (IntegerRule 0) (IntegerRule 1) (VInt 7) (VInt 0)
              (OtherError "ZeroDivisionError") [VInt 7; VInt 0]
              eq_refl eq_refl eq_refl eq_refl eq_refl eq_refl) as [_ H].
  apply (H true 0%nat 1%nat eq_refl eq_refl). now exists 7, 0.
Defined.
